(** * Task manager API: validation schemas, CRUD layer and routes

    A shallow embedding of [schemas.py], [models.py], [crud.py] and the
    task routes of [routes.py].  Python strings are sequences of code
    points, timestamps are integers read off one clock, the SQLAlchemy
    session is an explicit state with a pending unit of work, and
    exceptions are values of a result type. *)

From Stdlib Require Import ZArith NArith List Bool Lia String Ascii.
From Stdlib Require Import Sorted Permutation.
Import ListNotations.

Local Open Scope Z_scope.

(* ================================================================== *)
(** ** Python [str] *)
(* ================================================================== *)

Module PyStr.

(** A [str] is a sequence of Unicode code points; [len] counts them. *)
Definition str := list N.

Definition len (s : str) : Z := Z.of_nat (List.length s).

(** [str.isspace] on one code point (CPython's whitespace table). *)
Definition isspace (c : N) : bool :=
  (((9 <=? c) && (c <=? 13)) ||
   ((28 <=? c) && (c <=? 32)) ||
   (c =? 133) || (c =? 160) || (c =? 5760) ||
   ((8192 <=? c) && (c <=? 8202)) ||
   (c =? 8232) || (c =? 8233) || (c =? 8239) || (c =? 8287) ||
   (c =? 12288))%N.

Fixpoint lstrip (s : str) : str :=
  match s with
  | [] => []
  | c :: s' => if isspace c then lstrip s' else s
  end.

Definition rstrip (s : str) : str := rev (lstrip (rev s)).

(** [s.strip()] *)
Definition strip (s : str) : str := rstrip (lstrip s).

(** Truthiness of a string: [bool(s)]. *)
Definition truthy (s : str) : bool :=
  match s with [] => false | _ :: _ => true end.

Definition eqb (a b : str) : bool :=
  if list_eq_dec N.eq_dec a b then true else false.

(** Literals, for examples: the code points of an ASCII string. *)
Fixpoint of_string (s : string) : str :=
  match s with
  | EmptyString => []
  | String a s' => N_of_ascii a :: of_string s'
  end.

(** Every character is white space (true of the empty string too). *)
Definition all_space (s : str) : bool := forallb isspace s.

End PyStr.

Import PyStr.

(* ================================================================== *)
(** ** models.py / schemas.py: enumerations *)
(* ================================================================== *)

Inductive PriorityEnum := LOW | MEDIUM | HIGH | URGENT.
Inductive StatusEnum := TODO | IN_PROGRESS | COMPLETED | CANCELLED.

Definition PriorityEnum_eqb (a b : PriorityEnum) : bool :=
  match a, b with
  | LOW, LOW | MEDIUM, MEDIUM | HIGH, HIGH | URGENT, URGENT => true
  | _, _ => false
  end.

Definition StatusEnum_eqb (a b : StatusEnum) : bool :=
  match a, b with
  | TODO, TODO | IN_PROGRESS, IN_PROGRESS
  | COMPLETED, COMPLETED | CANCELLED, CANCELLED => true
  | _, _ => false
  end.

Definition PriorityEnum_value (p : PriorityEnum) : str :=
  match p with
  | LOW => of_string "low"
  | MEDIUM => of_string "medium"
  | HIGH => of_string "high"
  | URGENT => of_string "urgent"
  end.

Definition StatusEnum_value (s : StatusEnum) : str :=
  match s with
  | TODO => of_string "todo"
  | IN_PROGRESS => of_string "in_progress"
  | COMPLETED => of_string "completed"
  | CANCELLED => of_string "cancelled"
  end.

(** Lookup of an enumeration member by value. *)
Definition PriorityEnum_of_value (v : str) : option PriorityEnum :=
  find (fun p => PyStr.eqb (PriorityEnum_value p) v) [LOW; MEDIUM; HIGH; URGENT].

Definition StatusEnum_of_value (v : str) : option StatusEnum :=
  find (fun s => PyStr.eqb (StatusEnum_value s) v)
       [TODO; IN_PROGRESS; COMPLETED; CANCELLED].

(* ================================================================== *)
(** ** schemas.py: validation of create and update payloads *)
(* ================================================================== *)

Module Schemas.

(** One key of a JSON body: absent, [null], or carrying a value.  The
    same type records, in a validated [TaskUpdate], whether a field is
    unset, set to [None], or set to a value. *)
Inductive field (A : Type) :=
| Absent
| Null
| Value (a : A).
Arguments Absent {A}.
Arguments Null {A}.
Arguments Value {A} a.

(** A due date as a body carries it: text that reads as a date and
    time, of which the instant read is kept, or text that does not. *)
Inductive raw_datetime :=
| Instant (d : Z)
| Unparsable (text : str).

(** The body of a POST or PUT request, before validation. *)
Record Payload := {
  p_title : field str;
  p_description : field str;
  p_priority : field str;
  p_status : field str;
  p_due_date : field raw_datetime
}.

Inductive FieldName :=
| f_title | f_description | f_priority | f_status | f_due_date.

Inductive ErrorType :=
| missing | string_type | string_too_short | string_too_long
| value_error | enum_error | datetime_error.

(** A structured validation error: the field and the reason. *)
Record ErrorDetails := { loc : FieldName; type_ : ErrorType }.

Inductive validated (A : Type) :=
| Accepted (a : A)
| Rejected (errors : list ErrorDetails).
Arguments Accepted {A} a.
Arguments Rejected {A} errors.

(** The declared [Field(min_length=..., max_length=...)] constraints,
    checked on the value as supplied. *)
Definition check_length (min_length max_length : Z) (s : str)
  : ErrorType + str :=
  if len s <? min_length then inl string_too_short
  else if max_length <? len s then inl string_too_long
  else inr s.

(** [TaskBase.validate_title] *)
Definition validate_title (v : str) : ErrorType + str :=
  if negb (truthy v) || negb (truthy (strip v)) then inl value_error
  else inr (strip v).

(** [TaskBase.validate_description] *)
Definition validate_description (v : option str) : option str :=
  match v with
  | Some s => if truthy s then Some (strip s) else v
  | None => v
  end.

Definition and_then {E A B} (r : E + A) (f : A -> E + B) : E + B :=
  match r with inl e => inl e | inr a => f a end.

(** *** TaskBase / TaskCreate *)

Record TaskCreate := {
  title : str;
  description : option str;
  priority : PriorityEnum;
  status : StatusEnum;
  due_date : option Z
}.

(** [title: str = Field(..., min_length=3, max_length=200)], then the
    field validator. *)
Definition TaskBase_title (f : field str) : ErrorType + str :=
  match f with
  | Absent => inl missing
  | Null => inl string_type
  | Value s => and_then (check_length 3 200 s) validate_title
  end.

(** [description: Optional[str] = Field(None, max_length=1000)], then
    the field validator (not run on the default). *)
Definition TaskBase_description (f : field str) : ErrorType + option str :=
  match f with
  | Absent => inr None
  | Null => inr (validate_description None)
  | Value s =>
      and_then (check_length 0 1000 s)
               (fun s => inr (validate_description (Some s)))
  end.

Definition TaskBase_priority (f : field str) : ErrorType + PriorityEnum :=
  match f with
  | Absent => inr MEDIUM
  | Null => inl enum_error
  | Value v =>
      match PriorityEnum_of_value v with
      | Some p => inr p
      | None => inl enum_error
      end
  end.

Definition TaskBase_status (f : field str) : ErrorType + StatusEnum :=
  match f with
  | Absent => inr TODO
  | Null => inl enum_error
  | Value v =>
      match StatusEnum_of_value v with
      | Some s => inr s
      | None => inl enum_error
      end
  end.

(** [due_date: Optional[datetime] = Field(None)] *)
Definition TaskBase_due_date (f : field raw_datetime)
  : ErrorType + option Z :=
  match f with
  | Absent | Null => inr None
  | Value (Instant d) => inr (Some d)
  | Value (Unparsable _) => inl datetime_error
  end.

Definition errors_of {A} (name : FieldName) (r : ErrorType + A)
  : list ErrorDetails :=
  match r with
  | inl e => [ {| loc := name; type_ := e |} ]
  | inr _ => []
  end.

(** Validation of a create payload: every field is checked and the
    errors of all fields are reported together. *)
Definition validate_TaskCreate (p : Payload) : validated TaskCreate :=
  let t := TaskBase_title (p_title p) in
  let d := TaskBase_description (p_description p) in
  let pr := TaskBase_priority (p_priority p) in
  let st := TaskBase_status (p_status p) in
  let du := TaskBase_due_date (p_due_date p) in
  match t, d, pr, st, du with
  | inr t', inr d', inr pr', inr st', inr du' =>
      Accepted {| title := t'; description := d'; priority := pr';
                  status := st'; due_date := du' |}
  | _, _, _, _, _ =>
      Rejected (errors_of f_title t ++ errors_of f_description d ++
                errors_of f_priority pr ++ errors_of f_status st ++
                errors_of f_due_date du)
  end.

(** *** TaskUpdate *)

(** Every field is optional; [Absent] is a field outside
    [model_fields_set]. *)
Record TaskUpdate := {
  u_title : field str;
  u_description : field str;
  u_priority : field PriorityEnum;
  u_status : field StatusEnum;
  u_due_date : field Z
}.

(** [Optional[str] = Field(None, min_length=..., max_length=...)]:
    the class declares no field validator. *)
Definition TaskUpdate_str (min_length max_length : Z) (f : field str)
  : ErrorType + field str :=
  match f with
  | Absent => inr Absent
  | Null => inr Null
  | Value s =>
      and_then (check_length min_length max_length s)
               (fun s => inr (Value s))
  end.

Definition TaskUpdate_priority (f : field str)
  : ErrorType + field PriorityEnum :=
  match f with
  | Absent => inr Absent
  | Null => inr Null
  | Value v =>
      match PriorityEnum_of_value v with
      | Some p => inr (Value p)
      | None => inl enum_error
      end
  end.

Definition TaskUpdate_status (f : field str)
  : ErrorType + field StatusEnum :=
  match f with
  | Absent => inr Absent
  | Null => inr Null
  | Value v =>
      match StatusEnum_of_value v with
      | Some s => inr (Value s)
      | None => inl enum_error
      end
  end.

Definition TaskUpdate_due_date (f : field raw_datetime)
  : ErrorType + field Z :=
  match f with
  | Absent => inr Absent
  | Null => inr Null
  | Value (Instant d) => inr (Value d)
  | Value (Unparsable _) => inl datetime_error
  end.

Definition validate_TaskUpdate (p : Payload) : validated TaskUpdate :=
  let t := TaskUpdate_str 3 200 (p_title p) in
  let d := TaskUpdate_str 0 1000 (p_description p) in
  let pr := TaskUpdate_priority (p_priority p) in
  let st := TaskUpdate_status (p_status p) in
  let du := TaskUpdate_due_date (p_due_date p) in
  match t, d, pr, st, du with
  | inr t', inr d', inr pr', inr st', inr du' =>
      Accepted {| u_title := t'; u_description := d'; u_priority := pr';
                  u_status := st'; u_due_date := du' |}
  | _, _, _, _, _ =>
      Rejected (errors_of f_title t ++ errors_of f_description d ++
                errors_of f_priority pr ++ errors_of f_status st ++
                errors_of f_due_date du)
  end.

(** [TaskUpdate(status=...)]: only [status] is in the set fields. *)
Definition TaskUpdate_status_only (st : StatusEnum) : TaskUpdate :=
  {| u_title := Absent; u_description := Absent; u_priority := Absent;
     u_status := Value st; u_due_date := Absent |}.

(** One entry of [model_dump(exclude_unset=True)]; a [None] value is
    an entry like any other. *)
Inductive assignment :=
| set_title (v : option str)
| set_description (v : option str)
| set_priority (v : option PriorityEnum)
| set_status (v : option StatusEnum)
| set_due_date (v : option Z)
| set_updated_at (v : Z).

Definition dump_field {A} (mk : option A -> assignment) (f : field A)
  : list assignment :=
  match f with
  | Absent => []
  | Null => [mk None]
  | Value a => [mk (Some a)]
  end.

(** [task_update.model_dump(exclude_unset=True)], in field order. *)
Definition model_dump_exclude_unset (u : TaskUpdate) : list assignment :=
  dump_field set_title (u_title u) ++
  dump_field set_description (u_description u) ++
  dump_field set_priority (u_priority u) ++
  dump_field set_status (u_status u) ++
  dump_field set_due_date (u_due_date u).

End Schemas.

(* ================================================================== *)
(** ** models.py: the [tasks] table *)
(* ================================================================== *)

Module Models.

(** A row of [tasks].  The [nullable=False] columns carry a value, the
    nullable ones an option. *)
Record Task := {
  id : Z;
  title : str;
  description : option str;
  priority : PriorityEnum;
  status : StatusEnum;
  created_at : Z;
  updated_at : Z;
  due_date : option Z
}.

(** A [Task] instance in memory: any attribute may hold [None] until
    the flush checks the column constraints. *)
Record instance := {
  o_id : option Z;
  o_title : option str;
  o_description : option str;
  o_priority : option PriorityEnum;
  o_status : option StatusEnum;
  o_created_at : option Z;
  o_updated_at : option Z;
  o_due_date : option Z
}.

(** [Task(title=..., description=..., priority=..., status=...,
    due_date=...)] *)
Definition Task_init (t : option str) (d : option str)
    (p : option PriorityEnum) (s : option StatusEnum) (du : option Z)
  : instance :=
  {| o_id := None; o_title := t; o_description := d; o_priority := p;
     o_status := s; o_created_at := None; o_updated_at := None;
     o_due_date := du |}.

(** The instance loaded from a row. *)
Definition load (t : Task) : instance :=
  {| o_id := Some (id t); o_title := Some (title t);
     o_description := description t; o_priority := Some (priority t);
     o_status := Some (status t); o_created_at := Some (created_at t);
     o_updated_at := Some (updated_at t); o_due_date := due_date t |}.

(** [setattr(db_task, field, value)] *)
Definition setattr (o : instance) (a : Schemas.assignment) : instance :=
  match a with
  | Schemas.set_title v =>
      {| o_id := o_id o; o_title := v; o_description := o_description o;
         o_priority := o_priority o; o_status := o_status o;
         o_created_at := o_created_at o; o_updated_at := o_updated_at o;
         o_due_date := o_due_date o |}
  | Schemas.set_description v =>
      {| o_id := o_id o; o_title := o_title o; o_description := v;
         o_priority := o_priority o; o_status := o_status o;
         o_created_at := o_created_at o; o_updated_at := o_updated_at o;
         o_due_date := o_due_date o |}
  | Schemas.set_priority v =>
      {| o_id := o_id o; o_title := o_title o;
         o_description := o_description o;
         o_priority := v; o_status := o_status o;
         o_created_at := o_created_at o; o_updated_at := o_updated_at o;
         o_due_date := o_due_date o |}
  | Schemas.set_status v =>
      {| o_id := o_id o; o_title := o_title o;
         o_description := o_description o;
         o_priority := o_priority o; o_status := v;
         o_created_at := o_created_at o; o_updated_at := o_updated_at o;
         o_due_date := o_due_date o |}
  | Schemas.set_due_date v =>
      {| o_id := o_id o; o_title := o_title o;
         o_description := o_description o;
         o_priority := o_priority o; o_status := o_status o;
         o_created_at := o_created_at o; o_updated_at := o_updated_at o;
         o_due_date := v |}
  | Schemas.set_updated_at v =>
      {| o_id := o_id o; o_title := o_title o;
         o_description := o_description o;
         o_priority := o_priority o; o_status := o_status o;
         o_created_at := o_created_at o; o_updated_at := Some v;
         o_due_date := o_due_date o |}
  end.

Definition has_id (k : Z) (t : Task) : bool := id t =? k.

(** The row with primary key [k], if any. *)
Definition lookup (k : Z) (rows : list Task) : option Task :=
  find (has_id k) rows.

(** The key the store gives the next inserted row: one more than the
    largest key in the table. *)
Definition next_id (rows : list Task) : Z :=
  1 + fold_right (fun t m => Z.max (id t) m) 0 rows.

End Models.

(* ================================================================== *)
(** ** The session: store, unit of work, failures *)
(* ================================================================== *)

Module Orm.

Import Models.

Inductive exn :=
| IntegrityError            (* a NOT NULL constraint failed at flush *)
| InvalidRequestError       (* refresh of an instance that has no row *)
| OperationalError (code : nat)    (* any failure of the store itself *)
| ValidationError            (* pydantic: a model cannot be built *)
| ResponseValidationError.   (* FastAPI: the value returned fails response_model *)

(** Where, if anywhere, the store fails during one operation. *)
Inductive fault :=
| NoFault
| AtQuery (e : exn)
| AtCommit (e : exn)
| AtRefresh (e : exn).

(** What an operation reads from its surroundings: the behaviour of
    the store and the clock. *)
Record Env := { failure : fault; now : Z }.

Record Session := {
  store : list Task;        (* committed rows, in insertion order *)
  new : list instance;      (* db.add: pending inserts *)
  dirty : list instance;    (* persistent instances with changed attributes *)
  deleted : list Z          (* db.delete: keys marked for deletion *)
}.

(** A session opened on a store ([SessionLocal()]). *)
Definition open (rows : list Task) : Session :=
  {| store := rows; new := []; dirty := []; deleted := [] |}.

Inductive result (A : Type) :=
| Ok (a : A)
| Raise (e : exn).
Arguments Ok {A} a.
Arguments Raise {A} e.

Definition M (A : Type) : Type := Env -> Session -> result A * Session.

Definition ret {A} (a : A) : M A := fun _ s => (Ok a, s).

Definition bind {A B} (m : M A) (k : A -> M B) : M B :=
  fun env s =>
    match m env s with
    | (Ok a, s') => k a env s'
    | (Raise e, s') => (Raise e, s')
    end.

Definition raise {A} (e : exn) : M A := fun _ s => (Raise e, s).

(** [try: body  except Exception as e: handler(e)] *)
Definition try_except {A} (body : M A) (handler : exn -> M A) : M A :=
  fun env s =>
    match body env s with
    | (Ok a, s') => (Ok a, s')
    | (Raise e, s') => handler e env s'
    end.

(** [datetime.utcnow()] *)
Definition utcnow : M Z := fun env s => (Ok (now env), s).

(** A SELECT: it reads the committed rows (the session does not
    autoflush) and fails when the store does. *)
Definition execute {A} (q : list Task -> A) : M A :=
  fun env s =>
    match failure env with
    | AtQuery e => (Raise e, s)
    | _ => (Ok (q (store s)), s)
    end.

(** [db.add(o)] *)
Definition add (o : instance) : M unit :=
  fun _ s =>
    (Ok tt, {| store := store s; new := new s ++ [o]; dirty := dirty s;
               deleted := deleted s |}).

Definition same_instance (o o' : instance) : bool :=
  match o_id o, o_id o' with
  | Some k, Some k' => k =? k'
  | _, _ => false
  end.

(** Attribute assignment on an instance attached to the session: the
    instance changes and the session records it as dirty. *)
Definition setattr (o : instance) (a : Schemas.assignment) : M instance :=
  fun _ s =>
    let o' := Models.setattr o a in
    (Ok o', {| store := store s; new := new s;
               dirty := filter (fun x => negb (same_instance o' x)) (dirty s)
                        ++ [o'];
               deleted := deleted s |}).

(** [db.delete(o)] *)
Definition delete (o : instance) : M unit :=
  fun _ s =>
    (Ok tt, {| store := store s; new := new s; dirty := dirty s;
               deleted := deleted s ++
                          match o_id o with Some k => [k] | None => [] end |}).

(** [db.rollback()]: the pending unit of work is discarded. *)
Definition rollback : M unit := fun _ s => (Ok tt, open (store s)).

(** The row written for a persistent instance; the NOT NULL columns
    must hold a value. *)
Definition to_row (o : instance) : option Task :=
  match o_id o, o_title o, o_priority o, o_status o,
        o_created_at o, o_updated_at o with
  | Some k, Some t, Some p, Some st, Some c, Some u =>
      Some {| id := k; title := t; description := o_description o;
              priority := p; status := st; created_at := c;
              updated_at := u; due_date := o_due_date o |}
  | _, _, _, _, _, _ => None
  end.

Definition or_default {A} (v : option A) (d : A) : A :=
  match v with Some a => a | None => d end.

(** The row inserted for a pending instance: the store assigns the
    key, the column defaults fill [priority] and [status], and
    [func.now()] fills both timestamps. *)
Definition to_new_row (k : Z) (clock : Z) (o : instance) : option Task :=
  match o_title o with
  | Some t =>
      Some {| id := k; title := t; description := o_description o;
              priority := or_default (o_priority o) MEDIUM;
              status := or_default (o_status o) TODO;
              created_at := or_default (o_created_at o) clock;
              updated_at := or_default (o_updated_at o) clock;
              due_date := o_due_date o |}
  | None => None
  end.

Fixpoint flush_new (clock : Z) (pending : list instance) (rows : list Task)
  : option (list Task * list Z) :=
  match pending with
  | [] => Some (rows, [])
  | o :: pending' =>
      let k := next_id rows in
      match to_new_row k clock o with
      | None => None
      | Some t =>
          match flush_new clock pending' (rows ++ [t]) with
          | None => None
          | Some (rows', keys) => Some (rows', k :: keys)
          end
      end
  end.

(** UPDATE ... WHERE id = k *)
Definition replace_row (t : Task) (rows : list Task) : list Task :=
  map (fun r => if has_id (id t) r then t else r) rows.

Fixpoint flush_dirty (changed : list instance) (rows : list Task)
  : option (list Task) :=
  match changed with
  | [] => Some rows
  | o :: changed' =>
      match to_row o with
      | None => None
      | Some t => flush_dirty changed' (replace_row t rows)
      end
  end.

(** DELETE ... WHERE id = k *)
Definition delete_row (k : Z) (rows : list Task) : list Task :=
  filter (fun r => negb (has_id k r)) rows.

Definition flush_deleted (keys : list Z) (rows : list Task) : list Task :=
  fold_left (fun rs k => delete_row k rs) keys rows.

(** The flush of the whole unit of work; [None] when a constraint
    fails. *)
Definition flush (clock : Z) (s : Session) : option (list Task * list Z) :=
  match flush_new clock (new s) (store s) with
  | None => None
  | Some (rows1, keys) =>
      match flush_dirty (dirty s) rows1 with
      | None => None
      | Some rows2 => Some (flush_deleted (deleted s) rows2, keys)
      end
  end.

(** [db.commit()]: flush and commit.  On failure nothing reaches the
    store and the unit of work stays pending until it is rolled back.
    The result lists the keys given to the inserted instances. *)
Definition commit : M (list Z) :=
  fun env s =>
    match failure env with
    | AtCommit e => (Raise e, s)
    | _ =>
        match flush (now env) s with
        | None => (Raise IntegrityError, s)
        | Some (rows, keys) => (Ok keys, open rows)
        end
    end.

(** [db.refresh(o)]: the attributes are read back by primary key. *)
Definition refresh (k : option Z) : M Task :=
  fun env s =>
    match failure env with
    | AtRefresh e => (Raise e, s)
    | _ =>
        match k with
        | Some k' =>
            match lookup k' (store s) with
            | Some t => (Ok t, s)
            | None => (Raise InvalidRequestError, s)
            end
        | None => (Raise InvalidRequestError, s)
        end
    end.

(** [for x in xs: o = f(o, x)] *)
Fixpoint for_each {A B} (xs : list A) (f : B -> A -> M B) (b : B) : M B :=
  match xs with
  | [] => ret b
  | x :: xs' => bind (f b x) (for_each xs' f)
  end.

(** ORDER BY created_at DESC.  The code names no second key: rows with
    equal [created_at] are kept in the order of the table, which is how
    SQLite returns them. *)
Fixpoint insert_desc (t : Task) (rows : list Task) : list Task :=
  match rows with
  | [] => [t]
  | r :: rows' =>
      if created_at r <=? created_at t then t :: rows
      else r :: insert_desc t rows'
  end.

Definition order_by_created_at_desc (rows : list Task) : list Task :=
  fold_right insert_desc [] rows.

(** [query.offset(skip).limit(limit)] *)
Definition offset_limit (skip limit : nat) (rows : list Task) : list Task :=
  firstn limit (skipn skip rows).

End Orm.

(* ================================================================== *)
(** ** crud.py *)
(* ================================================================== *)

Module Crud.

Import Models Orm.

Notation "x <- m ;; k" := (bind m (fun x => k))
  (at level 61, m at next level, right associativity).
Notation "m ;;; k" := (bind m (fun _ => k))
  (at level 61, right associativity).

(** [db_task.id] after the commit: the instance added last took the
    last of the keys the flush handed out. *)
Definition key_of_added (keys : list Z) : option Z :=
  match rev keys with
  | k :: _ => Some k
  | [] => None
  end.

Definition create_task (task : Schemas.TaskCreate) : M Task :=
  try_except
    (let db_task :=
       Task_init (Some (Schemas.title task)) (Schemas.description task)
                 (Some (Schemas.priority task)) (Some (Schemas.status task))
                 (Schemas.due_date task) in
     add db_task ;;;
     keys <- commit ;;
     refresh (key_of_added keys))
    (fun e => rollback ;;; raise e).

Definition get_task_by_id (task_id : Z) : M (option Task) :=
  execute (fun rows => find (fun t => id t =? task_id) rows).

(** The filters shared by the listing and the count: a filter applies
    when its argument is not [None] (every member of the two
    enumerations is a non-empty string, hence truthy). *)
Definition apply_filters (status_ : option StatusEnum)
    (priority_ : option PriorityEnum) (query : list Task) : list Task :=
  let query :=
    match status_ with
    | Some st => filter (fun t => StatusEnum_eqb (status t) st) query
    | None => query
    end in
  match priority_ with
  | Some pr => filter (fun t => PriorityEnum_eqb (priority t) pr) query
  | None => query
  end.

Definition get_all_tasks (skip limit : nat) (status_ : option StatusEnum)
    (priority_ : option PriorityEnum) : M (list Task) :=
  execute (fun rows =>
    let query := apply_filters status_ priority_ rows in
    let query := order_by_created_at_desc query in
    offset_limit skip limit query).

Definition get_tasks_count (status_ : option StatusEnum)
    (priority_ : option PriorityEnum) : M nat :=
  count <- execute (fun rows =>
             List.length (apply_filters status_ priority_ rows)) ;;
  ret (match count with O => O | _ => count end).

Definition update_task (task_id : Z) (task_update : Schemas.TaskUpdate)
  : M (option Task) :=
  try_except
    (db_task <- get_task_by_id task_id ;;
     match db_task with
     | None => ret None
     | Some row =>
         let update_data := Schemas.model_dump_exclude_unset task_update in
         o <- for_each update_data setattr (load row) ;;
         t <- utcnow ;;
         o <- setattr o (Schemas.set_updated_at t) ;;
         commit ;;;
         r <- refresh (o_id o) ;;
         ret (Some r)
     end)
    (fun e => rollback ;;; raise e).

Definition delete_task (task_id : Z) : M bool :=
  try_except
    (db_task <- get_task_by_id task_id ;;
     match db_task with
     | None => ret false
     | Some row =>
         delete (load row) ;;;
         commit ;;;
         ret true
     end)
    (fun e => rollback ;;; raise e).

Definition get_tasks_by_status (status_ : StatusEnum) (skip limit : nat)
  : M (list Task) :=
  get_all_tasks skip limit (Some status_) None.

Definition get_tasks_by_priority (priority_ : PriorityEnum)
    (skip limit : nat) : M (list Task) :=
  get_all_tasks skip limit None (Some priority_).

(** SQL comparison with a nullable column: a NULL [due_date] makes
    the condition unknown and the row is not selected. *)
Definition due_before (clock : Z) (t : Task) : bool :=
  match due_date t with
  | Some d => d <? clock
  | None => false
  end.

Definition get_overdue_tasks : M (list Task) :=
  t <- utcnow ;;
  execute (fun rows =>
    filter (fun r => due_before t r
                     && negb (StatusEnum_eqb (status r) COMPLETED)
                     && negb (StatusEnum_eqb (status r) CANCELLED)) rows).

Definition mark_task_as_completed (task_id : Z) : M (option Task) :=
  let task_update := Schemas.TaskUpdate_status_only COMPLETED in
  update_task task_id task_update.

End Crud.

(* ================================================================== *)
(** ** schemas.py: the response schema *)
(* ================================================================== *)

Module Response.

Import Models.

(** [TaskResponse(TaskBase)]: the fields of [TaskBase], with its
    constraints and validators, and the generated columns. *)
Record TaskResponse := {
  r_title : str;
  r_description : option str;
  r_priority : PriorityEnum;
  r_status : StatusEnum;
  r_due_date : option Z;
  r_id : Z;
  r_created_at : Z;
  r_updated_at : Z
}.

(** An attribute read off an instance: it is always supplied, [None]
    being JSON's [null]. *)
Definition attribute {A} (v : option A) : Schemas.field A :=
  match v with
  | Some a => Schemas.Value a
  | None => Schemas.Null
  end.

(** [TaskResponse.model_validate(task)] with [from_attributes=True]:
    the enumerations and the generated columns of a row are always
    well typed, the title and the description go through the
    constraints and validators of [TaskBase]. *)
Definition model_validate (t : Task) : Schemas.validated TaskResponse :=
  let ti := Schemas.TaskBase_title (Schemas.Value (title t)) in
  let d := Schemas.TaskBase_description (attribute (description t)) in
  match ti, d with
  | inr ti', inr d' =>
      Schemas.Accepted
        {| r_title := ti'; r_description := d';
           r_priority := priority t; r_status := status t;
           r_due_date := due_date t; r_id := id t;
           r_created_at := created_at t; r_updated_at := updated_at t |}
  | _, _ =>
      Schemas.Rejected (Schemas.errors_of Schemas.f_title ti ++
                        Schemas.errors_of Schemas.f_description d)
  end.

(** A list of rows as [List[TaskResponse]] or as the [tasks] of a
    [TaskList]: every row must pass. *)
Fixpoint model_validate_all (rows : list Task)
  : Schemas.validated (list TaskResponse) :=
  match rows with
  | [] => Schemas.Accepted []
  | t :: rows' =>
      match model_validate t, model_validate_all rows' with
      | Schemas.Accepted r, Schemas.Accepted rs => Schemas.Accepted (r :: rs)
      | Schemas.Rejected e, Schemas.Accepted _ => Schemas.Rejected e
      | Schemas.Accepted _, Schemas.Rejected es => Schemas.Rejected es
      | Schemas.Rejected e, Schemas.Rejected es => Schemas.Rejected (e ++ es)
      end
  end.

End Response.

(* ================================================================== *)
(** ** routes.py *)
(* ================================================================== *)

Module Routes.

Import Models Orm.
Import Crud.

(** What a route hands back to the framework: a body with its status
    code, or a raised [HTTPException].  Any other exception stays a
    [Raise] of the session monad. *)
Inductive http (A : Type) :=
| Response (status_code : Z) (body : A)
| HTTPException (status_code : Z).
Arguments Response {A} status_code body.
Arguments HTTPException {A} status_code.

(** [response_model=TaskResponse] on a route: the task the function
    returns is validated into the response schema; a task the schema
    refuses raises [ResponseValidationError]. *)
Definition response_model (route : M (http Task))
  : M (http Response.TaskResponse) :=
  r <- route ;;
  match r with
  | Response status_code t =>
      match Response.model_validate t with
      | Schemas.Accepted o => ret (Response status_code o)
      | Schemas.Rejected _ => raise ResponseValidationError
      end
  | HTTPException status_code => ret (HTTPException status_code)
  end.

(** [response_model=List[TaskResponse]] *)
Definition response_model_list (route : M (http (list Task)))
  : M (http (list Response.TaskResponse)) :=
  r <- route ;;
  match r with
  | Response status_code ts =>
      match Response.model_validate_all ts with
      | Schemas.Accepted os => ret (Response status_code os)
      | Schemas.Rejected _ => raise ResponseValidationError
      end
  | HTTPException status_code => ret (HTTPException status_code)
  end.

Record TaskList := {
  tasks : list Response.TaskResponse;
  total : nat;
  page : Z;
  page_size : Z
}.

(** [TaskList(tasks=..., total=..., page=..., page_size=...)]: building
    the model validates every task; a refused task raises pydantic's
    [ValidationError] inside the route. *)
Definition TaskList_init (tasks_ : list Task) (total_ : nat)
    (page_ page_size_ : Z) : M TaskList :=
  match Response.model_validate_all tasks_ with
  | Schemas.Accepted os =>
      ret {| tasks := os; total := total_; page := page_;
             page_size := page_size_ |}
  | Schemas.Rejected _ => raise ValidationError
  end.

Definition create_task (body : Schemas.Payload)
  : M (http Response.TaskResponse) :=
  match Schemas.validate_TaskCreate body with
  | Schemas.Rejected _ => ret (HTTPException 422)
  | Schemas.Accepted task =>
      response_model
        (try_except
           (db_task <- Crud.create_task task ;;
            ret (Response 201 db_task))
           (fun _ => ret (HTTPException 500)))
  end.

(** [skip: int = Query(0, ge=0)], [limit: int = Query(20, ge=1, le=100)] *)
Definition query_params_ok (skip limit : Z) : bool :=
  (0 <=? skip) && (1 <=? limit) && (limit <=? 100).

Definition get_tasks (skip limit : Z) (status_ : option StatusEnum)
    (priority_ : option PriorityEnum) : M (http TaskList) :=
  if query_params_ok skip limit then
    tasks_ <- Crud.get_all_tasks (Z.to_nat skip) (Z.to_nat limit)
                                 status_ priority_ ;;
    total_ <- Crud.get_tasks_count status_ priority_ ;;
    task_list <- TaskList_init tasks_ total_ (skip / limit + 1) limit ;;
    ret (Response 200 task_list)
  else ret (HTTPException 422).

Definition get_task (task_id : Z) : M (http Response.TaskResponse) :=
  response_model
    (db_task <- Crud.get_task_by_id task_id ;;
     match db_task with
     | None => ret (HTTPException 404)
     | Some t => ret (Response 200 t)
     end).

Definition update_task (task_id : Z) (body : Schemas.Payload)
  : M (http Response.TaskResponse) :=
  match Schemas.validate_TaskUpdate body with
  | Schemas.Rejected _ => ret (HTTPException 422)
  | Schemas.Accepted task_update =>
      response_model
        (db_task <- Crud.update_task task_id task_update ;;
         match db_task with
         | None => ret (HTTPException 404)
         | Some t => ret (Response 200 t)
         end)
  end.

(** The body of a successful delete is a message naming the task
    ([response_model=MessageResponse]: no task is validated). *)
Definition delete_task (task_id : Z) : M (http Z) :=
  success <- Crud.delete_task task_id ;;
  if success then ret (Response 200 task_id)
  else ret (HTTPException 404).

Definition get_overdue_tasks : M (http (list Response.TaskResponse)) :=
  response_model_list
    (tasks_ <- Crud.get_overdue_tasks ;;
     ret (Response 200 tasks_)).

Definition mark_task_completed (task_id : Z)
  : M (http Response.TaskResponse) :=
  response_model
    (db_task <- Crud.mark_task_as_completed task_id ;;
     match db_task with
     | None => ret (HTTPException 404)
     | Some t => ret (Response 200 t)
     end).

(** [status: StatusEnum] is a path parameter: a value that names no
    member is refused before the route runs. *)
Definition get_tasks_by_status (status_ : str) (skip limit : Z)
  : M (http (list Response.TaskResponse)) :=
  match StatusEnum_of_value status_ with
  | None => ret (HTTPException 422)
  | Some st =>
      if query_params_ok skip limit then
        response_model_list
          (tasks_ <- Crud.get_tasks_by_status st (Z.to_nat skip)
                                              (Z.to_nat limit) ;;
           ret (Response 200 tasks_))
      else ret (HTTPException 422)
  end.

Definition get_tasks_by_priority (priority_ : str) (skip limit : Z)
  : M (http (list Response.TaskResponse)) :=
  match PriorityEnum_of_value priority_ with
  | None => ret (HTTPException 422)
  | Some pr =>
      if query_params_ok skip limit then
        response_model_list
          (tasks_ <- Crud.get_tasks_by_priority pr (Z.to_nat skip)
                                                (Z.to_nat limit) ;;
           ret (Response 200 tasks_))
      else ret (HTTPException 422)
  end.

(** The dictionary [get_stats_summary] returns. *)
Record ByStatus := {
  todo : nat; in_progress : nat; completed : nat; cancelled : nat
}.

Record ByPriority := {
  urgent : nat; high : nat; medium : nat; low : nat
}.

Record StatsSummary := {
  total_tasks : nat;
  by_status : ByStatus;
  by_priority : ByPriority;
  overdue_tasks : nat
}.

Definition get_stats_summary : M (http StatsSummary) :=
  total_ <- Crud.get_tasks_count None None ;;
  todo_ <- Crud.get_tasks_count (Some TODO) None ;;
  in_progress_ <- Crud.get_tasks_count (Some IN_PROGRESS) None ;;
  completed_ <- Crud.get_tasks_count (Some COMPLETED) None ;;
  cancelled_ <- Crud.get_tasks_count (Some CANCELLED) None ;;
  urgent_ <- Crud.get_tasks_count None (Some URGENT) ;;
  high_ <- Crud.get_tasks_count None (Some HIGH) ;;
  overdue_ <- Crud.get_overdue_tasks ;;
  medium_ <- Crud.get_tasks_count None (Some MEDIUM) ;;
  low_ <- Crud.get_tasks_count None (Some LOW) ;;
  ret (Response 200
         {| total_tasks := total_;
            by_status := {| todo := todo_; in_progress := in_progress_;
                            completed := completed_;
                            cancelled := cancelled_ |};
            by_priority := {| urgent := urgent_; high := high_;
                              medium := medium_; low := low_ |};
            overdue_tasks := List.length overdue_ |}).

End Routes.

(* ================================================================== *)
(** ** The service over time *)
(* ================================================================== *)

Module Service.

Import Models Orm.

(** The store together with the clock the operations read. *)
Record World := { db : list Task; clock : Z }.

Inductive request :=
| POST_tasks (body : Schemas.Payload)
| PUT_task (task_id : Z) (body : Schemas.Payload)
| DELETE_task (task_id : Z)
| PATCH_complete (task_id : Z).

(** One request: the time elapsed since the previous one, how the
    store behaves while it is served, and the request itself. *)
Record event := { elapsed : N; behaviour : fault; req : request }.

(** [get_db]: a session is opened for the request and closed after
    it; what was committed is what remains. *)
Definition with_db {A} (m : M A) (env : Env) (rows : list Task)
  : result A * list Task :=
  let (r, s) := m env (open rows) in (r, store s).

Definition serve (env : Env) (r : request) (rows : list Task) : list Task :=
  match r with
  | POST_tasks body => snd (with_db (Routes.create_task body) env rows)
  | PUT_task k body => snd (with_db (Routes.update_task k body) env rows)
  | DELETE_task k => snd (with_db (Routes.delete_task k) env rows)
  | PATCH_complete k => snd (with_db (Routes.mark_task_completed k) env rows)
  end.

Definition step (w : World) (ev : event) : World :=
  let t := clock w + Z.of_N (elapsed ev) in
  {| db := serve {| failure := behaviour ev; now := t |} (req ev) (db w);
     clock := t |}.

Definition run (evs : list event) (w : World) : World :=
  fold_left step evs w.

(** An empty table at time [t0]. *)
Definition initial (t0 : Z) : World := {| db := []; clock := t0 |}.

End Service.

(* ================================================================== *)
(** ** main.py: the exception handlers *)
(* ================================================================== *)

Module Main.

Import Models Orm.

(** The status code of a [JSONResponse]. *)
Definition http_exception_handler (status_code : Z) : Z := status_code.

Definition general_exception_handler (e : exn) : Z := 500.

(** The status the application answers with: the route's own, once
    its value has passed the response model, that of the
    [HTTPException] it raised, or the one the general handler gives to
    any other exception, the failure of the response model included. *)
Definition status_of {A} (r : result (Routes.http A)) : Z :=
  match r with
  | Ok (Routes.Response status_code _) => status_code
  | Ok (Routes.HTTPException status_code) =>
      http_exception_handler status_code
  | Raise e => general_exception_handler e
  end.

(** One request served by the application: the status answered and the
    table afterwards. *)
Definition app (env : Env) (r : Service.request) (rows : list Task)
  : Z * list Task :=
  match r with
  | Service.POST_tasks body =>
      let (res, rows') := Service.with_db (Routes.create_task body) env rows in
      (status_of res, rows')
  | Service.PUT_task k body =>
      let (res, rows') := Service.with_db (Routes.update_task k body) env rows in
      (status_of res, rows')
  | Service.DELETE_task k =>
      let (res, rows') := Service.with_db (Routes.delete_task k) env rows in
      (status_of res, rows')
  | Service.PATCH_complete k =>
      let (res, rows') :=
        Service.with_db (Routes.mark_task_completed k) env rows in
      (status_of res, rows')
  end.

End Main.

(* ================================================================== *)
(** ** Reference behaviour and sample data *)
(* ================================================================== *)

(** What the operations are expected to do, written directly on rows,
    against which the code above is compared. *)
Module Expected.

Import Models Orm.
Import Schemas.

(** The store answers the SELECTs of the operation. *)
Definition answers (env : Env) : Prop :=
  match failure env with AtQuery _ => False | _ => True end.

(** The store accepts the commit (the constraints may still fail). *)
Definition commits (env : Env) : Prop :=
  match failure env with AtCommit _ => False | _ => True end.

(** The row a create inserts. *)
Definition inserted (task : TaskCreate) (clock : Z) (rows : list Task)
  : Task :=
  {| id := next_id rows; Models.title := Schemas.title task;
     Models.description := Schemas.description task;
     Models.priority := Schemas.priority task; Models.status := Schemas.status task;
     created_at := clock; updated_at := clock;
     Models.due_date := Schemas.due_date task |}.

(** A supplied field replaces the old value, an omitted one keeps it. *)
Definition patch_field {A} (f : field A) (old : option A) : option A :=
  match f with
  | Absent => old
  | Null => None
  | Value a => Some a
  end.

(** The row after a partial update at time [clock]; there is none
    when the payload puts [null] in a NOT NULL column. *)
Definition patched (u : TaskUpdate) (clock : Z) (row : Task) : option Task :=
  match patch_field (u_title u) (Some (Models.title row)),
        patch_field (u_priority u) (Some (Models.priority row)),
        patch_field (u_status u) (Some (Models.status row)) with
  | Some t, Some p, Some st =>
      Some {| id := id row; Models.title := t;
              Models.description :=
                patch_field (u_description u) (Models.description row);
              Models.priority := p; Models.status := st;
              created_at := created_at row; updated_at := clock;
              Models.due_date := patch_field (u_due_date u) (Models.due_date row) |}
  | _, _, _ => None
  end.

(** The payload puts [null] in one of the NOT NULL columns. *)
Definition nulls_required (u : TaskUpdate) : bool :=
  match u_title u, u_priority u, u_status u with
  | Null, _, _ | _, Null, _ | _, _, Null => true
  | _, _, _ => false
  end.

(** Every field the payload omits has its old value. *)
Definition omitted_unchanged (u : TaskUpdate) (old new_ : Task) : Prop :=
  id new_ = id old /\ created_at new_ = created_at old /\
  (u_title u = Absent -> Models.title new_ = Models.title old) /\
  (u_description u = Absent ->
     Models.description new_ = Models.description old) /\
  (u_priority u = Absent -> Models.priority new_ = Models.priority old) /\
  (u_status u = Absent -> Models.status new_ = Models.status old) /\
  (u_due_date u = Absent -> Models.due_date new_ = Models.due_date old).

(** Every field the payload supplies has the supplied value. *)
Definition supplied_applied (u : TaskUpdate) (new_ : Task) : Prop :=
  (forall s, u_title u = Value s -> Models.title new_ = s) /\
  (forall s, u_description u = Value s ->
             Models.description new_ = Some s) /\
  (u_description u = Null -> Models.description new_ = None) /\
  (forall p, u_priority u = Value p -> Models.priority new_ = p) /\
  (forall st, u_status u = Value st -> Models.status new_ = st) /\
  (forall d, u_due_date u = Value d -> Models.due_date new_ = Some d) /\
  (u_due_date u = Null -> Models.due_date new_ = None).

(** Mark-completed in the words of the specification: the status
    becomes completed, [updated_at] is refreshed, nothing else moves. *)
Definition completed (clock : Z) (row : Task) : Task :=
  {| id := id row; Models.title := Models.title row;
     Models.description := Models.description row;
     Models.priority := Models.priority row; Models.status := COMPLETED;
     created_at := created_at row; updated_at := clock;
     Models.due_date := Models.due_date row |}.

(** Overdue in the words of the specification. *)
Definition overdue (clock : Z) (t : Task) : Prop :=
  (exists d, Models.due_date t = Some d /\ d < clock) /\
  Models.status t <> COMPLETED /\ Models.status t <> CANCELLED.

(** The update claim read literally: whatever the payload, the update
    of an existing task succeeds, applies what was supplied and
    refreshes [updated_at]. *)
Definition update_applies_every_payload : Prop :=
  forall clock rows task_id u row,
    lookup task_id rows = Some row ->
    exists row',
      Crud.update_task task_id u {| failure := NoFault; now := clock |}
                       (open rows)
        = (Ok (Some row'), open (replace_row row' rows)) /\
      updated_at row' = clock /\
      omitted_unchanged u row row' /\ supplied_applied u row'.

(** The timestamp invariant: no row was updated before it was
    created, nor after the present. *)
Definition well_timed (w : Service.World) : Prop :=
  forall t, In t (Service.db w) ->
            created_at t <= updated_at t <= Service.clock w.

(** The failure claim read literally, for a create: whatever is
    raised, the store is as it was. *)
Definition every_failure_leaves_the_store : Prop :=
  forall env task rows e s',
    Crud.create_task task env (open rows) = (Raise e, s') ->
    store s' = rows.


(** The title invariant: no stored title is blank. *)
Definition titles_visible (rows : list Task) : Prop :=
  forall t, In t rows -> all_space (Models.title t) = false.

End Expected.

(** The terms in which the further properties are stated. *)
Module Terms.

Import Models Orm.
Import Schemas.

(** A title a create payload may carry. *)
Definition title_ok (f : field str) : Prop :=
  exists s, f = Value s /\ 3 <= len s <= 200 /\ all_space s = false.

(** A title an update payload may carry. *)
Definition update_title_ok (f : field str) : Prop :=
  match f with
  | Value s => 3 <= len s <= 200
  | _ => True
  end.

Definition description_ok (f : field str) : Prop :=
  match f with
  | Value d => len d <= 1000
  | _ => True
  end.

Definition priority_ok (f : field str) : Prop :=
  match f with
  | Absent => True
  | Null => False
  | Value v => exists p, v = PriorityEnum_value p
  end.

Definition status_ok (f : field str) : Prop :=
  match f with
  | Absent => True
  | Null => False
  | Value v => exists st, v = StatusEnum_value st
  end.

Definition update_priority_ok (f : field str) : Prop :=
  match f with
  | Value v => exists p, v = PriorityEnum_value p
  | _ => True
  end.

Definition update_status_ok (f : field str) : Prop :=
  match f with
  | Value v => exists st, v = StatusEnum_value st
  | _ => True
  end.

(** The enumeration field of an update after validation. *)
Definition parsed {A} (of_value : str -> option A) (f : field str)
  : field A :=
  match f with
  | Absent => Absent
  | Null => Null
  | Value v =>
      match of_value v with
      | Some a => Value a
      | None => Absent
      end
  end.

(** A due date a payload may carry. *)
Definition due_date_ok (f : field raw_datetime) : Prop :=
  match f with
  | Value (Unparsable _) => False
  | _ => True
  end.

(** The due date as a payload carries it. *)
Definition as_supplied (f : field Z) : field raw_datetime :=
  match f with
  | Absent => Absent
  | Null => Null
  | Value d => Value (Instant d)
  end.

(** Every row passes the response schema, with these results. *)
Definition all_pass (rows : list Task) (os : list Response.TaskResponse)
  : Prop :=
  Forall2 (fun t o => Response.model_validate t = Accepted o) rows os.

(** Some row is refused by the response schema. *)
Definition some_refused (rows : list Task) : Prop :=
  exists t, In t rows /\ forall o, Response.model_validate t <> Accepted o.

(** No white space at either end. *)
Definition trimmed (s : str) : Prop :=
  match s with
  | [] => True
  | c :: _ => isspace c = false
  end /\
  match rev s with
  | [] => True
  | c :: _ => isspace c = false
  end.

(** A row passes the filters of a listing. *)
Definition matches (status_ : option StatusEnum)
    (priority_ : option PriorityEnum) (t : Task) : Prop :=
  match status_ with Some st => Models.status t = st | None => True end /\
  match priority_ with Some pr => Models.priority t = pr | None => True end.

(** Newest first. *)
Definition newest_first (l : list Task) : Prop :=
  StronglySorted (fun a b => created_at b <= created_at a) l.

(** No two rows share a key, and every key is positive. *)
Definition keys_sound (rows : list Task) : Prop :=
  NoDup (map id rows) /\ forall t, In t rows -> 1 <= id t.

(** The stored text fits the columns [String(200)] and [String(1000)]. *)
Definition fits_columns (rows : list Task) : Prop :=
  forall t, In t rows ->
    1 <= len (Models.title t) <= 200 /\
    match Models.description t with
    | Some d => len d <= 1000
    | None => True
    end.

Definition count_status (st : StatusEnum) (rows : list Task) : nat :=
  List.length (filter (fun t => StatusEnum_eqb (Models.status t) st) rows).

Definition count_priority (pr : PriorityEnum) (rows : list Task) : nat :=
  List.length (filter (fun t => PriorityEnum_eqb (Models.priority t) pr) rows).

End Terms.

Module Sample.

Import Models Orm Service.
Import Schemas.

Definition only_title (t : field str) : Payload :=
  {| p_title := t; p_description := Absent; p_priority := Absent;
     p_status := Absent; p_due_date := Absent |}.

Definition padded_title : str := of_string " abc ".
Definition blank_title : str := of_string "   ".

Definition quiet (elapsed_ : N) (r : request) : event :=
  {| elapsed := elapsed_; behaviour := NoFault; req := r |}.

(** A task created at time 5. *)
Definition one_task : list Task :=
  db (run [quiet 5 (POST_tasks (only_title (Value (of_string "abc"))))]
          (initial 0)).

Definition row1 : Task :=
  {| id := 1; Models.title := of_string "abc"; Models.description := None;
     Models.priority := MEDIUM; Models.status := TODO;
     created_at := 5; updated_at := 5; Models.due_date := Some 8 |}.

Definition row2 : Task :=
  {| id := 2; Models.title := of_string "def";
     Models.description := Some (of_string "notes");
     Models.priority := HIGH; Models.status := COMPLETED;
     created_at := 6; updated_at := 7; Models.due_date := None |}.

Definition board : list Task := [row1; row2].

Definition calm (clock : Z) : Env := {| failure := NoFault; now := clock |}.

Definition commit_fails (clock : Z) : Env :=
  {| failure := AtCommit (OperationalError 1); now := clock |}.

Definition status_only (st : StatusEnum) : TaskUpdate :=
  TaskUpdate_status_only st.

Definition new_task : TaskCreate :=
  {| Schemas.title := of_string "ghi"; Schemas.description := None;
     Schemas.priority := LOW; Schemas.status := TODO;
     Schemas.due_date := None |}.

(** A task is created, then its title is replaced by three spaces. *)
Definition blanking : list event :=
  [ quiet 5 (POST_tasks (only_title (Value (of_string "abc"))));
    quiet 5 (PUT_task 1 (only_title (Value blank_title))) ].

Definition null_title : TaskUpdate :=
  {| u_title := Null; u_description := Absent; u_priority := Absent;
     u_status := Absent; u_due_date := Absent |}.

Definition full_payload : Payload :=
  {| p_title := Value (of_string "  Write tests ");
     p_description := Value (of_string " pytest ");
     p_priority := Value (of_string "high");
     p_status := Absent; p_due_date := Value (Instant 20) |}.

Definition renaming : Payload :=
  only_title (Value (of_string "Renamed")).

End Sample.

Import Sample.

(* ================================================================== *)
(** * Properties *)
(* ================================================================== *)

(** ** Strings and the validation schemas *)

Section StripFacts.

Lemma lstrip_nil_iff (s : str) : lstrip s = [] <-> all_space s = true.
Proof.
  unfold all_space.
  induction s as [|c s IH]; simpl; [tauto|].
  destruct (isspace c); simpl; [exact IH|].
  split; discriminate.
Qed.

Lemma all_space_rev (s : str) : all_space (rev s) = all_space s.
Proof.
  unfold all_space.
  induction s as [|c s IH]; simpl; [reflexivity|].
  rewrite forallb_app, IH; simpl.
  rewrite andb_true_r. apply andb_comm.
Qed.

Lemma rstrip_nil_iff (s : str) : rstrip s = [] <-> all_space s = true.
Proof.
  unfold rstrip. rewrite <- all_space_rev, <- lstrip_nil_iff.
  split; intros H.
  - apply (f_equal (@rev N)) in H. rewrite rev_involutive in H. exact H.
  - rewrite H. reflexivity.
Qed.

(** What [lstrip] leaves is empty or starts with a visible character. *)
Lemma lstrip_all_space (s : str) :
  all_space (lstrip s) = true -> lstrip s = [].
Proof.
  induction s as [|c s IH]; simpl; [reflexivity|].
  destruct (isspace c) eqn:E; [exact IH|].
  unfold all_space; simpl. rewrite E. discriminate.
Qed.

Lemma strip_nil_iff (s : str) : strip s = [] <-> all_space s = true.
Proof.
  unfold strip. rewrite rstrip_nil_iff. split; intros H.
  - apply lstrip_nil_iff. apply lstrip_all_space. exact H.
  - apply lstrip_nil_iff in H. rewrite H. reflexivity.
Qed.

(** A stripped string is blank only when it is empty. *)
Lemma strip_blank (s : str) : all_space (strip s) = true -> strip s = [].
Proof.
  unfold strip, rstrip. rewrite all_space_rev. intros H.
  apply lstrip_all_space in H. rewrite H. reflexivity.
Qed.

Lemma truthy_strip (s : str) : truthy (strip s) = negb (all_space s).
Proof.
  destruct (all_space s) eqn:E.
  - apply strip_nil_iff in E. rewrite E. reflexivity.
  - destruct (strip s) eqn:S; [|reflexivity].
    apply strip_nil_iff in S. congruence.
Qed.

End StripFacts.

Section CreateSchema.

Import Schemas.

(** The title of a create payload, case by case: the length bounds
    are checked on the value as supplied, a title of white space only
    is refused, and what is kept is the stripped title. *)
Lemma TaskBase_title_spec (s : str) :
  TaskBase_title (Value s) =
    if len s <? 3 then inl string_too_short
    else if 200 <? len s then inl string_too_long
    else if all_space s then inl value_error
    else inr (strip s).
Proof.
  unfold TaskBase_title, check_length, and_then, validate_title.
  destruct (len s <? 3) eqn:E3; [reflexivity|].
  destruct (200 <? len s); [reflexivity|].
  rewrite truthy_strip, negb_involutive.
  destruct s as [|c s]; [discriminate E3|]. simpl truthy. simpl negb.
  rewrite orb_false_l. reflexivity.
Qed.

Lemma TaskBase_description_spec (s : str) :
  TaskBase_description (Value s) =
    if 1000 <? len s then inl string_too_long else inr (Some (strip s)).
Proof.
  unfold TaskBase_description, check_length, and_then, validate_description.
  replace (len s <? 0) with false
    by (symmetry; apply Z.ltb_ge; unfold len; lia).
  destruct (1000 <? len s); [reflexivity|].
  destruct s; reflexivity.
Qed.

(** An accepted create payload carries the stripped title, which is
    not blank, and the stripped description. *)
Lemma validate_TaskCreate_accepted (p : Payload) (task : TaskCreate) :
  validate_TaskCreate p = Accepted task ->
  exists s, p_title p = Value s /\ 3 <= len s <= 200 /\
            all_space s = false /\ title task = strip s /\
            all_space (title task) = false /\
            match p_description p with
            | Value d => description task = Some (strip d)
            | _ => description task = None
            end.
Proof.
  unfold validate_TaskCreate. intros H.
  destruct (p_title p) as [| |s] eqn:Et;
    try (simpl in H;
         destruct (TaskBase_description _), (TaskBase_priority _),
           (TaskBase_status _), (TaskBase_due_date _); discriminate H).
  rewrite TaskBase_title_spec in H.
  destruct (len s <? 3) eqn:E3;
    [destruct (TaskBase_description _), (TaskBase_priority _),
           (TaskBase_status _), (TaskBase_due_date _); discriminate H|].
  destruct (200 <? len s) eqn:E200;
    [destruct (TaskBase_description _), (TaskBase_priority _),
           (TaskBase_status _), (TaskBase_due_date _); discriminate H|].
  destruct (all_space s) eqn:Es;
    [destruct (TaskBase_description _), (TaskBase_priority _),
           (TaskBase_status _), (TaskBase_due_date _); discriminate H|].
  assert (Hd : match p_description p with
               | Value d => TaskBase_description (p_description p)
                            = inr (Some (strip d))
                              \/ exists e, TaskBase_description (p_description p) = inl e
               | _ => TaskBase_description (p_description p) = inr None
               end).
  { destruct (p_description p) as [| |d]; try reflexivity.
    rewrite TaskBase_description_spec.
    destruct (1000 <? len d); [right; eexists|left]; reflexivity. }
  destruct (TaskBase_description (p_description p)) as [e|d'] eqn:Ed;
    [destruct (TaskBase_priority _), (TaskBase_status _),
       (TaskBase_due_date _); discriminate H|].
  destruct (TaskBase_priority _); [destruct (TaskBase_status _),
       (TaskBase_due_date _); discriminate H|].
  destruct (TaskBase_status _); [destruct (TaskBase_due_date _);
                                 discriminate H|].
  destruct (TaskBase_due_date _); [discriminate H|].
  injection H as <-. simpl.
  exists s. apply Z.ltb_ge in E3. apply Z.ltb_ge in E200.
  repeat split; try lia; try assumption.
  - destruct (all_space (strip s)) eqn:Ess; [|reflexivity].
    exfalso. apply strip_blank in Ess.
    apply strip_nil_iff in Ess. congruence.
  - destruct (p_description p) as [| |d]; try congruence.
    destruct Hd as [Hd|[e Hd]]; congruence.
Qed.

End CreateSchema.

(** C1.  The update schema does not do what the create schema does: an
    update payload whose title has surrounding white space is accepted
    with the title kept as supplied (it is not trimmed), and a title
    made of white space only is accepted, while the create schema trims
    the first and rejects the second. *)
Theorem TaskUpdate_title_neither_trimmed_nor_checked :
  Schemas.validate_TaskUpdate (only_title (Schemas.Value padded_title))
    = Schemas.Accepted
        {| Schemas.u_title := Schemas.Value padded_title;
           Schemas.u_description := Schemas.Absent;
           Schemas.u_priority := Schemas.Absent;
           Schemas.u_status := Schemas.Absent;
           Schemas.u_due_date := Schemas.Absent |}
  /\ strip padded_title <> padded_title
  /\ Schemas.validate_TaskUpdate (only_title (Schemas.Value blank_title))
    = Schemas.Accepted
        {| Schemas.u_title := Schemas.Value blank_title;
           Schemas.u_description := Schemas.Absent;
           Schemas.u_priority := Schemas.Absent;
           Schemas.u_status := Schemas.Absent;
           Schemas.u_due_date := Schemas.Absent |}
  /\ strip blank_title = []
  /\ Schemas.validate_TaskCreate (only_title (Schemas.Value padded_title))
    = Schemas.Accepted
        {| Schemas.title := of_string "abc";
           Schemas.description := None;
           Schemas.priority := MEDIUM;
           Schemas.status := TODO;
           Schemas.due_date := None |}
  /\ Schemas.validate_TaskCreate (only_title (Schemas.Value blank_title))
    = Schemas.Rejected
        [ {| Schemas.loc := Schemas.f_title;
             Schemas.type_ := Schemas.value_error |} ].
Proof.
  repeat split; try reflexivity.
  vm_compute. discriminate.
Qed.

(** ** The table *)

Section TableFacts.

Import Models Orm.

Lemma id_below_next_id (rows : list Task) (r : Task) :
  In r rows -> id r < next_id rows.
Proof.
  unfold next_id. induction rows as [|x rows IH]; cbn [fold_right In];
    [tauto|].
  intros [->|H]; [lia|]. specialize (IH H). lia.
Qed.

Lemma lookup_none_fresh (rows : list Task) (k : Z) :
  (forall r, In r rows -> id r < k) -> lookup k rows = None.
Proof.
  unfold lookup, has_id.
  induction rows as [|x rows IH]; simpl; intros H; [reflexivity|].
  destruct (id x =? k) eqn:E.
  - apply Z.eqb_eq in E. specialize (H x (or_introl eq_refl)). lia.
  - apply IH. intros r Hr. apply H. right. exact Hr.
Qed.

Lemma lookup_app (rows rows' : list Task) (k : Z) :
  lookup k (rows ++ rows') =
    match lookup k rows with
    | Some t => Some t
    | None => lookup k rows'
    end.
Proof.
  unfold lookup. induction rows as [|x rows IH]; simpl; [reflexivity|].
  destruct (has_id k x); [reflexivity|exact IH].
Qed.

(** The row just inserted is the one found under the new key. *)
Lemma lookup_inserted (rows : list Task) (t : Task) :
  id t = next_id rows -> lookup (next_id rows) (rows ++ [t]) = Some t.
Proof.
  intros H. rewrite lookup_app.
  rewrite (lookup_none_fresh rows (next_id rows) (id_below_next_id rows)).
  unfold lookup, has_id; simpl. rewrite H, Z.eqb_refl. reflexivity.
Qed.

Lemma lookup_some (rows : list Task) (k : Z) (t : Task) :
  lookup k rows = Some t -> In t rows /\ id t = k.
Proof.
  unfold lookup. intros H. apply find_some in H.
  destruct H as [H1 H2]. apply Z.eqb_eq in H2. tauto.
Qed.

Lemma lookup_none (rows : list Task) (k : Z) :
  lookup k rows = None <-> (forall t, In t rows -> id t <> k).
Proof.
  unfold lookup. split.
  - intros H t Ht E.
    apply (find_none _ _ H) in Ht. unfold has_id in Ht.
    apply Z.eqb_neq in Ht. tauto.
  - induction rows as [|x rows IH]; simpl; intros H; [reflexivity|].
    unfold has_id at 1. destruct (id x =? k) eqn:E.
    + apply Z.eqb_eq in E. exfalso. apply (H x); tauto.
    + apply IH. intros t Ht. apply H. tauto.
Qed.

Lemma lookup_replace_row (rows : list Task) (row t : Task) :
  lookup (id t) rows = Some row -> lookup (id t) (replace_row t rows) = Some t.
Proof.
  unfold lookup, replace_row.
  induction rows as [|x rows IH]; simpl; [discriminate|].
  destruct (has_id (id t) x) eqn:E.
  - intros _. unfold has_id. rewrite Z.eqb_refl. reflexivity.
  - rewrite E. exact IH.
Qed.

Lemma lookup_delete_row (rows : list Task) (k : Z) :
  lookup k (delete_row k rows) = None.
Proof.
  apply lookup_none. intros t Ht E. unfold delete_row in Ht.
  apply filter_In in Ht. destruct Ht as [_ Ht].
  unfold has_id in Ht. rewrite E, Z.eqb_refl in Ht. discriminate.
Qed.

Lemma in_replace_row (rows : list Task) (t r : Task) :
  In r (replace_row t rows) -> r = t \/ In r rows.
Proof.
  unfold replace_row. intros H. apply in_map_iff in H.
  destruct H as [x [Hx Hin]].
  destruct (has_id (id t) x); subst; tauto.
Qed.

Lemma insert_desc_length (t : Task) (rows : list Task) :
  List.length (insert_desc t rows) = S (List.length rows).
Proof.
  induction rows as [|r rows IH]; simpl; [reflexivity|].
  destruct (created_at r <=? created_at t); simpl; congruence.
Qed.

Lemma order_by_length (rows : list Task) :
  List.length (order_by_created_at_desc rows) = List.length rows.
Proof.
  unfold order_by_created_at_desc.
  induction rows as [|r rows IH]; simpl; [reflexivity|].
  rewrite insert_desc_length, IH. reflexivity.
Qed.

End TableFacts.

(** ** What each operation does to a session just opened *)

Section Runs.

Import Models Orm Crud Expected.

Ltac step_monad :=
  unfold try_except, bind, ret, raise, rollback, add, delete, commit,
    refresh, utcnow, execute, get_task_by_id, flush;
  cbn -[next_id lookup to_row replace_row delete_row Z.add].

(** [create_task], outcome by outcome. *)
Lemma create_task_run (task : Schemas.TaskCreate) (env : Env)
    (rows : list Task) :
  create_task task env (open rows) =
    let t := inserted task (now env) rows in
    match failure env with
    | AtCommit e => (Raise e, open rows)
    | AtRefresh e => (Raise e, open (rows ++ [t]))
    | _ => (Ok t, open (rows ++ [t]))
    end.
Proof.
  unfold create_task. step_monad.
  fold (inserted task (now env) rows).
  destruct (failure env) eqn:F; step_monad; try reflexivity;
    rewrite lookup_inserted by reflexivity; reflexivity.
Qed.

Lemma setattr_keeps_id (o : instance) (a : Schemas.assignment) :
  o_id (Models.setattr o a) = o_id o.
Proof. destruct a; reflexivity. Qed.

Lemma same_instance_refl (o o' : instance) (k : Z) :
  o_id o = Some k -> o_id o' = Some k -> same_instance o o' = true.
Proof.
  unfold same_instance. intros -> ->. apply Z.eqb_refl.
Qed.

(** The loop over [update_data]: the session ends up tracking the
    instance with all the assignments made, and nothing else. *)
Lemma for_each_setattr (l : list Schemas.assignment) :
  forall (o : instance) (env : Env) (rows : list Task) (k : Z)
         (d : list instance),
    o_id o = Some k -> d = [] \/ d = [o] ->
    for_each l setattr o env
             {| store := rows; new := []; dirty := d; deleted := [] |}
    = (Ok (fold_left Models.setattr l o),
       {| store := rows; new := [];
          dirty := match l with
                   | [] => d
                   | _ => [fold_left Models.setattr l o]
                   end;
          deleted := [] |}).
Proof.
  induction l as [|a l IH]; intros o env rows k d Hk Hd; [reflexivity|].
  cbn [for_each fold_left]. unfold bind, setattr at 1. cbn [store new dirty deleted].
  assert (Hf : filter (fun x => negb (same_instance (Models.setattr o a) x)) d
               = []).
  { destruct Hd as [->| ->]; [reflexivity|]. cbn [filter].
    rewrite (same_instance_refl _ _ k); [reflexivity| |exact Hk].
    rewrite setattr_keeps_id. exact Hk. }
  rewrite Hf. cbn [app].
  rewrite (IH (Models.setattr o a) env rows k [Models.setattr o a]);
    [|rewrite setattr_keeps_id; exact Hk|right; reflexivity].
  destruct l; reflexivity.
Qed.

(** The row written back is the old row patched by the payload. *)
Lemma to_row_patched (u : Schemas.TaskUpdate) (clock : Z) (row : Task) :
  to_row (Models.setattr
            (fold_left Models.setattr
                       (Schemas.model_dump_exclude_unset u) (load row))
            (Schemas.set_updated_at clock))
  = patched u clock row.
Proof.
  destruct u as [t d p st du].
  destruct t, d, p, st, du; reflexivity.
Qed.

Lemma patched_id (u : Schemas.TaskUpdate) (clock : Z) (row t : Task) :
  patched u clock row = Some t -> id t = id row.
Proof.
  unfold patched. destruct u as [t0 d p st du]; cbn.
  destruct t0, p, st; cbn; try discriminate;
    intros H; injection H as <-; reflexivity.
Qed.

(** [update_task], outcome by outcome. *)
Lemma update_task_run (u : Schemas.TaskUpdate) (env : Env)
    (rows : list Task) (k : Z) :
  update_task k u env (open rows) =
    match failure env with
    | AtQuery e => (Raise e, open rows)
    | f =>
        match lookup k rows with
        | None => (Ok None, open rows)
        | Some row =>
            match f with
            | AtCommit e => (Raise e, open rows)
            | _ =>
                match patched u (now env) row with
                | None => (Raise IntegrityError, open rows)
                | Some t =>
                    match f with
                    | AtRefresh e => (Raise e, open (replace_row t rows))
                    | _ => (Ok (Some t), open (replace_row t rows))
                    end
                end
            end
        end
    end.
Proof.
  unfold update_task, try_except. unfold bind at 1.
  unfold get_task_by_id, execute. cbn [store open].
  change (find (fun t : Task => id t =? k) rows) with (lookup k rows).
  assert (Hbody : forall row, lookup k rows = Some row ->
    (o <- for_each (Schemas.model_dump_exclude_unset u) setattr (load row) ;;
     t <- utcnow ;;
     o0 <- setattr o (Schemas.set_updated_at t) ;;
     commit ;;; r <- refresh (o_id o0) ;; ret (Some r)) env (open rows)
    = match failure env with
      | AtCommit e =>
          (Raise e,
           {| store := rows; new := [];
              dirty := [Models.setattr
                          (fold_left Models.setattr
                             (Schemas.model_dump_exclude_unset u) (load row))
                          (Schemas.set_updated_at (now env))];
              deleted := [] |})
      | f =>
          match patched u (now env) row with
          | None =>
              (Raise IntegrityError,
               {| store := rows; new := [];
                  dirty := [Models.setattr
                              (fold_left Models.setattr
                                 (Schemas.model_dump_exclude_unset u)
                                 (load row))
                              (Schemas.set_updated_at (now env))];
                  deleted := [] |})
          | Some t =>
              match f with
              | AtRefresh e => (Raise e, open (replace_row t rows))
              | _ => (Ok (Some t), open (replace_row t rows))
              end
          end
      end).
  { intros row Hrow.
    unfold bind at 1. unfold open.
    rewrite (for_each_setattr _ (load row) env rows (id row) []);
      [|reflexivity|left; reflexivity].
    unfold bind at 1. unfold utcnow. unfold bind at 1. unfold setattr.
    cbn [store new dirty deleted].
    set (o1 := fold_left Models.setattr
                 (Schemas.model_dump_exclude_unset u) (load row)).
    set (o2 := Models.setattr o1 (Schemas.set_updated_at (now env))).
    assert (Hid1 : o_id o1 = Some (id row)).
    { unfold o1. clear. generalize (Schemas.model_dump_exclude_unset u).
      intros l. change (Some (id row)) with (o_id (load row)).
      generalize (load row). induction l as [|a l IH]; intros o;
        [reflexivity|].
      cbn [fold_left]. rewrite IH. apply setattr_keeps_id. }
    assert (Hid2 : o_id o2 = Some (id row)) by exact Hid1.
    assert (Hf : filter (fun x => negb (same_instance o2 x))
                   match Schemas.model_dump_exclude_unset u with
                   | [] => []
                   | _ :: _ => [o1]
                   end = []).
    { destruct (Schemas.model_dump_exclude_unset u); [reflexivity|].
      cbn [filter].
      rewrite (same_instance_refl o2 o1 (id row) Hid2 Hid1). reflexivity. }
    rewrite Hf. cbn [app].
    unfold bind, commit, flush, refresh, ret.
    cbn [store new dirty deleted failure now flush_new flush_dirty
         flush_deleted fold_left].
    assert (Hrow2 : to_row o2 = patched u (now env) row)
      by apply to_row_patched.
    rewrite Hrow2, Hid2.
    destruct (lookup_some _ _ _ Hrow) as [_ Hk].
    destruct (failure env) eqn:F; try reflexivity;
      destruct (patched u (now env) row) as [t|] eqn:P; try reflexivity;
      cbn [open store]; rewrite ?F;
      rewrite <- (patched_id _ _ _ _ P);
      rewrite (lookup_replace_row rows row t)
        by (rewrite (patched_id _ _ _ _ P), Hk; exact Hrow);
      reflexivity. }
  destruct (failure env) eqn:F;
    try (unfold rollback, raise, bind; reflexivity);
    (destruct (lookup k rows) as [row|] eqn:L; [|reflexivity];
     rewrite (Hbody row eq_refl);
     try (unfold rollback, raise, bind; reflexivity);
     destruct (patched u (now env) row); reflexivity).
Qed.

(** [delete_task], outcome by outcome. *)
Lemma delete_task_run (env : Env) (rows : list Task) (k : Z) :
  delete_task k env (open rows) =
    match failure env with
    | AtQuery e => (Raise e, open rows)
    | f =>
        match lookup k rows with
        | None => (Ok false, open rows)
        | Some row =>
            match f with
            | AtCommit e => (Raise e, open rows)
            | _ => (Ok true, open (delete_row k rows))
            end
        end
    end.
Proof.
  unfold delete_task, try_except. unfold bind at 1.
  unfold get_task_by_id, execute. cbn [store open].
  change (find (fun t : Task => id t =? k) rows) with (lookup k rows).
  destruct (failure env) eqn:F;
    try (unfold rollback, raise, bind; reflexivity);
    (destruct (lookup k rows) as [row|] eqn:L; [|reflexivity];
     destruct (lookup_some _ _ _ L) as [_ Hk];
     step_monad; rewrite F; step_monad; rewrite ?Hk; reflexivity).
Qed.

(** The reads answer from the committed rows and leave the session
    as it is. *)
Lemma get_task_by_id_run (env : Env) (s : Session) (k : Z) :
  answers env -> get_task_by_id k env s = (Ok (lookup k (store s)), s).
Proof.
  unfold answers, get_task_by_id, execute.
  destruct (failure env); intros H; try reflexivity. destruct H.
Qed.

End Runs.

(** ** Reading: count, listing, overdue tasks, pagination *)

Section Reads.

Import Models Orm Expected.

Lemma overdue_filter (clock : Z) (t : Task) :
  Crud.due_before clock t
  && negb (StatusEnum_eqb (status t) COMPLETED)
  && negb (StatusEnum_eqb (status t) CANCELLED) = true
  <-> overdue clock t.
Proof.
  unfold overdue, Crud.due_before.
  rewrite !andb_true_iff, !negb_true_iff. split.
  - intros [[Hd Hc] Hx]. repeat split.
    + destruct (due_date t) as [d|]; [|discriminate].
      exists d. split; [reflexivity|]. apply Z.ltb_lt. exact Hd.
    + intros E. rewrite E in Hc. discriminate.
    + intros E. rewrite E in Hx. discriminate.
  - intros [[d [Hd Hlt]] [Hc Hx]]. rewrite Hd. repeat split.
    + apply Z.ltb_lt. exact Hlt.
    + destruct (status t); try reflexivity. congruence.
    + destruct (status t); try reflexivity. congruence.
Qed.

Lemma offset_limit_all (limit : nat) (rows : list Task) :
  (List.length rows <= limit)%nat -> offset_limit 0 limit rows = rows.
Proof.
  unfold offset_limit. cbn [skipn]. apply firstn_all2.
Qed.

End Reads.

(** C3.  When the store answers, the count is returned, and it is the
    length of the listing with the same filters, skip 0 and any limit
    that does not cut the listing short. *)
Theorem get_tasks_count_is_length_of_unpaginated_list :
  forall (env : Orm.Env) (s : Orm.Session)
         (status_ : option StatusEnum) (priority_ : option PriorityEnum),
    Expected.answers env ->
    exists n,
      Crud.get_tasks_count status_ priority_ env s = (Orm.Ok n, s) /\
      forall limit, (n <= limit)%nat ->
        exists l,
          Crud.get_all_tasks 0 limit status_ priority_ env s = (Orm.Ok l, s)
          /\ List.length l = n.
Proof.
  intros env s st pr Hans.
  exists (List.length (Crud.apply_filters st pr (Orm.store s))).
  unfold Crud.get_tasks_count, Crud.get_all_tasks, Orm.bind, Orm.ret,
    Orm.execute.
  unfold Expected.answers in Hans.
  destruct (Orm.failure env); try contradiction; (split;
    [destruct (List.length _); reflexivity|
     intros limit Hl; eexists; split; [reflexivity|];
     rewrite offset_limit_all by (rewrite order_by_length; exact Hl);
     apply order_by_length]).
Qed.

(** C4.  When the store answers, the overdue listing holds exactly the
    stored tasks whose due date is strictly before now and whose status
    is neither completed nor cancelled; a task without due date is
    never in it. *)
Theorem get_overdue_tasks_exact :
  forall (env : Orm.Env) (s : Orm.Session),
    Expected.answers env ->
    exists l,
      Crud.get_overdue_tasks env s = (Orm.Ok l, s) /\
      (forall t, In t l <->
                 In t (Orm.store s) /\ Expected.overdue (Orm.now env) t) /\
      (forall t, Models.due_date t = None -> ~ In t l).
Proof.
  intros env s Hans.
  unfold Crud.get_overdue_tasks, Orm.bind, Orm.utcnow, Orm.execute.
  unfold Expected.answers in Hans.
  assert (Hin : forall t,
    In t (filter (fun r => Crud.due_before (Orm.now env) r
                    && negb (StatusEnum_eqb (Models.status r) COMPLETED)
                    && negb (StatusEnum_eqb (Models.status r) CANCELLED))
                 (Orm.store s))
    <-> In t (Orm.store s) /\ Expected.overdue (Orm.now env) t).
  { intros t. rewrite filter_In, overdue_filter. tauto. }
  destruct (Orm.failure env); try contradiction;
    (eexists; split; [reflexivity|]; split; [exact Hin|];
     intros t Hnone Ht; apply Hin in Ht;
     destruct Ht as [_ [[d [Hd _]] _]]; congruence).
Qed.

Lemma get_tasks_count_is_length_of_unpaginated_list_witness :
  Expected.answers (calm 10) /\
  exists n,
    Crud.get_tasks_count (Some TODO) None (calm 10) (Orm.open board)
      = (Orm.Ok n, Orm.open board) /\
    forall limit, (n <= limit)%nat ->
      exists l,
        Crud.get_all_tasks 0 limit (Some TODO) None (calm 10) (Orm.open board)
          = (Orm.Ok l, Orm.open board)
        /\ List.length l = n.
Proof.
  split; [exact I|].
  apply (get_tasks_count_is_length_of_unpaginated_list
           (calm 10) (Orm.open board) (Some TODO) None).
  exact I.
Defined.

Lemma get_overdue_tasks_exact_witness :
  Expected.answers (calm 10) /\
  exists l,
    Crud.get_overdue_tasks (calm 10) (Orm.open board)
      = (Orm.Ok l, Orm.open board) /\
    (forall t, In t l <->
               In t (Orm.store (Orm.open board)) /\
               Expected.overdue (Orm.now (calm 10)) t) /\
    (forall t, Models.due_date t = None -> ~ In t l).
Proof.
  split; [exact I|].
  apply (get_overdue_tasks_exact (calm 10) (Orm.open board)).
  exact I.
Defined.

(** ** Writing: delete, failures, partial update *)

Section Writes.

Import Models Orm Expected.

Lemma lookup_is_some_iff (rows : list Task) (k : Z) :
  (exists row, lookup k rows = Some row)
  <-> (exists t, In t rows /\ id t = k).
Proof.
  split.
  - intros [row H]. exists row. apply lookup_some. exact H.
  - intros [t [Hin Hid]]. destruct (lookup k rows) as [row|] eqn:L.
    + exists row. reflexivity.
    + exfalso. apply (proj1 (lookup_none rows k) L t Hin Hid).
Qed.

Lemma patched_none_iff (u : Schemas.TaskUpdate) (clock : Z) (row : Task) :
  patched u clock row = None <-> nulls_required u = true.
Proof.
  unfold patched, nulls_required. destruct u as [t d p st du]; cbn.
  destruct t, p, st; cbn; split; congruence.
Qed.

(** The patched row: omitted fields as before, supplied fields as
    supplied, [updated_at] at the time of the update. *)
Lemma patched_spec (u : Schemas.TaskUpdate) (clock : Z) (row t : Task) :
  patched u clock row = Some t ->
  omitted_unchanged u row t /\ supplied_applied u t /\ updated_at t = clock.
Proof.
  unfold patched, omitted_unchanged, supplied_applied.
  destruct u as [ti d p st du]; cbn.
  destruct ti, p, st; cbn; try discriminate;
    intros H; injection H as <-; cbn;
    destruct d, du; cbn; repeat split; intros; congruence.
Qed.

Lemma patched_status_only (clock : Z) (row : Task) :
  patched (Schemas.TaskUpdate_status_only COMPLETED) clock row
  = Some (completed clock row).
Proof. reflexivity. Qed.

End Writes.

(** C6.  When the store answers and accepts the commit, [delete_task]
    returns [True] exactly when a row with the given id existed, and
    that row is then removed; otherwise it returns [False], which is a
    value and not an exception, and the store is as before.  The route
    answers 200 in the first case and 404 in the second, and after a
    successful delete fetching the same id finds nothing (404). *)
Theorem delete_task_true_iff_removed :
  forall (env : Orm.Env) (rows : list Models.Task) (task_id : Z),
    Expected.answers env -> Expected.commits env ->
    exists b : bool,
      Crud.delete_task task_id env (Orm.open rows)
        = (Orm.Ok b,
           Orm.open (if b then Orm.delete_row task_id rows else rows)) /\
      (b = true <-> exists t, In t rows /\ Models.id t = task_id) /\
      Routes.delete_task task_id env (Orm.open rows)
        = (Orm.Ok (if b then Routes.Response 200 task_id
                   else Routes.HTTPException 404),
           Orm.open (if b then Orm.delete_row task_id rows else rows)) /\
      Crud.get_task_by_id task_id env
                          (Orm.open (Orm.delete_row task_id rows))
        = (Orm.Ok None, Orm.open (Orm.delete_row task_id rows)) /\
      Routes.get_task task_id env (Orm.open (Orm.delete_row task_id rows))
        = (Orm.Ok (Routes.HTTPException 404),
           Orm.open (Orm.delete_row task_id rows)).
Proof.
  intros env rows k Hans Hcom.
  assert (Hget : Crud.get_task_by_id k env (Orm.open (Orm.delete_row k rows))
                 = (Orm.Ok None, Orm.open (Orm.delete_row k rows))).
  { rewrite get_task_by_id_run by exact Hans. cbn [Orm.store Orm.open].
    rewrite lookup_delete_row. reflexivity. }
  assert (Hroute : Routes.get_task k env (Orm.open (Orm.delete_row k rows))
                   = (Orm.Ok (Routes.HTTPException 404),
                      Orm.open (Orm.delete_row k rows))).
  { unfold Routes.get_task, Routes.response_model, Orm.bind.
    rewrite Hget. reflexivity. }
  assert (Hrun := delete_task_run env rows k).
  unfold Expected.answers in Hans. unfold Expected.commits in Hcom.
  destruct (Models.lookup k rows) as [row|] eqn:L.
  - exists true.
    assert (Hd : Crud.delete_task k env (Orm.open rows)
                 = (Orm.Ok true, Orm.open (Orm.delete_row k rows))).
    { rewrite Hrun. destruct (Orm.failure env); try contradiction;
        reflexivity. }
    split; [exact Hd|]. split.
    + split; [intros _|reflexivity].
      apply lookup_is_some_iff. exists row. exact L.
    + split; [|split; assumption].
      unfold Routes.delete_task, Orm.bind. rewrite Hd. reflexivity.
  - exists false.
    assert (Hd : Crud.delete_task k env (Orm.open rows)
                 = (Orm.Ok false, Orm.open rows)).
    { rewrite Hrun. destruct (Orm.failure env); try contradiction;
        reflexivity. }
    split; [exact Hd|]. split.
    + split; [discriminate|].
      intros H. apply lookup_is_some_iff in H. destruct H as [row H].
      congruence.
    + split; [|split; assumption].
      unfold Routes.delete_task, Orm.bind. rewrite Hd. reflexivity.
Qed.

Lemma delete_task_true_iff_removed_witness :
  Expected.answers (calm 10) /\ Expected.commits (calm 10) /\
  exists b : bool,
    Crud.delete_task 1 (calm 10) (Orm.open board)
      = (Orm.Ok b, Orm.open (if b then Orm.delete_row 1 board else board)) /\
    (b = true <-> exists t, In t board /\ Models.id t = 1) /\
    Routes.delete_task 1 (calm 10) (Orm.open board)
      = (Orm.Ok (if b then Routes.Response 200 1
                 else Routes.HTTPException 404),
         Orm.open (if b then Orm.delete_row 1 board else board)) /\
    Crud.get_task_by_id 1 (calm 10) (Orm.open (Orm.delete_row 1 board))
      = (Orm.Ok None, Orm.open (Orm.delete_row 1 board)) /\
    Routes.get_task 1 (calm 10) (Orm.open (Orm.delete_row 1 board))
      = (Orm.Ok (Routes.HTTPException 404),
         Orm.open (Orm.delete_row 1 board)).
Proof.
  split; [exact I|]. split; [exact I|].
  apply (delete_task_true_iff_removed (calm 10) board 1); exact I.
Defined.

(** C7, as stated, fails: [db.refresh] stands in the same [try] block
    as the commit, after it.  When it fails the exception is raised to
    the caller, but the row the commit wrote stays in the store: the
    rollback has nothing left to undo. *)
Lemma refresh_failure_leaves_the_commit :
  ~ Expected.every_failure_leaves_the_store.
Proof.
  intros H.
  assert (E : Orm.store
                (snd (Crud.create_task new_task
                        {| Orm.failure := Orm.AtRefresh (Orm.OperationalError 1);
                           Orm.now := 10 |} (Orm.open board)))
              = board).
  { apply (H {| Orm.failure := Orm.AtRefresh (Orm.OperationalError 1);
                Orm.now := 10 |} new_task board (Orm.OperationalError 1)).
    reflexivity. }
  vm_compute in E. discriminate E.
Qed.

(** C7, amended.  Whatever a create, an update or a delete raises is
    the exception of the store (or the constraint error of the flush),
    never another one, and it leaves nothing pending in the session.
    If the failure came at the query, at the flush or at the commit,
    the store is as it was before the operation.  If it came at the
    refresh, which follows the commit in a create and in an update, the
    store holds what was committed.  Conversely no failure of the store
    is swallowed: a failure at the query, at the commit or at the
    refresh is raised to the caller as it is, and so is the refusal of
    a [null] in a NOT NULL column. *)
Theorem failed_unit_of_work_rolls_back_and_reraises :
  forall (env : Orm.Env) (rows : list Models.Task) (e : Orm.exn),
    (forall task s',
        Crud.create_task task env (Orm.open rows) = (Orm.Raise e, s') ->
        (Orm.failure env = Orm.AtCommit e /\ s' = Orm.open rows) \/
        (Orm.failure env = Orm.AtRefresh e /\
         s' = Orm.open
                (rows ++ [Expected.inserted task (Orm.now env) rows]))) /\
    (forall k u s',
        Crud.update_task k u env (Orm.open rows) = (Orm.Raise e, s') ->
        (s' = Orm.open rows /\
         (Orm.failure env = Orm.AtQuery e \/
          Orm.failure env = Orm.AtCommit e \/
          (e = Orm.IntegrityError /\ Expected.nulls_required u = true))) \/
        (Orm.failure env = Orm.AtRefresh e /\
         exists row t,
           Models.lookup k rows = Some row /\
           Expected.patched u (Orm.now env) row = Some t /\
           s' = Orm.open (Orm.replace_row t rows))) /\
    (forall k s',
        Crud.delete_task k env (Orm.open rows) = (Orm.Raise e, s') ->
        s' = Orm.open rows /\
        (Orm.failure env = Orm.AtQuery e \/
         Orm.failure env = Orm.AtCommit e)) /\
    (Orm.failure env = Orm.AtCommit e ->
       (forall task,
           Crud.create_task task env (Orm.open rows)
           = (Orm.Raise e, Orm.open rows)) /\
       (forall k u, Models.lookup k rows <> None ->
           Crud.update_task k u env (Orm.open rows)
           = (Orm.Raise e, Orm.open rows)) /\
       (forall k, Models.lookup k rows <> None ->
           Crud.delete_task k env (Orm.open rows)
           = (Orm.Raise e, Orm.open rows))) /\
    (Orm.failure env = Orm.AtQuery e ->
       (forall k u,
           Crud.update_task k u env (Orm.open rows)
           = (Orm.Raise e, Orm.open rows)) /\
       (forall k,
           Crud.delete_task k env (Orm.open rows)
           = (Orm.Raise e, Orm.open rows))) /\
    (Orm.failure env = Orm.AtRefresh e ->
       (forall task,
           Crud.create_task task env (Orm.open rows)
           = (Orm.Raise e,
              Orm.open
                (rows ++ [Expected.inserted task (Orm.now env) rows]))) /\
       (forall k u row t,
           Models.lookup k rows = Some row ->
           Expected.patched u (Orm.now env) row = Some t ->
           Crud.update_task k u env (Orm.open rows)
           = (Orm.Raise e, Orm.open (Orm.replace_row t rows)))) /\
    (forall k u, Models.lookup k rows <> None ->
       Expected.nulls_required u = true ->
       Orm.failure env = Orm.NoFault \/
       (exists e', Orm.failure env = Orm.AtRefresh e') ->
       Crud.update_task k u env (Orm.open rows)
       = (Orm.Raise Orm.IntegrityError, Orm.open rows)).
Proof.
  intros env rows e.
  split; [|split; [|split; [|split; [|split; [|split]]]]].
  - intros task s' H. rewrite create_task_run in H. cbv zeta in H.
    destruct (Orm.failure env); try discriminate;
      injection H as <- <-; [left|right]; split; reflexivity.
  - intros k u s' Hrun. rewrite update_task_run in Hrun.
    destruct (Orm.failure env) eqn:F.
    + destruct (Models.lookup k rows) as [row|]; [|discriminate].
      destruct (Expected.patched u (Orm.now env) row) eqn:P;
        [discriminate|].
      injection Hrun as <- <-. left. split; [reflexivity|].
      right; right. split; [reflexivity|].
      apply (patched_none_iff u (Orm.now env) row). exact P.
    + injection Hrun as <- <-. left. split; [reflexivity|].
      left. reflexivity.
    + destruct (Models.lookup k rows) as [row|]; [|discriminate].
      injection Hrun as <- <-. left. split; [reflexivity|].
      right; left. reflexivity.
    + destruct (Models.lookup k rows) as [row|] eqn:L; [|discriminate].
      destruct (Expected.patched u (Orm.now env) row) as [t|] eqn:P.
      * injection Hrun as <- <-. right. split; [reflexivity|].
        exists row, t. repeat split; assumption.
      * injection Hrun as <- <-. left. split; [reflexivity|].
        right; right. split; [reflexivity|].
        apply (patched_none_iff u (Orm.now env) row). exact P.
  - intros k s' Hrun. rewrite delete_task_run in Hrun.
    destruct (Orm.failure env) eqn:F;
      try (destruct (Models.lookup k rows); discriminate).
    + injection Hrun as <- <-. split; [reflexivity|]. left. reflexivity.
    + destruct (Models.lookup k rows); [|discriminate].
      injection Hrun as <- <-. split; [reflexivity|]. right. reflexivity.
  - intros H. split; [|split].
    + intros task. rewrite create_task_run, H. reflexivity.
    + intros k u Hk. rewrite update_task_run, H.
      destruct (Models.lookup k rows); [reflexivity|congruence].
    + intros k Hk. rewrite delete_task_run, H.
      destruct (Models.lookup k rows); [reflexivity|congruence].
  - intros H. split.
    + intros k u. rewrite update_task_run, H. reflexivity.
    + intros k. rewrite delete_task_run, H. reflexivity.
  - intros H. split.
    + intros task. rewrite create_task_run, H. reflexivity.
    + intros k u row t L P. rewrite update_task_run, H, L, P. reflexivity.
  - intros k u Hk Hnull F. rewrite update_task_run.
    destruct (Models.lookup k rows) as [row|]; [|congruence].
    apply (patched_none_iff u (Orm.now env) row) in Hnull.
    destruct F as [F|[e' F]]; rewrite F, Hnull; reflexivity.
Qed.

Lemma failed_unit_of_work_rolls_back_and_reraises_witness :
  Crud.create_task new_task (commit_fails 10) (Orm.open board)
  = (Orm.Raise (Orm.OperationalError 1), Orm.open board) /\
  Crud.delete_task 1 (commit_fails 10) (Orm.open board)
  = (Orm.Raise (Orm.OperationalError 1), Orm.open board) /\
  Crud.update_task 1 null_title (calm 10) (Orm.open board)
  = (Orm.Raise Orm.IntegrityError, Orm.open board) /\
  Crud.create_task new_task
    {| Orm.failure := Orm.AtRefresh (Orm.OperationalError 1);
       Orm.now := 10 |} (Orm.open board)
  = (Orm.Raise (Orm.OperationalError 1),
     Orm.open (board ++ [Expected.inserted new_task 10 board])).
Proof.
  destruct (failed_unit_of_work_rolls_back_and_reraises
              (commit_fails 10) board (Orm.OperationalError 1))
    as (_ & _ & _ & Hc & _).
  destruct (Hc eq_refl) as (Hcreate & _ & Hdelete).
  split; [apply Hcreate|].
  split; [apply Hdelete; discriminate|].
  split.
  - apply (proj2 (proj2 (proj2 (proj2 (proj2 (proj2
             (failed_unit_of_work_rolls_back_and_reraises
                (calm 10) board Orm.IntegrityError))))))).
    + discriminate.
    + reflexivity.
    + left. reflexivity.
  - apply (proj1 (proj1 (proj2 (proj2 (proj2 (proj2 (proj2
             (failed_unit_of_work_rolls_back_and_reraises
                {| Orm.failure := Orm.AtRefresh (Orm.OperationalError 1);
                   Orm.now := 10 |} board (Orm.OperationalError 1)))))))
            eq_refl)).
Defined.

(** C2, as stated, fails: a payload that sets the title to [null] is
    accepted by the schema, the flush refuses it because the column is
    NOT NULL, and the update raises instead of applying the payload and
    refreshing [updated_at]. *)
Lemma update_null_title_is_refused :
  ~ Expected.update_applies_every_payload.
Proof.
  intros H.
  destruct (H 10 board 1 null_title row1 eq_refl) as [row' [Hrun _]].
  vm_compute in Hrun. discriminate Hrun.
Qed.

(** C2, amended.  For an existing task and any update payload, whatever
    the store does, the task is still stored afterwards and every field
    the payload omits (as well as the id and [created_at]) has its
    value from before the update.  When the store does not fail and the
    payload puts no [null] in a NOT NULL column (title, priority,
    status), the update returns the task, every supplied field holds
    the supplied value, [null] included for description and due date,
    [updated_at] is the time of the update, and no other row changes. *)
Theorem update_task_changes_supplied_fields_only :
  forall (env : Orm.Env) (rows : list Models.Task) (task_id : Z)
         (u : Schemas.TaskUpdate) (row : Models.Task),
    Models.lookup task_id rows = Some row ->
    exists r rows' row',
      Crud.update_task task_id u env (Orm.open rows) = (r, Orm.open rows') /\
      Models.lookup task_id rows' = Some row' /\
      Expected.omitted_unchanged u row row' /\
      (Orm.failure env = Orm.NoFault ->
       Expected.nulls_required u = false ->
       r = Orm.Ok (Some row') /\
       rows' = Orm.replace_row row' rows /\
       Expected.supplied_applied u row' /\
       Models.updated_at row' = Orm.now env).
Proof.
  intros env rows k u row L.
  assert (Hsame : Expected.omitted_unchanged u row row)
    by (unfold Expected.omitted_unchanged; tauto).
  assert (Hk : Models.id row = k) by (apply (lookup_some rows k row L)).
  rewrite update_task_run, L.
  destruct (Expected.patched u (Orm.now env) row) as [t|] eqn:P.
  - destruct (patched_spec u (Orm.now env) row t P) as [Hom [Hsup Hup]].
    assert (Lt : Models.lookup k (Orm.replace_row t rows) = Some t).
    { rewrite <- Hk, <- (patched_id u (Orm.now env) row t P).
      apply (lookup_replace_row rows row t).
      rewrite (patched_id u (Orm.now env) row t P), Hk. exact L. }
    destruct (Orm.failure env) eqn:F.
    + exists (Orm.Ok (Some t)), (Orm.replace_row t rows), t. tauto.
    + exists (Orm.Raise e), rows, row.
      refine (conj eq_refl (conj _ (conj _ _)));
        [assumption|assumption|intros; congruence].
    + exists (Orm.Raise e), rows, row.
      refine (conj eq_refl (conj _ (conj _ _)));
        [assumption|assumption|intros; congruence].
    + exists (Orm.Raise e), (Orm.replace_row t rows), t.
      refine (conj eq_refl (conj _ (conj _ _)));
        [assumption|assumption|intros; congruence].
  - assert (Hn : Expected.nulls_required u = true)
      by (apply (patched_none_iff u (Orm.now env) row); exact P).
    destruct (Orm.failure env) eqn:F.
    + exists (Orm.Raise Orm.IntegrityError), rows, row.
      refine (conj eq_refl (conj _ (conj _ _)));
        [assumption|assumption|intros; congruence].
    + exists (Orm.Raise e), rows, row.
      refine (conj eq_refl (conj _ (conj _ _)));
        [assumption|assumption|intros; congruence].
    + exists (Orm.Raise e), rows, row.
      refine (conj eq_refl (conj _ (conj _ _)));
        [assumption|assumption|intros; congruence].
    + exists (Orm.Raise Orm.IntegrityError), rows, row.
      refine (conj eq_refl (conj _ (conj _ _)));
        [assumption|assumption|intros; congruence].
Qed.

Lemma update_task_changes_supplied_fields_only_witness :
  Models.lookup 1 board = Some row1 /\
  exists r rows' row',
    Crud.update_task 1 (status_only IN_PROGRESS) (calm 10) (Orm.open board)
      = (r, Orm.open rows') /\
    Models.lookup 1 rows' = Some row' /\
    Expected.omitted_unchanged (status_only IN_PROGRESS) row1 row' /\
    (Orm.failure (calm 10) = Orm.NoFault ->
     Expected.nulls_required (status_only IN_PROGRESS) = false ->
     r = Orm.Ok (Some row') /\
     rows' = Orm.replace_row row' board /\
     Expected.supplied_applied (status_only IN_PROGRESS) row' /\
     Models.updated_at row' = Orm.now (calm 10)).
Proof.
  split; [reflexivity|].
  apply (update_task_changes_supplied_fields_only
           (calm 10) board 1 (status_only IN_PROGRESS) row1).
  reflexivity.
Defined.

(** C10.  [mark_task_as_completed] is [update_task] with the payload in
    which only the status is set, to completed.  For an id that has no
    row it returns [None]; for an existing task, when the store does not
    fail, it returns the task with status completed and [updated_at]
    refreshed, every other field as before, and stores that row. *)
Theorem mark_task_as_completed_is_status_update :
  forall (env : Orm.Env) (rows : list Models.Task) (task_id : Z),
    (forall s,
        Crud.mark_task_as_completed task_id env s
        = Crud.update_task task_id
            {| Schemas.u_title := Schemas.Absent;
               Schemas.u_description := Schemas.Absent;
               Schemas.u_priority := Schemas.Absent;
               Schemas.u_status := Schemas.Value COMPLETED;
               Schemas.u_due_date := Schemas.Absent |} env s) /\
    (Expected.answers env -> Models.lookup task_id rows = None ->
     Crud.mark_task_as_completed task_id env (Orm.open rows)
     = (Orm.Ok None, Orm.open rows)) /\
    (forall row,
        Orm.failure env = Orm.NoFault ->
        Models.lookup task_id rows = Some row ->
        Crud.mark_task_as_completed task_id env (Orm.open rows)
        = (Orm.Ok (Some (Expected.completed (Orm.now env) row)),
           Orm.open (Orm.replace_row
                       (Expected.completed (Orm.now env) row) rows))).
Proof.
  intros env rows k. split; [reflexivity|]. split.
  - intros Hans L. unfold Crud.mark_task_as_completed.
    rewrite update_task_run, L. unfold Expected.answers in Hans.
    destruct (Orm.failure env); try contradiction; reflexivity.
  - intros row F L. unfold Crud.mark_task_as_completed.
    rewrite update_task_run, L, F, patched_status_only. reflexivity.
Qed.

Lemma mark_task_as_completed_is_status_update_witness :
  Orm.failure (calm 10) = Orm.NoFault /\
  Models.lookup 1 board = Some row1 /\
  Crud.mark_task_as_completed 1 (calm 10) (Orm.open board)
  = (Orm.Ok (Some (Expected.completed 10 row1)),
     Orm.open (Orm.replace_row (Expected.completed 10 row1) board)).
Proof.
  split; [reflexivity|]. split; [reflexivity|].
  apply (proj2 (proj2 (mark_task_as_completed_is_status_update
                         (calm 10) board 1)) row1); reflexivity.
Defined.

(** ** The service over time: timestamps and titles *)

Section Invariants.

Import Models Orm Expected Service.

(** The response model looks at what a route returns and leaves the
    session alone. *)
Lemma response_model_snd (route : M (Routes.http Task)) (env : Env)
    (s : Session) :
  snd (Routes.response_model route env s) = snd (route env s).
Proof.
  unfold Routes.response_model, bind.
  destruct (route env s) as [[[c t|c]|e] s']; try reflexivity.
  cbn [snd]. destruct (Response.model_validate t); reflexivity.
Qed.

Lemma snd_with_db {A} (m : M A) (env : Env) (rows : list Task) :
  snd (with_db m env rows) = store (snd (m env (open rows))).
Proof. unfold with_db. destruct (m env (open rows)); reflexivity. Qed.

(** What one request can do to the table. *)
Lemma serve_cases (env : Env) (r : request) (rows : list Task) :
  serve env r rows = rows
  \/ (exists task,
         serve env r rows = rows ++ [inserted task (now env) rows])
  \/ (exists k u row t,
         lookup k rows = Some row /\ patched u (now env) row = Some t /\
         serve env r rows = replace_row t rows)
  \/ (exists k, serve env r rows = delete_row k rows).
Proof.
  assert (Hupd : forall k u (K : option Task -> M (Routes.http Task)),
    (forall o env' s, snd (K o env' s) = s) ->
    let rows' := store (snd (bind (Crud.update_task k u) K env (open rows)))
    in rows' = rows
       \/ exists row t, lookup k rows = Some row /\
                        patched u (now env) row = Some t /\
                        rows' = replace_row t rows).
  { intros k u K HK. cbv zeta. unfold bind.
    rewrite update_task_run.
    destruct (failure env) eqn:F;
      try (left; reflexivity);
      (destruct (lookup k rows) as [row|] eqn:L;
       [|left; cbv beta iota zeta; rewrite HK; reflexivity];
       first
         [ left; reflexivity
         | destruct (patched u (now env) row) as [t|] eqn:P;
           [ right; exists row, t; cbv beta iota zeta; rewrite ?HK; auto
           | left; reflexivity ] ]). }
  pose (K0 := fun o : option Task =>
                match o return M (Routes.http Task) with
                | Some t => ret (Routes.Response 200 t)
                | None => ret (Routes.HTTPException 404)
                end).
  assert (Hsnd : forall o env' s, snd (K0 o env' s) = s)
    by (intros [t|] env' s; reflexivity).
  destruct r as [body|k body|k|k]; unfold serve; rewrite snd_with_db.
  - unfold Routes.create_task.
    destruct (Schemas.validate_TaskCreate body) as [task|errs];
      [|left; reflexivity].
    rewrite response_model_snd.
    unfold try_except, bind. rewrite create_task_run. cbv zeta.
    destruct (failure env); try (left; reflexivity);
      right; left; exists task; reflexivity.
  - unfold Routes.update_task.
    destruct (Schemas.validate_TaskUpdate body) as [u|errs];
      [|left; reflexivity].
    specialize (Hupd k u K0 Hsnd). cbv zeta in Hupd.
    rewrite response_model_snd.
    change (fun db_task : option Task => match db_task with
              | Some t => ret (Routes.Response 200 t)
              | None => ret (Routes.HTTPException 404)
              end) with K0.
    destruct Hupd as [H|[row [t [H1 [H2 H3]]]]]; [left; exact H|].
    right; right; left. exists k, u, row, t. auto.
  - unfold Routes.delete_task, bind. rewrite delete_task_run.
    destruct (failure env); try (left; reflexivity);
      (destruct (lookup k rows); [|left; reflexivity]);
      first [ left; reflexivity
            | right; right; right; exists k; reflexivity ].
  - unfold Routes.mark_task_completed, Crud.mark_task_as_completed.
    specialize (Hupd k (Schemas.TaskUpdate_status_only COMPLETED) K0 Hsnd).
    cbv zeta in Hupd.
    rewrite response_model_snd.
    change (fun db_task : option Task => match db_task with
              | Some t => ret (Routes.Response 200 t)
              | None => ret (Routes.HTTPException 404)
              end) with K0.
    destruct Hupd as [H|[row [t [H1 [H2 H3]]]]]; [left; exact H|].
    right; right; left.
    exists k, (Schemas.TaskUpdate_status_only COMPLETED), row, t. auto.
Qed.

Lemma step_well_timed (w : World) (ev : event) :
  well_timed w -> well_timed (step w ev).
Proof.
  unfold well_timed, step. cbn [db clock]. intros Hw t.
  set (env := {| failure := behaviour ev;
                 now := clock w + Z.of_N (elapsed ev) |}).
  assert (Hnow : clock w <= now env) by (cbn; lia).
  change (clock w + Z.of_N (elapsed ev)) with (now env).
  destruct (serve_cases env (req ev) (db w))
    as [H|[[task H]|[[k [u [row [r [L [P H]]]]]]|[k H]]]];
    rewrite H; clear H; intros Hin.
  - specialize (Hw t Hin). lia.
  - apply in_app_or in Hin. destruct Hin as [Hin|[<-|[]]].
    + specialize (Hw t Hin). lia.
    + cbn. lia.
  - apply in_replace_row in Hin. destruct Hin as [->|Hin].
    + destruct (patched_spec u (now env) row r P) as [Hom [_ Hup]].
      destruct Hom as [_ [Hc _]].
      destruct (lookup_some _ _ _ L) as [Hrow _].
      specialize (Hw row Hrow). lia.
    + specialize (Hw t Hin). lia.
  - unfold delete_row in Hin. apply filter_In in Hin.
    destruct Hin as [Hin _]. specialize (Hw t Hin). lia.
Qed.

Lemma run_well_timed (evs : list event) :
  forall w, well_timed w -> well_timed (run evs w).
Proof.
  unfold run. induction evs as [|ev evs IH]; intros w Hw; [exact Hw|].
  cbn [fold_left]. apply IH. apply step_well_timed. exact Hw.
Qed.

Lemma run_clock (evs : list event) :
  forall w, clock w <= clock (run evs w).
Proof.
  unfold run. induction evs as [|ev evs IH]; intros w; cbn [fold_left];
    [lia|].
  specialize (IH (step w ev)). cbn [step clock] in IH. lia.
Qed.

End Invariants.




(** The create path keeps the title invariant: what a POST stores has a
    title that is not blank. *)
Lemma create_keeps_titles_visible :
  forall (env : Orm.Env) (body : Schemas.Payload) (rows : list Models.Task),
    Expected.titles_visible rows ->
    Expected.titles_visible (Service.serve env (Service.POST_tasks body) rows).
Proof.
  intros env body rows Hrows. unfold Service.serve.
  rewrite snd_with_db. unfold Routes.create_task.
  destruct (Schemas.validate_TaskCreate body) as [task|errs] eqn:V;
    [|exact Hrows].
  destruct (validate_TaskCreate_accepted body task V)
    as [s [_ [_ [_ [_ [Hvis _]]]]]].
  rewrite response_model_snd.
  unfold Orm.try_except, Orm.bind. rewrite create_task_run. cbv zeta.
  destruct (Orm.failure env); cbn [snd Orm.store Orm.open Orm.ret];
    try exact Hrows;
    (intros t Hin; apply in_app_or in Hin; destruct Hin as [Hin|[<-|[]]];
     [apply Hrows; exact Hin|exact Hvis]).
Qed.

(** Marking a task completed keeps it too: the title is not touched. *)
Lemma complete_keeps_titles_visible :
  forall (env : Orm.Env) (k : Z) (rows : list Models.Task),
    Expected.titles_visible rows ->
    Expected.titles_visible (Service.serve env (Service.PATCH_complete k) rows).
Proof.
  intros env k rows Hrows. unfold Service.serve.
  rewrite snd_with_db. unfold Routes.mark_task_completed.
  rewrite response_model_snd.
  unfold Crud.mark_task_as_completed, Orm.bind.
  rewrite update_task_run.
  destruct (Orm.failure env); cbv beta iota zeta; try exact Hrows;
    (destruct (Models.lookup k rows) as [row|] eqn:L; [|exact Hrows]);
    try exact Hrows;
    rewrite patched_status_only; cbn [snd Orm.store Orm.open Orm.ret];
    intros t Hin; apply in_replace_row in Hin;
    (destruct Hin as [->|Hin]; [|apply Hrows; exact Hin]);
    cbn [Models.title Expected.completed];
    apply Hrows; apply (lookup_some rows k row L).
Qed.

(** C9.  The title invariant is broken by an update: both payloads of
    [blanking] pass validation, and after the two requests the stored
    task has a title made of three spaces. *)
Theorem update_stores_blank_title :
  Schemas.validate_TaskUpdate (only_title (Schemas.Value blank_title))
    = Schemas.Accepted
        {| Schemas.u_title := Schemas.Value blank_title;
           Schemas.u_description := Schemas.Absent;
           Schemas.u_priority := Schemas.Absent;
           Schemas.u_status := Schemas.Absent;
           Schemas.u_due_date := Schemas.Absent |}
  /\ Service.db (Service.run blanking (Service.initial 0))
     = [ {| Models.id := 1; Models.title := blank_title;
            Models.description := None; Models.priority := MEDIUM;
            Models.status := TODO; Models.created_at := 5;
            Models.updated_at := 10; Models.due_date := None |} ]
  /\ all_space blank_title = true
  /\ ~ Expected.titles_visible
         (Service.db (Service.run blanking (Service.initial 0))).
Proof.
  split; [reflexivity|]. split; [reflexivity|]. split; [reflexivity|].
  intros H.
  specialize (H _ (or_introl eq_refl)). vm_compute in H. discriminate H.
Qed.

(* ================================================================== *)
(** * Further properties *)
(* ================================================================== *)

(** ** Trimming *)

Section TrimFacts.

Import Terms.

Lemma lstrip_split (s : str) :
  exists w, s = w ++ lstrip s /\ all_space w = true.
Proof.
  induction s as [|c s [w [Hs Hw]]]; [exists []; split; reflexivity|].
  cbn [lstrip]. destruct (isspace c) eqn:E.
  - exists (c :: w). split; [cbn; congruence|].
    unfold all_space in *. cbn. rewrite E, Hw. reflexivity.
  - exists []. split; reflexivity.
Qed.

Lemma rstrip_split (s : str) :
  exists w, s = rstrip s ++ w /\ all_space w = true.
Proof.
  unfold rstrip. destruct (lstrip_split (rev s)) as [w [Hs Hw]].
  exists (rev w). split; [|rewrite all_space_rev; exact Hw].
  rewrite <- rev_app_distr, <- Hs, rev_involutive. reflexivity.
Qed.

Lemma lstrip_head (s : str) :
  match lstrip s with [] => True | c :: _ => isspace c = false end.
Proof.
  induction s as [|c s IH]; cbn [lstrip]; [exact I|].
  destruct (isspace c) eqn:E; [exact IH|exact E].
Qed.

Lemma lstrip_fixed (s : str) :
  match s with [] => True | c :: _ => isspace c = false end ->
  lstrip s = s.
Proof.
  destruct s as [|c s]; [reflexivity|]. cbn [lstrip]. intros ->. reflexivity.
Qed.

Lemma strip_trimmed (s : str) : trimmed (strip s).
Proof.
  unfold trimmed, strip. split.
  - destruct (rstrip_split (lstrip s)) as [w [Hs _]].
    assert (H := lstrip_head s). rewrite Hs in H.
    destruct (rstrip (lstrip s)); [exact I|exact H].
  - unfold rstrip. rewrite rev_involutive. apply lstrip_head.
Qed.

Lemma strip_of_trimmed (s : str) : trimmed s -> strip s = s.
Proof.
  unfold trimmed, strip, rstrip. intros [Hl Hr].
  rewrite (lstrip_fixed s Hl), (lstrip_fixed (rev s) Hr).
  apply rev_involutive.
Qed.

Lemma strip_idempotent (s : str) : strip (strip s) = strip s.
Proof. apply strip_of_trimmed, strip_trimmed. Qed.

Lemma strip_split (s : str) :
  exists a b, s = a ++ strip s ++ b /\
              all_space a = true /\ all_space b = true.
Proof.
  destruct (lstrip_split s) as [a [Ha Hsa]].
  destruct (rstrip_split (lstrip s)) as [b [Hb Hsb]].
  exists a, b. unfold strip. rewrite <- Hb, <- Ha. tauto.
Qed.

Lemma len_app (a b : str) : len (a ++ b) = len a + len b.
Proof. unfold len. rewrite length_app. lia. Qed.

Lemma len_nonneg (s : str) : 0 <= len s.
Proof. unfold len. lia. Qed.

Lemma len_strip_le (s : str) : len (strip s) <= len s.
Proof.
  destruct (strip_split s) as [a [b [Hs _]]].
  rewrite Hs at 2. rewrite !len_app.
  assert (Ha := len_nonneg a). assert (Hb := len_nonneg b). lia.
Qed.

Lemma len_strip_pos (s : str) : all_space s = false -> 1 <= len (strip s).
Proof.
  intros H. destruct (strip s) eqn:E.
  - apply strip_nil_iff in E. congruence.
  - unfold len. cbn [List.length]. lia.
Qed.

End TrimFacts.

(** ** The schemas, field by field *)

Section SchemaFacts.

Import Schemas Terms.

Lemma eqb_eq (a b : str) : PyStr.eqb a b = true <-> a = b.
Proof.
  unfold PyStr.eqb. destruct (list_eq_dec N.eq_dec a b); split;
    congruence.
Qed.

Lemma priority_of_value_iff (v : str) (p : PriorityEnum) :
  PriorityEnum_of_value v = Some p <-> v = PriorityEnum_value p.
Proof.
  unfold PriorityEnum_of_value. split.
  - intros H. apply find_some in H. destruct H as [_ H].
    apply eqb_eq in H. congruence.
  - intros ->. destruct p; reflexivity.
Qed.

Lemma status_of_value_iff (v : str) (st : StatusEnum) :
  StatusEnum_of_value v = Some st <-> v = StatusEnum_value st.
Proof.
  unfold StatusEnum_of_value. split.
  - intros H. apply find_some in H. destruct H as [_ H].
    apply eqb_eq in H. congruence.
  - intros ->. destruct st; reflexivity.
Qed.

Lemma check_length_inr (lo hi : Z) (s r : str) :
  check_length lo hi s = inr r <-> r = s /\ lo <= len s <= hi.
Proof.
  unfold check_length.
  destruct (len s <? lo) eqn:E1; [apply Z.ltb_lt in E1|apply Z.ltb_ge in E1];
    [split; [discriminate|lia]|].
  destruct (hi <? len s) eqn:E2; [apply Z.ltb_lt in E2|apply Z.ltb_ge in E2];
    [split; [discriminate|lia]|].
  split; [intros H; injection H as <-; split; [reflexivity|lia]|].
  intros [-> _]. reflexivity.
Qed.

Lemma TaskBase_title_inr (f : field str) (t : str) :
  TaskBase_title f = inr t <->
  exists s, f = Value s /\ 3 <= len s <= 200 /\ all_space s = false /\
            t = strip s.
Proof.
  destruct f as [| |s].
  - split; [discriminate|]. intros [s [H _]]. discriminate.
  - split; [discriminate|]. intros [s [H _]]. discriminate.
  - rewrite TaskBase_title_spec.
    destruct (len s <? 3) eqn:E1;
      [apply Z.ltb_lt in E1|apply Z.ltb_ge in E1].
    { split; [discriminate|]. intros [s' [H [H1 _]]].
      injection H as <-. lia. }
    destruct (200 <? len s) eqn:E2;
      [apply Z.ltb_lt in E2|apply Z.ltb_ge in E2].
    { split; [discriminate|]. intros [s' [H [H1 _]]].
      injection H as <-. lia. }
    destruct (all_space s) eqn:E3.
    { split; [discriminate|]. intros [s' [H [_ [H1 _]]]].
      injection H as <-. congruence. }
    split.
    + intros H. injection H as <-. exists s. repeat split; auto; lia.
    + intros [s' [H [_ [_ ->]]]]. injection H as <-. reflexivity.
Qed.

Lemma TaskBase_description_inr (f : field str) (d : option str) :
  TaskBase_description f = inr d <->
  match f with
  | Value s => len s <= 1000 /\ d = Some (strip s)
  | _ => d = None
  end.
Proof.
  destruct f as [| |s].
  - cbn. split; congruence.
  - cbn. split; congruence.
  - rewrite TaskBase_description_spec.
    destruct (1000 <? len s) eqn:E;
      [apply Z.ltb_lt in E|apply Z.ltb_ge in E].
    + split; [discriminate|]. intros [H _]. lia.
    + split; [intros H; injection H as <-; tauto|].
      intros [_ ->]. reflexivity.
Qed.

Lemma TaskBase_priority_inr (f : field str) (p : PriorityEnum) :
  TaskBase_priority f = inr p <->
  match f with
  | Absent => p = MEDIUM
  | Null => False
  | Value v => v = PriorityEnum_value p
  end.
Proof.
  destruct f as [| |v]; cbn [TaskBase_priority].
  - split; congruence.
  - split; [discriminate|tauto].
  - rewrite <- priority_of_value_iff.
    destruct (PriorityEnum_of_value v); split; congruence.
Qed.

Lemma TaskBase_status_inr (f : field str) (st : StatusEnum) :
  TaskBase_status f = inr st <->
  match f with
  | Absent => st = TODO
  | Null => False
  | Value v => v = StatusEnum_value st
  end.
Proof.
  destruct f as [| |v]; cbn [TaskBase_status].
  - split; congruence.
  - split; [discriminate|tauto].
  - rewrite <- status_of_value_iff.
    destruct (StatusEnum_of_value v); split; congruence.
Qed.

(** A create payload is accepted exactly when each field is, and the
    accepted task carries the results of the fields. *)
Lemma validate_TaskCreate_iff (p : Payload) (task : TaskCreate) :
  validate_TaskCreate p = Accepted task <->
  TaskBase_title (p_title p) = inr (title task) /\
  TaskBase_description (p_description p) = inr (description task) /\
  TaskBase_priority (p_priority p) = inr (priority task) /\
  TaskBase_status (p_status p) = inr (status task) /\
  TaskBase_due_date (p_due_date p) = inr (due_date task).
Proof.
  unfold validate_TaskCreate.
  destruct (TaskBase_title (p_title p)),
    (TaskBase_description (p_description p)),
    (TaskBase_priority (p_priority p)),
    (TaskBase_status (p_status p)),
    (TaskBase_due_date (p_due_date p));
    (split; [try discriminate|intros (? & ? & ? & ? & ?); try discriminate]).
  - intros H. injection H as <-. cbn. tauto.
  - destruct task. cbn in *. congruence.
Qed.

Lemma TaskUpdate_str_inr (lo hi : Z) (f r : field str) :
  TaskUpdate_str lo hi f = inr r <->
  r = f /\ match f with Value s => lo <= len s <= hi | _ => True end.
Proof.
  destruct f as [| |s]; cbn.
  - split; [intros H; injection H as <-; tauto|intros [-> _]; reflexivity].
  - split; [intros H; injection H as <-; tauto|intros [-> _]; reflexivity].
  - unfold and_then. destruct (check_length lo hi s) as [e|s'] eqn:E.
    + split; [discriminate|]. intros [_ H].
      assert (E' : check_length lo hi s = inr s)
        by (apply check_length_inr; tauto).
      congruence.
    + apply check_length_inr in E. destruct E as [-> E].
      split; [intros H; injection H as <-; tauto|intros [-> _]; reflexivity].
Qed.

Lemma TaskUpdate_priority_inr (f : field str) (r : field PriorityEnum) :
  TaskUpdate_priority f = inr r <->
  r = parsed PriorityEnum_of_value f /\ update_priority_ok f.
Proof.
  destruct f as [| |v]; cbn [TaskUpdate_priority parsed update_priority_ok update_status_ok].
  - split; [intros H; injection H as <-; tauto|intros [-> _]; reflexivity].
  - split; [intros H; injection H as <-; tauto|intros [-> _]; reflexivity].
  - destruct (PriorityEnum_of_value v) as [p|] eqn:E.
    + split; [intros H; injection H as <-; split; [reflexivity|];
              exists p; apply priority_of_value_iff; exact E
             |intros [-> _]; reflexivity].
    + split; [discriminate|]. intros [_ [p H]].
      apply priority_of_value_iff in H. congruence.
Qed.

Lemma TaskUpdate_status_inr (f : field str) (r : field StatusEnum) :
  TaskUpdate_status f = inr r <->
  r = parsed StatusEnum_of_value f /\ update_status_ok f.
Proof.
  destruct f as [| |v]; cbn [TaskUpdate_status parsed update_priority_ok update_status_ok].
  - split; [intros H; injection H as <-; tauto|intros [-> _]; reflexivity].
  - split; [intros H; injection H as <-; tauto|intros [-> _]; reflexivity].
  - destruct (StatusEnum_of_value v) as [st|] eqn:E.
    + split; [intros H; injection H as <-; split; [reflexivity|];
              exists st; apply status_of_value_iff; exact E
             |intros [-> _]; reflexivity].
    + split; [discriminate|]. intros [_ [st H]].
      apply status_of_value_iff in H. congruence.
Qed.

Lemma TaskBase_due_date_inr (f : field raw_datetime) (d : option Z) :
  TaskBase_due_date f = inr d <->
  due_date_ok f /\
  match f with
  | Value (Instant z) => d = Some z
  | _ => d = None
  end.
Proof.
  destruct f as [| |[z|text]]; cbn; split; try tauto; try congruence.
  - intros H. split; [exact I|congruence].
  - intros [_ ->]. reflexivity.
  - intros H. split; [exact I|congruence].
  - intros [_ ->]. reflexivity.
  - intros H. split; [exact I|congruence].
  - intros [_ ->]. reflexivity.
Qed.

Lemma TaskUpdate_due_date_inr (f : field raw_datetime) (r : field Z) :
  TaskUpdate_due_date f = inr r <-> f = as_supplied r.
Proof.
  destruct f as [| |[z|text]], r as [| |d]; cbn; split; congruence.
Qed.

Lemma validate_TaskUpdate_iff (p : Payload) (u : TaskUpdate) :
  validate_TaskUpdate p = Accepted u <->
  TaskUpdate_str 3 200 (p_title p) = inr (u_title u) /\
  TaskUpdate_str 0 1000 (p_description p) = inr (u_description u) /\
  TaskUpdate_priority (p_priority p) = inr (u_priority u) /\
  TaskUpdate_status (p_status p) = inr (u_status u) /\
  TaskUpdate_due_date (p_due_date p) = inr (u_due_date u).
Proof.
  unfold validate_TaskUpdate.
  destruct (TaskUpdate_str 3 200 (p_title p)),
    (TaskUpdate_str 0 1000 (p_description p)),
    (TaskUpdate_priority (p_priority p)),
    (TaskUpdate_status (p_status p)),
    (TaskUpdate_due_date (p_due_date p));
    (split; [try discriminate|intros (? & ? & ? & ? & ?); try discriminate]).
  - intros H. injection H as <-. cbn. tauto.
  - destruct u. cbn in *. congruence.
Qed.

End SchemaFacts.

(** ** The response schema *)

Section ResponseFacts.

Import Models Schemas Response.

Lemma model_validate_iff (t : Task) (r : TaskResponse) :
  model_validate t = Accepted r <->
  TaskBase_title (Value (Models.title t)) = inr (r_title r) /\
  TaskBase_description (attribute (Models.description t)) = inr (r_description r) /\
  r_priority r = Models.priority t /\ r_status r = Models.status t /\
  r_due_date r = Models.due_date t /\ r_id r = id t /\
  r_created_at r = created_at t /\ r_updated_at r = updated_at t.
Proof.
  unfold model_validate.
  destruct (TaskBase_title (Value (Models.title t))),
    (TaskBase_description (attribute (Models.description t)));
    (split; [try discriminate
            |intros (? & ? & ? & ? & ? & ? & ? & ?); try discriminate]).
  - intros H. injection H as <-. cbn. tauto.
  - destruct r. cbn in *. congruence.
Qed.

(** A list passes when each of its rows does. *)
Lemma model_validate_all_accepted (rows : list Task) (os : list TaskResponse) :
  model_validate_all rows = Accepted os <-> Terms.all_pass rows os.
Proof.
  unfold Terms.all_pass. revert os.
  induction rows as [|t rows IH]; intros os; cbn [model_validate_all].
  - split; intros H; [injection H as <-; constructor|].
    inversion H. reflexivity.
  - destruct (model_validate t) as [r|e] eqn:Et,
      (model_validate_all rows) as [rs|es] eqn:Er; split;
      try discriminate; intros H.
    + injection H as <-. constructor; [exact Et|apply IH; reflexivity].
    + inversion H as [|? o ? os' Ho Hos]; subst.
      apply IH in Hos. congruence.
    + inversion H as [|? o ? os' Ho Hos]; subst.
      apply IH in Hos. discriminate.
    + inversion H as [|? o ? os' Ho Hos]; subst. congruence.
    + inversion H as [|? o ? os' Ho Hos]; subst. congruence.
Qed.

(** A list is refused when one of its rows is. *)
Lemma model_validate_all_rejected (rows : list Task) :
  (exists es, model_validate_all rows = Rejected es) <->
  Terms.some_refused rows.
Proof.
  unfold Terms.some_refused.
  induction rows as [|t rows IH]; cbn [model_validate_all].
  - split; [intros [es H]; discriminate|intros [t [[] _]]].
  - destruct (model_validate t) as [r|e] eqn:Et,
      (model_validate_all rows) as [rs|es] eqn:Er; split.
    + intros [es H]. discriminate.
    + intros [x [[<-|Hx] Hn]]; [elim (Hn r); exact Et|].
      assert (H : exists es, Accepted rs = Rejected es)
        by (apply IH; exists x; tauto).
      destruct H as [es H]. discriminate.
    + intros _. destruct (proj1 IH (ex_intro _ es eq_refl)) as [x [Hx Hn]].
      exists x. split; [right; exact Hx|exact Hn].
    + intros _. eexists. reflexivity.
    + intros _. exists t. split; [left; reflexivity|]. congruence.
    + intros _. eexists. reflexivity.
    + intros _. exists t. split; [left; reflexivity|]. congruence.
    + intros _. eexists. reflexivity.
Qed.

Lemma all_pass_length (rows : list Task) (os : list TaskResponse) :
  Terms.all_pass rows os -> List.length os = List.length rows.
Proof. intros H. symmetry. exact (Forall2_length H). Qed.

(** What passes shows the stored status and priority. *)
Lemma all_pass_in (rows : list Task) (os : list TaskResponse)
    (o : TaskResponse) :
  Terms.all_pass rows os -> In o os ->
  exists t, In t rows /\ r_status o = Models.status t /\
            r_priority o = Models.priority t /\ r_id o = id t.
Proof.
  unfold Terms.all_pass. intros H. induction H as [|t o' rows os Ho H IH].
  - intros [].
  - intros [<-|Hin].
    + exists t. apply model_validate_iff in Ho.
      split; [left; reflexivity|tauto].
    + destruct (IH Hin) as [x [Hx Hr]]. exists x.
      split; [right; exact Hx|exact Hr].
Qed.

End ResponseFacts.

(** X1.  A create payload is accepted exactly when its title is a
    string of 3 to 200 characters that is not all white space, its
    description is absent, null or at most 1000 characters long, its
    priority and status are each absent or the value of a member of
    the enumeration, and its due date is absent, null or a date and
    time that can be read. *)
Theorem validate_TaskCreate_accepts_iff :
  forall p : Schemas.Payload,
    (exists task, Schemas.validate_TaskCreate p = Schemas.Accepted task) <->
    Terms.title_ok (Schemas.p_title p) /\
    Terms.description_ok (Schemas.p_description p) /\
    Terms.priority_ok (Schemas.p_priority p) /\
    Terms.status_ok (Schemas.p_status p) /\
    Terms.due_date_ok (Schemas.p_due_date p).
Proof.
  intros p. split.
  - intros [task H]. apply validate_TaskCreate_iff in H.
    destruct H as (Ht & Hd & Hp & Hs & Hdu).
    apply TaskBase_title_inr in Ht. apply TaskBase_description_inr in Hd.
    apply TaskBase_priority_inr in Hp. apply TaskBase_status_inr in Hs.
    apply TaskBase_due_date_inr in Hdu.
    split; [|split; [|split; [|split; [|exact (proj1 Hdu)]]]].
    + destruct Ht as [s [H1 [H2 [H3 _]]]]. exists s. tauto.
    + unfold Terms.description_ok.
      destruct (Schemas.p_description p); tauto.
    + unfold Terms.priority_ok.
      destruct (Schemas.p_priority p); try tauto. eexists; exact Hp.
    + unfold Terms.status_ok.
      destruct (Schemas.p_status p); try tauto. eexists; exact Hs.
  - intros ([s [Ht [Hl Hv]]] & Hd & Hp & Hs & Hdu).
    assert (Hp' : exists pr,
               Schemas.TaskBase_priority (Schemas.p_priority p) = inr pr).
    { unfold Terms.priority_ok in Hp.
      destruct (Schemas.p_priority p) as [| |v] eqn:E.
      - exists MEDIUM. reflexivity.
      - destruct Hp.
      - destruct Hp as [pr Hpr]. exists pr.
        apply TaskBase_priority_inr. exact Hpr. }
    assert (Hs' : exists st,
               Schemas.TaskBase_status (Schemas.p_status p) = inr st).
    { unfold Terms.status_ok in Hs.
      destruct (Schemas.p_status p) as [| |v] eqn:E.
      - exists TODO. reflexivity.
      - destruct Hs.
      - destruct Hs as [st Hst]. exists st.
        apply TaskBase_status_inr. exact Hst. }
    assert (Hd' : exists d,
               Schemas.TaskBase_description (Schemas.p_description p) = inr d).
    { unfold Terms.description_ok in Hd.
      destruct (Schemas.p_description p) as [| |d] eqn:E.
      - exists None. reflexivity.
      - exists None. reflexivity.
      - exists (Some (strip d)). apply TaskBase_description_inr. tauto. }
    destruct Hp' as [pr Hpr]. destruct Hs' as [st Hst].
    destruct Hd' as [d Hdd].
    destruct (Schemas.TaskBase_due_date (Schemas.p_due_date p)) as [e|du] eqn:Edu;
      [destruct (Schemas.p_due_date p) as [| |[z|text]];
       [discriminate|discriminate|discriminate|destruct Hdu]|].
    exists {| Schemas.title := strip s; Schemas.description := d;
              Schemas.priority := pr; Schemas.status := st;
              Schemas.due_date := du |}.
    apply validate_TaskCreate_iff. cbn.
    split; [|tauto]. apply TaskBase_title_inr. exists s. tauto.
Qed.

(** X2.  What an accepted create payload stores: the title is the
    supplied title with the white space at both ends removed, it has no
    white space at either end and between 1 and 200 characters (the
    bound 3 applies before trimming); the description, when supplied,
    is trimmed likewise and at most 1000 characters long; an absent
    priority becomes medium and an absent status becomes todo. *)
Theorem created_task_is_trimmed :
  forall (p : Schemas.Payload) (task : Schemas.TaskCreate),
    Schemas.validate_TaskCreate p = Schemas.Accepted task ->
    (exists s a b,
        Schemas.p_title p = Schemas.Value s /\
        s = a ++ Schemas.title task ++ b /\
        all_space a = true /\ all_space b = true) /\
    Terms.trimmed (Schemas.title task) /\
    1 <= len (Schemas.title task) <= 200 /\
    match Schemas.description task with
    | Some d =>
        Terms.trimmed d /\ len d <= 1000 /\
        exists s a b, Schemas.p_description p = Schemas.Value s /\
                      s = a ++ d ++ b /\
                      all_space a = true /\ all_space b = true
    | None => True
    end /\
    (Schemas.p_priority p = Schemas.Absent ->
     Schemas.priority task = MEDIUM) /\
    (Schemas.p_status p = Schemas.Absent -> Schemas.status task = TODO).
Proof.
  intros p task H. apply validate_TaskCreate_iff in H.
  destruct H as (Ht & Hd & Hp & Hs & _).
  apply TaskBase_title_inr in Ht. apply TaskBase_description_inr in Hd.
  apply TaskBase_priority_inr in Hp. apply TaskBase_status_inr in Hs.
  destruct Ht as [s [H1 [H2 [H3 H4]]]]. rewrite H4.
  split; [|split; [|split; [|split; [|split]]]].
  - destruct (strip_split s) as [a [b Hab]]. exists s, a, b. tauto.
  - apply strip_trimmed.
  - assert (Hle := len_strip_le s). assert (Hpos := len_strip_pos s H3). lia.
  - destruct (Schemas.p_description p) as [| |d] eqn:E.
    + rewrite Hd. exact I.
    + rewrite Hd. exact I.
    + destruct Hd as [Hl ->]. split; [apply strip_trimmed|].
      split; [assert (Hle := len_strip_le d); lia|].
      destruct (strip_split d) as [a [b Hab]]. exists d, a, b. tauto.
  - intros E. rewrite E in Hp. exact Hp.
  - intros E. rewrite E in Hs. exact Hs.
Qed.

Lemma created_task_is_trimmed_witness :
  Schemas.validate_TaskCreate full_payload
  = Schemas.Accepted
      {| Schemas.title := of_string "Write tests";
         Schemas.description := Some (of_string "pytest");
         Schemas.priority := HIGH; Schemas.status := TODO;
         Schemas.due_date := Some 20 |}
  /\ Terms.trimmed (of_string "Write tests")
  /\ 1 <= len (of_string "Write tests") <= 200.
Proof.
  split; [reflexivity|].
  destruct (created_task_is_trimmed full_payload
              {| Schemas.title := of_string "Write tests";
                 Schemas.description := Some (of_string "pytest");
                 Schemas.priority := HIGH; Schemas.status := TODO;
                 Schemas.due_date := Some 20 |} eq_refl)
    as (_ & H1 & H2 & _).
  split; [exact H1|exact H2].
Defined.

(** X4.  The value of an enumeration member and the lookup of a member
    by value are inverse to each other, for priorities and for
    statuses: a string names a member exactly when it is that member's
    value. *)
Theorem enum_values_round_trip :
  (forall (v : str) (p : PriorityEnum),
      PriorityEnum_of_value v = Some p <-> v = PriorityEnum_value p) /\
  (forall (v : str) (st : StatusEnum),
      StatusEnum_of_value v = Some st <-> v = StatusEnum_value st).
Proof.
  split; [exact priority_of_value_iff|exact status_of_value_iff].
Qed.

(** X5.  An update payload is accepted exactly when its title, if a
    string, has 3 to 200 characters, its description, if a string, has
    at most 1000, its priority and status, if strings, are values of
    members, and its due date, if given, is a date and time that can be
    read; absent and null fields are always accepted. *)
Theorem validate_TaskUpdate_accepts_iff :
  forall p : Schemas.Payload,
    (exists u, Schemas.validate_TaskUpdate p = Schemas.Accepted u) <->
    Terms.update_title_ok (Schemas.p_title p) /\
    Terms.description_ok (Schemas.p_description p) /\
    Terms.update_priority_ok (Schemas.p_priority p) /\
    Terms.update_status_ok (Schemas.p_status p) /\
    Terms.due_date_ok (Schemas.p_due_date p).
Proof.
  intros p. split.
  - intros [u H]. apply validate_TaskUpdate_iff in H.
    destruct H as (Ht & Hd & Hp & Hs & Hdu).
    apply TaskUpdate_str_inr in Ht. apply TaskUpdate_str_inr in Hd.
    apply TaskUpdate_priority_inr in Hp. apply TaskUpdate_status_inr in Hs.
    apply TaskUpdate_due_date_inr in Hdu.
    assert (Hok : Terms.due_date_ok (Schemas.p_due_date p)).
    { rewrite Hdu. destruct (Schemas.u_due_date u); exact I. }
    unfold Terms.update_title_ok, Terms.description_ok.
    destruct (Schemas.p_title p), (Schemas.p_description p);
      repeat split; try tauto; lia.
  - intros (Ht & Hd & Hp & Hs & Hdu).
    assert (Hdu' : exists du,
               Schemas.p_due_date p = Terms.as_supplied du).
    { destruct (Schemas.p_due_date p) as [| |[z|text]].
      - exists Schemas.Absent. reflexivity.
      - exists Schemas.Null. reflexivity.
      - exists (Schemas.Value z). reflexivity.
      - destruct Hdu. }
    destruct Hdu' as [du Edu].
    exists {| Schemas.u_title := Schemas.p_title p;
              Schemas.u_description := Schemas.p_description p;
              Schemas.u_priority :=
                Terms.parsed PriorityEnum_of_value (Schemas.p_priority p);
              Schemas.u_status :=
                Terms.parsed StatusEnum_of_value (Schemas.p_status p);
              Schemas.u_due_date := du |}.
    apply validate_TaskUpdate_iff. cbn.
    split; [apply TaskUpdate_str_inr; split; [reflexivity|exact Ht]|].
    split; [apply TaskUpdate_str_inr; split; [reflexivity|]|].
    { unfold Terms.description_ok in Hd.
      destruct (Schemas.p_description p); try exact I.
      assert (H0 := len_nonneg a). lia. }
    split; [apply TaskUpdate_priority_inr; tauto|].
    split; [apply TaskUpdate_status_inr; tauto|].
    apply TaskUpdate_due_date_inr. exact Edu.
Qed.

(** X6.  An accepted update payload is kept as supplied: title,
    description and due date are carried over unchanged, with no
    trimming, an absent field stays absent and a null field stays null,
    and priority and status are the members their values name. *)
Theorem accepted_update_is_verbatim :
  forall (p : Schemas.Payload) (u : Schemas.TaskUpdate),
    Schemas.validate_TaskUpdate p = Schemas.Accepted u ->
    Schemas.u_title u = Schemas.p_title p /\
    Schemas.u_description u = Schemas.p_description p /\
    Schemas.p_due_date p = Terms.as_supplied (Schemas.u_due_date u) /\
    Schemas.u_priority u
      = Terms.parsed PriorityEnum_of_value (Schemas.p_priority p) /\
    Schemas.u_status u
      = Terms.parsed StatusEnum_of_value (Schemas.p_status p).
Proof.
  intros p u H. apply validate_TaskUpdate_iff in H.
  destruct H as (Ht & Hd & Hp & Hs & Hdu).
  apply TaskUpdate_str_inr in Ht. apply TaskUpdate_str_inr in Hd.
  apply TaskUpdate_priority_inr in Hp. apply TaskUpdate_status_inr in Hs.
  apply TaskUpdate_due_date_inr in Hdu.
  repeat split; tauto.
Qed.

Lemma accepted_update_is_verbatim_witness :
  Schemas.validate_TaskUpdate full_payload
  = Schemas.Accepted
      {| Schemas.u_title := Schemas.Value (of_string "  Write tests ");
         Schemas.u_description := Schemas.Value (of_string " pytest ");
         Schemas.u_priority := Schemas.Value HIGH;
         Schemas.u_status := Schemas.Absent;
         Schemas.u_due_date := Schemas.Value 20 |}
  /\ Schemas.Value (of_string "  Write tests ")
     = Schemas.p_title full_payload.
Proof.
  split; [reflexivity|].
  apply (proj1 (accepted_update_is_verbatim full_payload
                  {| Schemas.u_title := Schemas.Value (of_string "  Write tests ");
                     Schemas.u_description := Schemas.Value (of_string " pytest ");
                     Schemas.u_priority := Schemas.Value HIGH;
                     Schemas.u_status := Schemas.Absent;
                     Schemas.u_due_date := Schemas.Value 20 |} eq_refl)).
Defined.

(** ** Listings *)

Section ListingFacts.

Import Models Orm Expected Terms.

Lemma StatusEnum_eqb_eq (a b : StatusEnum) :
  StatusEnum_eqb a b = true <-> a = b.
Proof. destruct a, b; cbn; split; congruence. Qed.

Lemma PriorityEnum_eqb_eq (a b : PriorityEnum) :
  PriorityEnum_eqb a b = true <-> a = b.
Proof. destruct a, b; cbn; split; congruence. Qed.

Lemma in_apply_filters (st : option StatusEnum) (pr : option PriorityEnum)
    (rows : list Task) (t : Task) :
  In t (Crud.apply_filters st pr rows) <-> In t rows /\ matches st pr t.
Proof.
  unfold Crud.apply_filters, matches.
  destruct st as [st|], pr as [pr|];
    rewrite ?filter_In, ?StatusEnum_eqb_eq, ?PriorityEnum_eqb_eq; tauto.
Qed.

Lemma in_insert_desc (t x : Task) (rows : list Task) :
  In x (insert_desc t rows) <-> x = t \/ In x rows.
Proof.
  induction rows as [|r rows IH]; cbn [insert_desc].
  - cbn. intuition congruence.
  - destruct (created_at r <=? created_at t); cbn [In]; [intuition congruence|].
    rewrite IH. intuition congruence.
Qed.

Lemma insert_desc_perm (t : Task) (rows : list Task) :
  Permutation (insert_desc t rows) (t :: rows).
Proof.
  induction rows as [|r rows IH]; cbn [insert_desc]; [apply Permutation_refl|].
  destruct (created_at r <=? created_at t); [apply Permutation_refl|].
  apply perm_trans with (r :: t :: rows);
    [apply perm_skip; exact IH|apply perm_swap].
Qed.

Lemma order_by_perm (rows : list Task) :
  Permutation (order_by_created_at_desc rows) rows.
Proof.
  unfold order_by_created_at_desc.
  induction rows as [|r rows IH]; cbn [fold_right]; [apply perm_nil|].
  apply perm_trans with (r :: fold_right insert_desc [] rows);
    [apply insert_desc_perm|apply perm_skip; exact IH].
Qed.

Lemma insert_desc_sorted (t : Task) (rows : list Task) :
  newest_first rows -> newest_first (insert_desc t rows).
Proof.
  unfold newest_first.
  induction rows as [|r rows IH]; intros H; cbn [insert_desc].
  - constructor; constructor.
  - inversion H as [|? ? Hs Hf]; subst.
    destruct (created_at r <=? created_at t) eqn:E.
    + apply Z.leb_le in E. constructor; [exact H|].
      constructor; [lia|].
      rewrite Forall_forall in *. intros x Hx. specialize (Hf x Hx). lia.
    + apply Z.leb_gt in E. constructor; [apply IH; exact Hs|].
      rewrite Forall_forall in *. intros x Hx.
      apply in_insert_desc in Hx. destruct Hx as [->|Hx];
        [lia|apply Hf; exact Hx].
Qed.

Lemma order_by_sorted (rows : list Task) :
  newest_first (order_by_created_at_desc rows).
Proof.
  unfold order_by_created_at_desc.
  induction rows as [|r rows IH]; cbn [fold_right].
  - constructor.
  - apply insert_desc_sorted. exact IH.
Qed.

(** A page holds rows of the list it is cut from. *)
Lemma in_firstn_in (n : nat) :
  forall (l : list Task) (x : Task), In x (firstn n l) -> In x l.
Proof.
  induction n as [|n IH]; intros [|r l] x; cbn [firstn In]; try tauto.
  intros [Hx|Hx]; [left; exact Hx|right; apply IH; exact Hx].
Qed.

Lemma in_skipn_in (n : nat) :
  forall (l : list Task) (x : Task), In x (skipn n l) -> In x l.
Proof.
  induction n as [|n IH]; intros [|r l] x; cbn [skipn In]; try tauto.
  intros Hx. right. apply IH. exact Hx.
Qed.

Lemma firstn_sorted (n : nat) (l : list Task) :
  newest_first l -> newest_first (firstn n l).
Proof.
  unfold newest_first. revert l.
  induction n as [|n IH]; intros l H; [constructor|].
  destruct l as [|r l]; [constructor|]. cbn [firstn].
  inversion H as [|? ? Hs Hf]; subst. constructor; [apply IH; exact Hs|].
  rewrite Forall_forall in *. intros x Hx. apply Hf.
  apply (in_firstn_in n l x Hx).
Qed.

Lemma skipn_sorted (n : nat) (l : list Task) :
  newest_first l -> newest_first (skipn n l).
Proof.
  unfold newest_first. revert l.
  induction n as [|n IH]; intros l H; [exact H|].
  destruct l as [|r l]; [constructor|]. cbn [skipn].
  inversion H; subst. apply IH. assumption.
Qed.

Lemma offset_limit_length (skip limit : nat) (rows : list Task) :
  List.length (offset_limit skip limit rows)
  = Nat.min limit (List.length rows - skip).
Proof.
  unfold offset_limit. rewrite length_firstn, length_skipn. reflexivity.
Qed.

Lemma get_all_tasks_run (env : Env) (s : Session) (skip limit : nat)
    (st : option StatusEnum) (pr : option PriorityEnum) :
  answers env ->
  Crud.get_all_tasks skip limit st pr env s
  = (Ok (offset_limit skip limit
           (order_by_created_at_desc
              (Crud.apply_filters st pr (store s)))), s).
Proof.
  unfold answers, Crud.get_all_tasks, execute.
  destruct (failure env); intros H; try reflexivity. destruct H.
Qed.

Lemma get_tasks_count_run (env : Env) (s : Session)
    (st : option StatusEnum) (pr : option PriorityEnum) :
  answers env ->
  Crud.get_tasks_count st pr env s
  = (Ok (List.length (Crud.apply_filters st pr (store s))), s).
Proof.
  unfold answers, Crud.get_tasks_count, bind, ret, execute.
  destruct (failure env); intros H; try (destruct H);
    destruct (List.length _); reflexivity.
Qed.

Lemma get_overdue_tasks_run (env : Env) (s : Session) :
  answers env ->
  Crud.get_overdue_tasks env s
  = (Ok (filter (fun r => Crud.due_before (now env) r
                    && negb (StatusEnum_eqb (status r) COMPLETED)
                    && negb (StatusEnum_eqb (status r) CANCELLED))
                (store s)), s).
Proof.
  unfold answers, Crud.get_overdue_tasks, bind, utcnow, execute.
  destruct (failure env); intros H; try reflexivity. destruct H.
Qed.

Lemma count_status_total (rows : list Task) :
  (count_status TODO rows + count_status IN_PROGRESS rows
   + count_status COMPLETED rows + count_status CANCELLED rows
   = List.length rows)%nat.
Proof.
  unfold count_status. induction rows as [|t rows IH]; [reflexivity|].
  cbn [filter]. destruct (status t); cbn [StatusEnum_eqb List.length]; lia.
Qed.

Lemma count_priority_total (rows : list Task) :
  (count_priority URGENT rows + count_priority HIGH rows
   + count_priority MEDIUM rows + count_priority LOW rows
   = List.length rows)%nat.
Proof.
  unfold count_priority. induction rows as [|t rows IH]; [reflexivity|].
  cbn [filter].
  destruct (priority t); cbn [PriorityEnum_eqb List.length]; lia.
Qed.

Lemma overdue_at_most_open (clock : Z) (rows : list Task) :
  (List.length
     (filter (fun r => Crud.due_before clock r
                 && negb (StatusEnum_eqb (status r) COMPLETED)
                 && negb (StatusEnum_eqb (status r) CANCELLED)) rows)
   <= count_status TODO rows + count_status IN_PROGRESS rows)%nat.
Proof.
  unfold count_status. induction rows as [|t rows IH]; [cbn; lia|].
  cbn [filter].
  destruct (Crud.due_before clock t), (status t);
    cbn [StatusEnum_eqb negb andb List.length]; lia.
Qed.

End ListingFacts.

(** C5.  A list request the API layer accepts (skip at least 0, limit
    between 1 and 100) reads, when the store answers, the tasks that
    pass the filters, newest first, drops the first [skip] of them and
    keeps the next [limit]: the page number plays no part.  When a
    response is built its page is skip // limit + 1, its tasks are
    those rows as the response schema shows them, its total the count
    for the filters and its page size the limit.  A response is built
    exactly when every row of the page passes the response schema;
    otherwise building the [TaskList] raises. *)
Theorem get_tasks_page_from_skip_and_limit :
  forall (env : Orm.Env) (s : Orm.Session) (skip limit : Z)
         (status_ : option StatusEnum) (priority_ : option PriorityEnum),
    Expected.answers env ->
    0 <= skip -> 1 <= limit <= 100 ->
    exists full rows,
      Permutation full (Crud.apply_filters status_ priority_ (Orm.store s)) /\
      (forall t, In t full <->
                 In t (Orm.store s) /\ Terms.matches status_ priority_ t) /\
      Terms.newest_first full /\
      rows = firstn (Z.to_nat limit) (skipn (Z.to_nat skip) full) /\
      Crud.get_all_tasks (Z.to_nat skip) (Z.to_nat limit)
                         status_ priority_ env s = (Orm.Ok rows, s) /\
      (forall os,
          Terms.all_pass rows os ->
          Routes.get_tasks skip limit status_ priority_ env s
          = (Orm.Ok (Routes.Response 200
                       {| Routes.tasks := os;
                          Routes.total := List.length full;
                          Routes.page := skip / limit + 1;
                          Routes.page_size := limit |}), s)) /\
      (Terms.some_refused rows ->
       Routes.get_tasks skip limit status_ priority_ env s
       = (Orm.Raise Orm.ValidationError, s)) /\
      (forall code body s',
          Routes.get_tasks skip limit status_ priority_ env s
          = (Orm.Ok (Routes.Response code body), s') ->
          Routes.page body = skip / limit + 1 /\
          Terms.all_pass rows (Routes.tasks body)).
Proof.
  intros env s skip limit st pr Hans Hs [Hl1 Hl2].
  exists (Orm.order_by_created_at_desc
            (Crud.apply_filters st pr (Orm.store s))).
  eexists.
  split; [apply order_by_perm|].
  split.
  { intros t. rewrite <- in_apply_filters. split; intros H.
    - apply (Permutation_in _ (order_by_perm _)). exact H.
    - apply (Permutation_in _ (Permutation_sym (order_by_perm _))). exact H. }
  split; [apply order_by_sorted|].
  split; [reflexivity|].
  split; [apply get_all_tasks_run; exact Hans|].
  assert (Hq : Routes.query_params_ok skip limit = true).
  { unfold Routes.query_params_ok.
    rewrite !andb_true_iff, !Z.leb_le. tauto. }
  unfold Routes.get_tasks. rewrite Hq. unfold Orm.bind.
  rewrite get_all_tasks_run, get_tasks_count_run by exact Hans.
  unfold Routes.TaskList_init, Orm.offset_limit.
  rewrite order_by_length.
  split; [|split].
  - intros os Hos. apply model_validate_all_accepted in Hos.
    rewrite Hos. reflexivity.
  - intros Href. apply model_validate_all_rejected in Href.
    destruct Href as [es Hes]. rewrite Hes. reflexivity.
  - intros code body s' H.
    destruct (Response.model_validate_all _) as [os|es] eqn:E;
      [|discriminate].
    apply model_validate_all_accepted in E.
    cbn in H. injection H as <- <- <-. split; [reflexivity|exact E].
Qed.

Lemma get_tasks_page_from_skip_and_limit_witness :
  Expected.answers (calm 10) /\ 0 <= 1 /\ 1 <= 1 <= 100 /\
  Routes.get_tasks 1 1 None None (calm 10) (Orm.open board)
  = (Orm.Ok (Routes.Response 200
               {| Routes.tasks :=
                    [ {| Response.r_title := of_string "abc";
                         Response.r_description := None;
                         Response.r_priority := MEDIUM;
                         Response.r_status := TODO;
                         Response.r_due_date := Some 8;
                         Response.r_id := 1;
                         Response.r_created_at := 5;
                         Response.r_updated_at := 5 |} ];
                  Routes.total := 2;
                  Routes.page := 2;
                  Routes.page_size := 1 |}), Orm.open board).
Proof.
  split; [exact I|]. split; [lia|]. split; [lia|].
  destruct (get_tasks_page_from_skip_and_limit
              (calm 10) (Orm.open board) 1 1 None None I
              ltac:(lia) ltac:(lia))
    as (full & rows & Hperm & _ & _ & _ & Hget & Hok & _ & _).
  assert (Hrows : rows = [row1]).
  { rewrite get_all_tasks_run in Hget by exact I.
    injection Hget as <-. reflexivity. }
  apply Permutation_length in Hperm. cbn in Hperm.
  rewrite <- Hperm. apply Hok. rewrite Hrows.
  constructor; [reflexivity|constructor].
Defined.

(** X7.  When the store answers, a listing is ordered newest first, and
    every task in it is a stored task that passes the status and
    priority filters. *)
Theorem get_all_tasks_newest_first_and_filtered :
  forall (env : Orm.Env) (s : Orm.Session) (skip limit : nat)
         (status_ : option StatusEnum) (priority_ : option PriorityEnum),
    Expected.answers env ->
    exists l,
      Crud.get_all_tasks skip limit status_ priority_ env s = (Orm.Ok l, s) /\
      Terms.newest_first l /\
      forall t, In t l ->
                In t (Orm.store s) /\ Terms.matches status_ priority_ t.
Proof.
  intros env s skip limit st pr Hans.
  rewrite get_all_tasks_run by exact Hans.
  eexists. split; [reflexivity|]. split.
  - unfold Orm.offset_limit. apply firstn_sorted, skipn_sorted, order_by_sorted.
  - intros t Ht. unfold Orm.offset_limit in Ht.
    apply in_firstn_in, in_skipn_in in Ht.
    apply (Permutation_in _ (order_by_perm _)) in Ht.
    apply in_apply_filters. exact Ht.
Qed.

Lemma get_all_tasks_newest_first_and_filtered_witness :
  Expected.answers (calm 10) /\
  exists l,
    Crud.get_all_tasks 0 5 None (Some HIGH) (calm 10) (Orm.open board)
      = (Orm.Ok l, Orm.open board) /\
    Terms.newest_first l /\
    forall t, In t l ->
              In t (Orm.store (Orm.open board)) /\
              Terms.matches None (Some HIGH) t.
Proof.
  split; [exact I|].
  apply (get_all_tasks_newest_first_and_filtered
           (calm 10) (Orm.open board) 0 5 None (Some HIGH)).
  exact I.
Defined.

(** X8.  With skip 0 and a limit that does not cut it short, the
    listing is a rearrangement of the stored tasks that pass the
    filters: each of them is listed, as often as it is stored, and
    nothing else is. *)
Theorem get_all_tasks_unpaginated_is_all_matching :
  forall (env : Orm.Env) (s : Orm.Session) (limit : nat)
         (status_ : option StatusEnum) (priority_ : option PriorityEnum),
    Expected.answers env ->
    (List.length (Crud.apply_filters status_ priority_ (Orm.store s))
     <= limit)%nat ->
    exists l,
      Crud.get_all_tasks 0 limit status_ priority_ env s = (Orm.Ok l, s) /\
      Permutation l (Crud.apply_filters status_ priority_ (Orm.store s)) /\
      forall t, In t l <->
                In t (Orm.store s) /\ Terms.matches status_ priority_ t.
Proof.
  intros env s limit st pr Hans Hl.
  rewrite get_all_tasks_run by exact Hans.
  rewrite offset_limit_all by (rewrite order_by_length; exact Hl).
  eexists. split; [reflexivity|]. split; [apply order_by_perm|].
  intros t. rewrite <- in_apply_filters. split; intros H.
  - apply (Permutation_in _ (order_by_perm _)). exact H.
  - apply (Permutation_in _ (Permutation_sym (order_by_perm _))). exact H.
Qed.

Lemma get_all_tasks_unpaginated_is_all_matching_witness :
  Expected.answers (calm 10) /\
  (List.length (Crud.apply_filters None None (Orm.store (Orm.open board)))
   <= 100)%nat /\
  exists l,
    Crud.get_all_tasks 0 100 None None (calm 10) (Orm.open board)
      = (Orm.Ok l, Orm.open board) /\
    Permutation l (Crud.apply_filters None None (Orm.store (Orm.open board))) /\
    forall t, In t l <->
              In t (Orm.store (Orm.open board)) /\ Terms.matches None None t.
Proof.
  split; [exact I|]. split; [cbn; lia|].
  apply (get_all_tasks_unpaginated_is_all_matching
           (calm 10) (Orm.open board) 100 None None); [exact I|cbn; lia].
Defined.

(** X9.  When the store answers, a listing holds min(limit, n - skip)
    tasks, n being the count for the same filters: never more than
    limit, and none at all once skip reaches the count. *)
Theorem get_all_tasks_length :
  forall (env : Orm.Env) (s : Orm.Session) (skip limit : nat)
         (status_ : option StatusEnum) (priority_ : option PriorityEnum),
    Expected.answers env ->
    exists n l,
      Crud.get_tasks_count status_ priority_ env s = (Orm.Ok n, s) /\
      Crud.get_all_tasks skip limit status_ priority_ env s = (Orm.Ok l, s) /\
      List.length l = Nat.min limit (n - skip) /\
      ((n <= skip)%nat -> l = []).
Proof.
  intros env s skip limit st pr Hans.
  rewrite get_all_tasks_run, get_tasks_count_run by exact Hans.
  do 2 eexists. split; [reflexivity|]. split; [reflexivity|].
  assert (Hlen : List.length
            (Orm.offset_limit skip limit
               (Orm.order_by_created_at_desc
                  (Crud.apply_filters st pr (Orm.store s))))
          = Nat.min limit
              (List.length (Crud.apply_filters st pr (Orm.store s)) - skip)).
  { rewrite offset_limit_length, order_by_length. reflexivity. }
  split; [exact Hlen|].
  intros Hn. apply length_zero_iff_nil. rewrite Hlen. lia.
Qed.

Lemma get_all_tasks_length_witness :
  Expected.answers (calm 10) /\
  exists n l,
    Crud.get_tasks_count None None (calm 10) (Orm.open board)
      = (Orm.Ok n, Orm.open board) /\
    Crud.get_all_tasks 1 5 None None (calm 10) (Orm.open board)
      = (Orm.Ok l, Orm.open board) /\
    List.length l = Nat.min 5 (n - 1) /\
    ((n <= 1)%nat -> l = []).
Proof.
  split; [exact I|].
  apply (get_all_tasks_length (calm 10) (Orm.open board) 1 5 None None).
  exact I.
Defined.

(** X11.  The listings by status and by priority: a path value that
    names no member, or a skip or limit out of bounds, is answered 422
    whatever the store does.  Otherwise, when the store answers, the
    rows read are those of the listing filtered on that status (or that
    priority), every one of them has it, and the answer is 200 with
    those rows as the response schema shows them, each with that status
    (or priority), when all of them pass; if one of them is refused the
    route raises. *)
Theorem listing_by_status_or_priority :
  forall (env : Orm.Env) (s : Orm.Session) (v : str) (skip limit : Z),
    (StatusEnum_of_value v = None \/ Routes.query_params_ok skip limit = false ->
     Routes.get_tasks_by_status v skip limit env s
     = (Orm.Ok (Routes.HTTPException 422), s)) /\
    (PriorityEnum_of_value v = None \/ Routes.query_params_ok skip limit = false ->
     Routes.get_tasks_by_priority v skip limit env s
     = (Orm.Ok (Routes.HTTPException 422), s)) /\
    (forall st,
        Expected.answers env -> v = StatusEnum_value st ->
        Routes.query_params_ok skip limit = true ->
        exists l,
          Crud.get_all_tasks (Z.to_nat skip) (Z.to_nat limit) (Some st) None
                             env s = (Orm.Ok l, s) /\
          (forall t, In t l -> Models.status t = st) /\
          (forall os,
              Terms.all_pass l os ->
              Routes.get_tasks_by_status v skip limit env s
              = (Orm.Ok (Routes.Response 200 os), s) /\
              forall o, In o os -> Response.r_status o = st) /\
          (Terms.some_refused l ->
           Routes.get_tasks_by_status v skip limit env s
           = (Orm.Raise Orm.ResponseValidationError, s))) /\
    (forall pr,
        Expected.answers env -> v = PriorityEnum_value pr ->
        Routes.query_params_ok skip limit = true ->
        exists l,
          Crud.get_all_tasks (Z.to_nat skip) (Z.to_nat limit) None (Some pr)
                             env s = (Orm.Ok l, s) /\
          (forall t, In t l -> Models.priority t = pr) /\
          (forall os,
              Terms.all_pass l os ->
              Routes.get_tasks_by_priority v skip limit env s
              = (Orm.Ok (Routes.Response 200 os), s) /\
              forall o, In o os -> Response.r_priority o = pr) /\
          (Terms.some_refused l ->
           Routes.get_tasks_by_priority v skip limit env s
           = (Orm.Raise Orm.ResponseValidationError, s))).
Proof.
  intros env s v skip limit. split; [|split; [|split]].
  - unfold Routes.get_tasks_by_status. intros [H|H]; rewrite H;
      [reflexivity|]. destruct (StatusEnum_of_value v); reflexivity.
  - unfold Routes.get_tasks_by_priority. intros [H|H]; rewrite H;
      [reflexivity|]. destruct (PriorityEnum_of_value v); reflexivity.
  - intros st Hans Hv Hq. apply status_of_value_iff in Hv.
    unfold Routes.get_tasks_by_status, Routes.response_model_list,
      Crud.get_tasks_by_status, Orm.bind.
    rewrite Hv, Hq, get_all_tasks_run by exact Hans.
    eexists. split; [reflexivity|].
    assert (Hst : forall t,
      In t (Orm.offset_limit (Z.to_nat skip) (Z.to_nat limit)
              (Orm.order_by_created_at_desc
                 (Crud.apply_filters (Some st) None (Orm.store s)))) ->
      Models.status t = st).
    { intros t Ht. unfold Orm.offset_limit in Ht.
      apply in_firstn_in, in_skipn_in in Ht.
      apply (Permutation_in _ (order_by_perm _)) in Ht.
      apply in_apply_filters in Ht. apply Ht. }
    split; [exact Hst|]. split.
    + intros os Hos. split.
      * apply model_validate_all_accepted in Hos.
        cbn [Orm.ret]. rewrite Hos. reflexivity.
      * intros o Ho. destruct (all_pass_in _ _ o Hos Ho) as [t [Ht [E _]]].
        rewrite E. apply Hst. exact Ht.
    + intros Href. apply model_validate_all_rejected in Href.
      destruct Href as [es Hes]. cbn [Orm.ret]. rewrite Hes. reflexivity.
  - intros pr Hans Hv Hq. apply priority_of_value_iff in Hv.
    unfold Routes.get_tasks_by_priority, Routes.response_model_list,
      Crud.get_tasks_by_priority, Orm.bind.
    rewrite Hv, Hq, get_all_tasks_run by exact Hans.
    eexists. split; [reflexivity|].
    assert (Hpr : forall t,
      In t (Orm.offset_limit (Z.to_nat skip) (Z.to_nat limit)
              (Orm.order_by_created_at_desc
                 (Crud.apply_filters None (Some pr) (Orm.store s)))) ->
      Models.priority t = pr).
    { intros t Ht. unfold Orm.offset_limit in Ht.
      apply in_firstn_in, in_skipn_in in Ht.
      apply (Permutation_in _ (order_by_perm _)) in Ht.
      apply in_apply_filters in Ht. apply Ht. }
    split; [exact Hpr|]. split.
    + intros os Hos. split.
      * apply model_validate_all_accepted in Hos.
        cbn [Orm.ret]. rewrite Hos. reflexivity.
      * intros o Ho.
        destruct (all_pass_in _ _ o Hos Ho) as [t [Ht [_ [E _]]]].
        rewrite E. apply Hpr. exact Ht.
    + intros Href. apply model_validate_all_rejected in Href.
      destruct Href as [es Hes]. cbn [Orm.ret]. rewrite Hes. reflexivity.
Qed.

Lemma listing_by_status_or_priority_witness :
  Expected.answers (calm 10) /\
  of_string "completed" = StatusEnum_value COMPLETED /\
  Routes.query_params_ok 0 20 = true /\
  exists l,
    Crud.get_all_tasks (Z.to_nat 0) (Z.to_nat 20) (Some COMPLETED) None
                       (calm 10) (Orm.open board)
      = (Orm.Ok l, Orm.open board) /\
    (forall t, In t l -> Models.status t = COMPLETED) /\
    (forall os,
        Terms.all_pass l os ->
        Routes.get_tasks_by_status (of_string "completed") 0 20
                                   (calm 10) (Orm.open board)
        = (Orm.Ok (Routes.Response 200 os), Orm.open board) /\
        forall o, In o os -> Response.r_status o = COMPLETED) /\
    (Terms.some_refused l ->
     Routes.get_tasks_by_status (of_string "completed") 0 20
                                (calm 10) (Orm.open board)
     = (Orm.Raise Orm.ResponseValidationError, Orm.open board)).
Proof.
  split; [exact I|]. split; [reflexivity|]. split; [reflexivity|].
  apply (proj1 (proj2 (proj2 (listing_by_status_or_priority
                                (calm 10) (Orm.open board)
                                (of_string "completed") 0 20)))
               COMPLETED); [exact I|reflexivity|reflexivity].
Defined.

(** X12.  When the store answers, the statistics are consistent: the
    four counts by status add up to the total, so do the four counts by
    priority, each count is the number of stored tasks with that status
    or priority, and the overdue tasks are at most the tasks that are
    todo or in progress. *)
Theorem get_stats_summary_adds_up :
  forall (env : Orm.Env) (s : Orm.Session),
    Expected.answers env ->
    exists sm,
      Routes.get_stats_summary env s = (Orm.Ok (Routes.Response 200 sm), s) /\
      Routes.total_tasks sm = List.length (Orm.store s) /\
      (Routes.todo (Routes.by_status sm)
       + Routes.in_progress (Routes.by_status sm)
       + Routes.completed (Routes.by_status sm)
       + Routes.cancelled (Routes.by_status sm)
       = Routes.total_tasks sm)%nat /\
      (Routes.urgent (Routes.by_priority sm)
       + Routes.high (Routes.by_priority sm)
       + Routes.medium (Routes.by_priority sm)
       + Routes.low (Routes.by_priority sm)
       = Routes.total_tasks sm)%nat /\
      Routes.completed (Routes.by_status sm)
        = Terms.count_status COMPLETED (Orm.store s) /\
      Routes.urgent (Routes.by_priority sm)
        = Terms.count_priority URGENT (Orm.store s) /\
      (Routes.overdue_tasks sm
       <= Routes.todo (Routes.by_status sm)
          + Routes.in_progress (Routes.by_status sm))%nat.
Proof.
  intros env s Hans. unfold Routes.get_stats_summary, Orm.bind.
  rewrite !get_tasks_count_run by exact Hans.
  rewrite get_overdue_tasks_run by exact Hans.
  rewrite !get_tasks_count_run by exact Hans.
  eexists. split; [reflexivity|].
  cbn [Routes.total_tasks Routes.by_status Routes.by_priority
       Routes.overdue_tasks Routes.todo Routes.in_progress Routes.completed
       Routes.cancelled Routes.urgent Routes.high Routes.medium Routes.low
       Crud.apply_filters].
  split; [reflexivity|].
  split; [apply count_status_total|].
  split; [apply count_priority_total|].
  split; [reflexivity|]. split; [reflexivity|].
  apply overdue_at_most_open.
Qed.

Lemma get_stats_summary_adds_up_witness :
  Expected.answers (calm 10) /\
  exists sm,
    Routes.get_stats_summary (calm 10) (Orm.open board)
      = (Orm.Ok (Routes.Response 200 sm), Orm.open board) /\
    Routes.total_tasks sm = 2%nat.
Proof.
  split; [exact I|].
  destruct (get_stats_summary_adds_up (calm 10) (Orm.open board) I)
    as [sm [H1 [H2 _]]].
  exists sm. split; [exact H1|exact H2].
Defined.

(** ** Rows and keys *)

Section KeyFacts.

Import Models Orm Expected Terms.

Lemma lookup_replace_row_other (rows : list Task) (t : Task) (j : Z) :
  id t <> j -> lookup j (replace_row t rows) = lookup j rows.
Proof.
  unfold lookup, replace_row. intros Hj.
  induction rows as [|r rows IH]; [reflexivity|]. cbn [map find].
  destruct (has_id (id t) r) eqn:E.
  - unfold has_id in *. apply Z.eqb_eq in E.
    replace (id t =? j) with false by (symmetry; apply Z.eqb_neq; exact Hj).
    replace (id r =? j) with false
      by (symmetry; apply Z.eqb_neq; congruence).
    exact IH.
  - destruct (has_id j r); [reflexivity|exact IH].
Qed.

Lemma lookup_delete_row_other (rows : list Task) (k j : Z) :
  j <> k -> lookup j (delete_row k rows) = lookup j rows.
Proof.
  unfold lookup, delete_row. intros Hj.
  induction rows as [|r rows IH]; [reflexivity|]. cbn [filter find].
  destruct (has_id k r) eqn:E; cbn [negb find].
  - unfold has_id in *. apply Z.eqb_eq in E.
    replace (id r =? j) with false
      by (symmetry; apply Z.eqb_neq; congruence).
    exact IH.
  - destruct (has_id j r); [reflexivity|exact IH].
Qed.

Lemma replace_row_length (rows : list Task) (t : Task) :
  List.length (replace_row t rows) = List.length rows.
Proof. unfold replace_row. apply length_map. Qed.

Lemma replace_row_keys (rows : list Task) (t : Task) :
  map id (replace_row t rows) = map id rows.
Proof.
  unfold replace_row. rewrite map_map. apply map_ext_in.
  intros r _. destruct (has_id (id t) r) eqn:E; [|reflexivity].
  unfold has_id in E. apply Z.eqb_eq in E. congruence.
Qed.

(** The rows of [replace_row t rows] under the key of [t] are [t]. *)
Lemma in_replace_row_same (rows : list Task) (t x : Task) :
  In x (replace_row t rows) -> id x = id t -> x = t.
Proof.
  unfold replace_row. intros H Hid. apply in_map_iff in H.
  destruct H as [r [Hr _]]. destruct (has_id (id t) r) eqn:E;
    [congruence|].
  unfold has_id in E. apply Z.eqb_neq in E. congruence.
Qed.

(** Deleting rows keeps the keys distinct. *)
Lemma delete_row_keys_distinct (k : Z) (rows : list Task) :
  NoDup (map id rows) -> NoDup (map id (delete_row k rows)).
Proof.
  unfold delete_row.
  induction rows as [|r rows IH]; cbn [map filter]; intros H;
    [constructor|].
  apply NoDup_cons_iff in H. destruct H as [Hfresh Hrest].
  destruct (negb (has_id k r)); [|apply IH; exact Hrest].
  cbn [map]. apply NoDup_cons_iff. split; [|apply IH; exact Hrest].
  intros Hin. apply Hfresh. apply in_map_iff in Hin.
  destruct Hin as [x [Hx Hin]]. apply filter_In in Hin.
  apply in_map_iff. exists x. tauto.
Qed.

Lemma next_id_positive (rows : list Task) : 1 <= next_id rows.
Proof.
  unfold next_id. induction rows as [|r rows IH]; cbn [fold_right]; lia.
Qed.

Lemma keys_sound_inserted (rows : list Task) (t : Task) :
  id t = next_id rows -> keys_sound rows -> keys_sound (rows ++ [t]).
Proof.
  unfold keys_sound. intros Hid [Hd Hp]. split.
  - rewrite map_app. cbn [map].
    apply NoDup_app; [exact Hd|repeat constructor; intros []|].
    intros x Hx [<-|[]]. apply in_map_iff in Hx.
    destruct Hx as [r [Hr Hin]]. apply id_below_next_id in Hin. lia.
  - intros x Hx. apply in_app_or in Hx. destruct Hx as [Hx|[<-|[]]];
      [apply Hp; exact Hx|]. rewrite Hid. apply next_id_positive.
Qed.

Lemma keys_sound_replaced (rows : list Task) (row t : Task) :
  In row rows -> id t = id row ->
  keys_sound rows -> keys_sound (replace_row t rows).
Proof.
  unfold keys_sound. intros Hin Hid [Hd Hp]. split.
  - rewrite replace_row_keys. exact Hd.
  - intros x Hx. apply in_replace_row in Hx. destruct Hx as [->|Hx];
      [rewrite Hid|]; apply Hp; assumption.
Qed.

Lemma keys_sound_deleted (rows : list Task) (k : Z) :
  keys_sound rows -> keys_sound (delete_row k rows).
Proof.
  unfold keys_sound. intros [Hd Hp]. split.
  - apply delete_row_keys_distinct. exact Hd.
  - intros x Hx. unfold delete_row in Hx. apply filter_In in Hx.
    apply Hp. tauto.
Qed.

(** Under unique keys, deleting an existing key removes one row. *)
Lemma delete_row_length (rows : list Task) (k : Z) :
  NoDup (map id rows) -> lookup k rows <> None ->
  S (List.length (delete_row k rows)) = List.length rows.
Proof.
  unfold delete_row, lookup.
  induction rows as [|r rows IH]; cbn [map filter find List.length];
    intros Hd Hk; [congruence|].
  inversion Hd as [|? ? Hn Hd']; subst.
  destruct (has_id k r) eqn:E; cbn [negb List.length].
  - f_equal. unfold has_id in E. apply Z.eqb_eq in E.
    assert (Hall : forall x, In x rows -> negb (has_id k x) = true).
    { intros x Hx. unfold has_id. apply negb_true_iff, Z.eqb_neq.
      intros Hxk. apply Hn. apply in_map_iff. exists x. split; congruence. }
    clear -Hall. induction rows as [|x rows IH]; [reflexivity|].
    cbn [filter]. rewrite (Hall x (or_introl eq_refl)). cbn [List.length].
    f_equal. apply IH. intros y Hy. apply Hall. right. exact Hy.
  - f_equal. apply IH; assumption.
Qed.

End KeyFacts.

(** X13.  Read your write: the task a create returns is stored at the
    end of the table under a key that is positive and larger than every
    key in use, it carries the validated fields, fetching its id
    afterwards returns that same task, and every task stored before is
    still found under its id. *)
Theorem created_task_is_found :
  forall (task : Schemas.TaskCreate) (env : Orm.Env)
         (rows : list Models.Task) (t : Models.Task) (s' : Orm.Session),
    Crud.create_task task env (Orm.open rows) = (Orm.Ok t, s') ->
    s' = Orm.open (rows ++ [t]) /\
    1 <= Models.id t /\
    (forall r, In r rows -> Models.id r < Models.id t) /\
    Models.title t = Schemas.title task /\
    Models.description t = Schemas.description task /\
    Models.priority t = Schemas.priority task /\
    Models.status t = Schemas.status task /\
    Models.due_date t = Schemas.due_date task /\
    (forall env', Expected.answers env' ->
        Crud.get_task_by_id (Models.id t) env' s' = (Orm.Ok (Some t), s')) /\
    (forall k r, Models.lookup k rows = Some r ->
                 Models.lookup k (Orm.store s') = Some r).
Proof.
  intros task env rows t s' H. rewrite create_task_run in H. cbv zeta in H.
  assert (Ht : t = Expected.inserted task (Orm.now env) rows
               /\ s' = Orm.open (rows ++ [t])).
  { destruct (Orm.failure env); try discriminate;
      injection H as <- <-; split; reflexivity. }
  destruct Ht as [-> ->]. clear H.
  split; [reflexivity|]. split; [apply next_id_positive|].
  split; [intros r Hr; apply id_below_next_id; exact Hr|].
  do 5 (split; [reflexivity|]). split.
  - intros env' Hans. rewrite get_task_by_id_run by exact Hans.
    cbn [Orm.store Orm.open Models.id Expected.inserted].
    rewrite lookup_inserted by reflexivity. reflexivity.
  - intros k r Hk. cbn [Orm.store Orm.open]. rewrite lookup_app, Hk.
    reflexivity.
Qed.

Lemma created_task_is_found_witness :
  Crud.create_task new_task (calm 10) (Orm.open board)
  = (Orm.Ok (Expected.inserted new_task 10 board),
     Orm.open (board ++ [Expected.inserted new_task 10 board]))
  /\ 1 <= Models.id (Expected.inserted new_task 10 board).
Proof.
  split; [reflexivity|].
  apply (proj1 (proj2 (created_task_is_found
                         new_task (calm 10) board
                         (Expected.inserted new_task 10 board)
                         (Orm.open (board ++ [Expected.inserted new_task 10 board]))
                         eq_refl))).
Defined.

(** X15.  An update or a delete of one id leaves every other id alone,
    whatever the payload and whatever the store does: the task found
    under another id is the same before and after; an update never
    changes the number of rows. *)
Theorem other_tasks_untouched :
  forall (env : Orm.Env) (rows : list Models.Task) (k j : Z),
    j <> k ->
    (forall u,
        Models.lookup j
          (Orm.store (snd (Crud.update_task k u env (Orm.open rows))))
        = Models.lookup j rows) /\
    Models.lookup j (Orm.store (snd (Crud.delete_task k env (Orm.open rows))))
    = Models.lookup j rows /\
    (forall u,
        List.length
          (Orm.store (snd (Crud.update_task k u env (Orm.open rows))))
        = List.length rows).
Proof.
  intros env rows k j Hj. split; [|split].
  - intros u. rewrite update_task_run.
    destruct (Orm.failure env); try reflexivity;
      (destruct (Models.lookup k rows) as [row|] eqn:L; [|reflexivity]);
      try reflexivity;
      (destruct (Expected.patched u (Orm.now env) row) as [t|] eqn:P;
       [|reflexivity]);
      cbn [snd Orm.store Orm.open];
      apply lookup_replace_row_other;
      rewrite (patched_id _ _ _ _ P);
      destruct (lookup_some _ _ _ L) as [_ Hk]; congruence.
  - rewrite delete_task_run.
    destruct (Orm.failure env); try reflexivity;
      (destruct (Models.lookup k rows) as [row|] eqn:L; [|reflexivity]);
      try reflexivity;
      cbn [snd Orm.store Orm.open];
      apply lookup_delete_row_other; exact Hj.
  - intros u. rewrite update_task_run.
    destruct (Orm.failure env); try reflexivity;
      (destruct (Models.lookup k rows) as [row|] eqn:L; [|reflexivity]);
      try reflexivity;
      (destruct (Expected.patched u (Orm.now env) row) as [t|] eqn:P;
       [|reflexivity]);
      cbn [snd Orm.store Orm.open]; apply replace_row_length.
Qed.

Lemma other_tasks_untouched_witness :
  2 <> 1 /\
  Models.lookup 2
    (Orm.store (snd (Crud.delete_task 1 (calm 10) (Orm.open board))))
  = Models.lookup 2 board.
Proof.
  split; [lia|].
  apply (proj1 (proj2 (other_tasks_untouched (calm 10) board 1 2
                         ltac:(lia)))).
Defined.

(** X16.  An update of an id that has no row: when the store answers
    the query, the result is [None] and nothing is changed, whatever
    the payload and even if the store would refuse a commit, since none
    is attempted; the route answers 404. *)
Theorem update_of_missing_task :
  forall (env : Orm.Env) (rows : list Models.Task) (k : Z),
    Expected.answers env ->
    Models.lookup k rows = None ->
    (forall u,
        Crud.update_task k u env (Orm.open rows)
        = (Orm.Ok None, Orm.open rows)) /\
    (forall body u,
        Schemas.validate_TaskUpdate body = Schemas.Accepted u ->
        Routes.update_task k body env (Orm.open rows)
        = (Orm.Ok (Routes.HTTPException 404), Orm.open rows)).
Proof.
  intros env rows k Hans L.
  assert (H : forall u, Crud.update_task k u env (Orm.open rows)
                        = (Orm.Ok None, Orm.open rows)).
  { intros u. rewrite update_task_run, L. unfold Expected.answers in Hans.
    destruct (Orm.failure env); try contradiction; reflexivity. }
  split; [exact H|].
  intros body u V.
  unfold Routes.update_task, Routes.response_model, Orm.bind.
  rewrite V, H. reflexivity.
Qed.

Lemma update_of_missing_task_witness :
  Expected.answers (commit_fails 10) /\
  Models.lookup 7 board = None /\
  Crud.update_task 7 null_title (commit_fails 10) (Orm.open board)
  = (Orm.Ok None, Orm.open board).
Proof.
  split; [exact I|]. split; [reflexivity|].
  apply (proj1 (update_of_missing_task (commit_fails 10) board 7
                  I eq_refl)).
Defined.

(** X17.  Deleting twice: once an id has been deleted, deleting it
    again returns [False] and changes nothing; and when keys are
    unique, deleting an existing id removes exactly one row. *)
Theorem delete_task_again :
  forall (env : Orm.Env) (rows : list Models.Task) (k : Z),
    Expected.answers env ->
    Crud.delete_task k env (Orm.open (Orm.delete_row k rows))
    = (Orm.Ok false, Orm.open (Orm.delete_row k rows)) /\
    (NoDup (map Models.id rows) -> Models.lookup k rows <> None ->
     S (List.length (Orm.delete_row k rows)) = List.length rows).
Proof.
  intros env rows k Hans. split; [|apply delete_row_length].
  rewrite delete_task_run, lookup_delete_row.
  unfold Expected.answers in Hans.
  destruct (Orm.failure env); try contradiction; reflexivity.
Qed.

Lemma delete_task_again_witness :
  Expected.answers (calm 10) /\
  Crud.delete_task 1 (calm 10) (Orm.open (Orm.delete_row 1 board))
  = (Orm.Ok false, Orm.open (Orm.delete_row 1 board)).
Proof.
  split; [exact I|].
  apply (proj1 (delete_task_again (calm 10) board 1 I)).
Defined.

(** X18.  A task that has been marked completed is no longer overdue:
    after a successful [mark_task_as_completed], no task with that id
    is in the overdue listing, at any later time. *)
Theorem completed_task_is_not_overdue :
  forall (env : Orm.Env) (rows : list Models.Task) (k : Z)
         (t : Models.Task) (s' : Orm.Session),
    Crud.mark_task_as_completed k env (Orm.open rows)
    = (Orm.Ok (Some t), s') ->
    Models.status t = COMPLETED /\
    forall env', Expected.answers env' ->
      exists l,
        Crud.get_overdue_tasks env' s' = (Orm.Ok l, s') /\
        forall x, In x l -> Models.id x <> k.
Proof.
  intros env rows k t s' H. unfold Crud.mark_task_as_completed in H.
  rewrite update_task_run in H.
  assert (Hc : exists row,
             Models.lookup k rows = Some row /\
             t = Expected.completed (Orm.now env) row /\
             s' = Orm.open (Orm.replace_row t rows)).
  { destruct (Orm.failure env); cbv beta iota zeta in H; try discriminate;
      (destruct (Models.lookup k rows) as [row|]; [|discriminate]);
      try discriminate;
      rewrite patched_status_only in H; try discriminate;
      injection H as <- <-; exists row; repeat split. }
  destruct Hc as [row [L [-> ->]]]. split; [reflexivity|].
  intros env' Hans. rewrite get_overdue_tasks_run by exact Hans.
  eexists. split; [reflexivity|].
  intros x Hx Hid. apply filter_In in Hx. destruct Hx as [Hin Hf].
  cbn [Orm.store Orm.open] in Hin.
  destruct (lookup_some _ _ _ L) as [_ Hk].
  assert (Hx : x = Expected.completed (Orm.now env) row).
  { apply (in_replace_row_same rows _ x Hin). cbn. congruence. }
  subst x. cbn in Hf. rewrite andb_false_r in Hf. discriminate.
Qed.

Lemma completed_task_is_not_overdue_witness :
  Crud.mark_task_as_completed 1 (calm 10) (Orm.open board)
  = (Orm.Ok (Some (Expected.completed 10 row1)),
     Orm.open (Orm.replace_row (Expected.completed 10 row1) board))
  /\ Models.status (Expected.completed 10 row1) = COMPLETED.
Proof.
  split; [reflexivity|].
  apply (proj1 (completed_task_is_not_overdue
                  (calm 10) board 1 (Expected.completed 10 row1)
                  (Orm.open (Orm.replace_row (Expected.completed 10 row1) board))
                  eq_refl)).
Defined.

(** X23.  Fetching by id: when the store answers, [get_task_by_id]
    returns a stored task with that id if there is one and [None]
    exactly when there is none, and leaves the session as it is; the
    route answers 404 when there is none, 200 with the task as the
    response schema shows it when the task passes the schema, and
    raises when the schema refuses it. *)
Theorem get_task_by_id_finds_iff_stored :
  forall (env : Orm.Env) (s : Orm.Session) (k : Z),
    Expected.answers env ->
    exists o,
      Crud.get_task_by_id k env s = (Orm.Ok o, s) /\
      (forall t, o = Some t -> In t (Orm.store s) /\ Models.id t = k) /\
      (o = None <-> forall t, In t (Orm.store s) -> Models.id t <> k) /\
      Routes.get_task k env s
      = (match o with
         | Some t =>
             match Response.model_validate t with
             | Schemas.Accepted r => Orm.Ok (Routes.Response 200 r)
             | Schemas.Rejected _ => Orm.Raise Orm.ResponseValidationError
             end
         | None => Orm.Ok (Routes.HTTPException 404)
         end, s).
Proof.
  intros env s k Hans. exists (Models.lookup k (Orm.store s)).
  assert (H := get_task_by_id_run env s k Hans).
  split; [exact H|]. split; [|split].
  - intros t Ht. apply lookup_some. exact Ht.
  - apply lookup_none.
  - unfold Routes.get_task, Routes.response_model, Orm.bind. rewrite H.
    destruct (Models.lookup k (Orm.store s)) as [t|]; [|reflexivity].
    cbn [Orm.ret]. destruct (Response.model_validate t); reflexivity.
Qed.

Lemma get_task_by_id_finds_iff_stored_witness :
  Expected.answers (calm 10) /\
  exists o,
    Crud.get_task_by_id 2 (calm 10) (Orm.open board)
      = (Orm.Ok o, Orm.open board) /\
    (forall t, o = Some t ->
               In t (Orm.store (Orm.open board)) /\ Models.id t = 2) /\
    (o = None <->
     forall t, In t (Orm.store (Orm.open board)) -> Models.id t <> 2) /\
    Routes.get_task 2 (calm 10) (Orm.open board)
    = (match o with
       | Some t =>
           match Response.model_validate t with
           | Schemas.Accepted r => Orm.Ok (Routes.Response 200 r)
           | Schemas.Rejected _ => Orm.Raise Orm.ResponseValidationError
           end
       | None => Orm.Ok (Routes.HTTPException 404)
       end, Orm.open board).
Proof.
  split; [exact I|].
  apply (get_task_by_id_finds_iff_stored (calm 10) (Orm.open board) 2).
  exact I.
Defined.

(** ** Requests, one at a time and in sequence *)

Section RequestFacts.

Import Models Orm Expected Terms Service.

(** What one request can do to the table, with what was validated. *)
Lemma serve_cases_validated (env : Env) (r : request) (rows : list Task) :
  serve env r rows = rows
  \/ (exists body task,
         r = POST_tasks body /\
         Schemas.validate_TaskCreate body = Schemas.Accepted task /\
         serve env r rows = rows ++ [inserted task (now env) rows])
  \/ (exists k u row t,
         (r = PATCH_complete k /\ u = Schemas.TaskUpdate_status_only COMPLETED
          \/ exists body, r = PUT_task k body /\
                          Schemas.validate_TaskUpdate body = Schemas.Accepted u)
         /\ lookup k rows = Some row /\ patched u (now env) row = Some t /\
         serve env r rows = replace_row t rows)
  \/ (exists k, r = DELETE_task k /\ serve env r rows = delete_row k rows).
Proof.
  pose (K0 := fun o : option Task =>
                match o return M (Routes.http Task) with
                | Some t => ret (Routes.Response 200 t)
                | None => ret (Routes.HTTPException 404)
                end).
  assert (Hupd : forall k u,
    let rows' := store (snd (bind (Crud.update_task k u) K0 env (open rows)))
    in rows' = rows
       \/ exists row t, lookup k rows = Some row /\
                        patched u (now env) row = Some t /\
                        rows' = replace_row t rows).
  { intros k u. cbv zeta. unfold bind. rewrite update_task_run.
    destruct (failure env) eqn:F;
      try (left; reflexivity);
      (destruct (lookup k rows) as [row|] eqn:L;
       [|left; reflexivity];
       first
         [ left; reflexivity
         | destruct (patched u (now env) row) as [t|] eqn:P;
           [ right; exists row, t; auto
           | left; reflexivity ] ]). }
  destruct r as [body|k body|k|k]; unfold serve; rewrite snd_with_db.
  - unfold Routes.create_task.
    destruct (Schemas.validate_TaskCreate body) as [task|errs] eqn:V;
      [|left; reflexivity].
    rewrite response_model_snd.
    unfold try_except, bind. rewrite create_task_run. cbv zeta.
    destruct (failure env); try (left; reflexivity);
      right; left; exists body, task; auto.
  - unfold Routes.update_task.
    destruct (Schemas.validate_TaskUpdate body) as [u|errs] eqn:V;
      [|left; reflexivity].
    specialize (Hupd k u). cbv zeta in Hupd.
    rewrite response_model_snd.
    change (fun db_task : option Task => match db_task with
              | Some t => ret (Routes.Response 200 t)
              | None => ret (Routes.HTTPException 404)
              end) with K0.
    destruct Hupd as [H|[row [t [H1 [H2 H3]]]]]; [left; exact H|].
    right; right; left. exists k, u, row, t.
    split; [right; exists body; auto|auto].
  - unfold Routes.delete_task, bind. rewrite delete_task_run.
    destruct (failure env); try (left; reflexivity);
      (destruct (lookup k rows); [|left; reflexivity]);
      first [ left; reflexivity
            | right; right; right; exists k; auto ].
  - unfold Routes.mark_task_completed, Crud.mark_task_as_completed.
    specialize (Hupd k (Schemas.TaskUpdate_status_only COMPLETED)).
    cbv zeta in Hupd.
    rewrite response_model_snd.
    change (fun db_task : option Task => match db_task with
              | Some t => ret (Routes.Response 200 t)
              | None => ret (Routes.HTTPException 404)
              end) with K0.
    destruct Hupd as [H|[row [t [H1 [H2 H3]]]]]; [left; exact H|].
    right; right; left.
    exists k, (Schemas.TaskUpdate_status_only COMPLETED), row, t. auto.
Qed.

Lemma serve_keys_sound (env : Env) (r : request) (rows : list Task) :
  keys_sound rows -> keys_sound (serve env r rows).
Proof.
  intros H.
  destruct (serve_cases env r rows)
    as [E|[[task E]|[[k [u [row [t [L [P E]]]]]]|[k E]]]]; rewrite E.
  - exact H.
  - apply keys_sound_inserted; [reflexivity|exact H].
  - destruct (lookup_some _ _ _ L) as [Hin _].
    apply (keys_sound_replaced rows row t Hin (patched_id _ _ _ _ P) H).
  - apply keys_sound_deleted. exact H.
Qed.

Lemma run_keys_sound (evs : list event) :
  forall w, keys_sound (db w) -> keys_sound (db (run evs w)).
Proof.
  unfold run. induction evs as [|ev evs IH]; intros w Hw; [exact Hw|].
  cbn [fold_left]. apply IH. unfold step. cbn [db].
  apply serve_keys_sound. exact Hw.
Qed.

Lemma accepted_title_fits (s : str) :
  3 <= len s <= 200 -> all_space s = false ->
  1 <= len (strip s) <= 200.
Proof.
  intros Hl Hv. assert (H1 := len_strip_le s).
  assert (H2 := len_strip_pos s Hv). lia.
Qed.

Lemma serve_fits_columns (env : Env) (r : request) (rows : list Task) :
  fits_columns rows -> fits_columns (serve env r rows).
Proof.
  unfold fits_columns. intros H.
  destruct (serve_cases_validated env r rows)
    as [E|[[body [task [_ [V E]]]]|[[k [u [row [t [Hu [L [P E]]]]]]]|[k [_ E]]]]];
    rewrite E; clear E.
  - exact H.
  - intros x Hx. apply in_app_or in Hx.
    destruct Hx as [Hx|[<-|[]]]; [apply H; exact Hx|].
    apply validate_TaskCreate_iff in V. destruct V as (Ht & Hd & _).
    apply TaskBase_title_inr in Ht. apply TaskBase_description_inr in Hd.
    destruct Ht as [s [_ [Hl [Hv Hs]]]].
    cbn [Models.title Models.description inserted]. split.
    + rewrite Hs. apply accepted_title_fits; assumption.
    + destruct (Schemas.p_description body) as [| |d].
      * rewrite Hd. exact I.
      * rewrite Hd. exact I.
      * destruct Hd as [Hd ->]. assert (Hle := len_strip_le d). lia.
  - intros x Hx. apply in_replace_row in Hx.
    destruct Hx as [->|Hx]; [|apply H; exact Hx].
    destruct (lookup_some _ _ _ L) as [Hrow _]. specialize (H row Hrow).
    destruct (patched_spec u (now env) row t P) as [Hom [Hsup _]].
    destruct Hom as (_ & _ & Ht & Hd & _).
    destruct Hsup as (Hst & Hsd & Hnd & _).
    assert (Hfields :
      match Schemas.u_title u with
      | Schemas.Value s => 3 <= len s <= 200 | _ => True end /\
      match Schemas.u_description u with
      | Schemas.Value d => len d <= 1000 | _ => True end).
    { destruct Hu as [[_ ->]|[body [_ V]]]; [cbn; tauto|].
      apply validate_TaskUpdate_iff in V. destruct V as (Vt & Vd & _).
      apply TaskUpdate_str_inr in Vt. apply TaskUpdate_str_inr in Vd.
      destruct Vt as [-> Vt]. destruct Vd as [-> Vd].
      split; [exact Vt|].
      destruct (Schemas.p_description body); try exact I. lia. }
    destruct Hfields as [Hft Hfd]. split.
    + destruct (Schemas.u_title u) as [| |s] eqn:Eu.
      * rewrite Ht by reflexivity. apply H.
      * exfalso. assert (Hn : nulls_required u = true)
          by (unfold nulls_required; rewrite Eu; reflexivity).
        apply (patched_none_iff u (now env) row) in Hn. congruence.
      * rewrite (Hst s eq_refl). lia.
    + destruct (Schemas.u_description u) as [| |d] eqn:Eu.
      * rewrite Hd by reflexivity. apply H.
      * rewrite Hnd by reflexivity. exact I.
      * rewrite (Hsd d eq_refl). exact Hfd.
  - intros x Hx. unfold delete_row in Hx. apply filter_In in Hx.
    apply H. tauto.
Qed.

Lemma run_fits_columns (evs : list event) :
  forall w, fits_columns (db w) -> fits_columns (db (run evs w)).
Proof.
  unfold run. induction evs as [|ev evs IH]; intros w Hw; [exact Hw|].
  cbn [fold_left]. apply IH. unfold step. cbn [db].
  apply serve_fits_columns. exact Hw.
Qed.

End RequestFacts.

(** X14.  After any sequence of requests, whatever the store does in
    each, no two stored tasks share an id and every id is at least 1. *)
Theorem ids_stay_unique_and_positive :
  forall (evs : list Service.event) (t0 : Z),
    Terms.keys_sound (Service.db (Service.run evs (Service.initial t0))).
Proof.
  intros evs t0. apply run_keys_sound. cbn. split; [constructor|].
  intros t [].
Qed.

(** X22.  After any sequence of requests, the stored text fits the
    columns: every title has between 1 and 200 characters and every
    description at most 1000. *)
Theorem stored_text_fits_the_columns :
  forall (evs : list Service.event) (t0 : Z),
    Terms.fits_columns (Service.db (Service.run evs (Service.initial t0))).
Proof.
  intros evs t0. apply run_fits_columns. intros t [].
Qed.

(** X24.  A task that is still stored after a request has kept its id
    and its [created_at], and its [updated_at] has not gone back; this
    holds at any point of any sequence of requests. *)
Theorem surviving_task_keeps_created_at :
  forall (evs : list Service.event) (t0 : Z) (ev : Service.event) (k : Z)
         (row row' : Models.Task),
    Models.lookup k (Service.db (Service.run evs (Service.initial t0)))
    = Some row ->
    Models.lookup k
      (Service.db (Service.step (Service.run evs (Service.initial t0)) ev))
    = Some row' ->
    Models.id row' = Models.id row /\
    Models.created_at row' = Models.created_at row /\
    Models.updated_at row <= Models.updated_at row'.
Proof.
  intros evs t0 ev k row row'.
  assert (Hw : Expected.well_timed (Service.run evs (Service.initial t0))).
  { apply run_well_timed. intros x []. }
  set (w := Service.run evs (Service.initial t0)) in *.
  unfold Service.step. cbn [Service.db].
  set (env := {| Orm.failure := Service.behaviour ev;
                 Orm.now := Service.clock w + Z.of_N (Service.elapsed ev) |}).
  assert (Hnow : Service.clock w <= Orm.now env) by (cbn; lia).
  intros L L'.
  assert (Hsame : Models.lookup k (Service.db w) = Some row' ->
                  Models.id row' = Models.id row /\
                  Models.created_at row' = Models.created_at row /\
                  Models.updated_at row <= Models.updated_at row').
  { intros H. rewrite L in H. injection H as <-. lia. }
  destruct (serve_cases env (Service.req ev) (Service.db w))
    as [E|[[task E]|[[k0 [u [r0 [t [L0 [P E]]]]]]|[k0 E]]]];
    rewrite E in L'; clear E.
  - apply Hsame. exact L'.
  - rewrite lookup_app, L in L'. apply Hsame. congruence.
  - destruct (lookup_some _ _ _ L0) as [Hin0 Hk0].
    assert (Hid : Models.id t = k0)
      by (rewrite (patched_id _ _ _ _ P); exact Hk0).
    destruct (Z.eq_dec k0 k) as [->|Hne].
    + assert (r0 = row) by congruence. subst r0.
      rewrite <- Hid in L', L.
      rewrite (lookup_replace_row _ row t L) in L'. injection L' as <-.
      destruct (patched_spec u (Orm.now env) row t P)
        as [(Hi & Hc & _) [_ Hup]].
      specialize (Hw row Hin0). repeat split; try assumption. lia.
    + rewrite lookup_replace_row_other in L' by congruence.
      apply Hsame. exact L'.
  - destruct (Z.eq_dec k0 k) as [->|Hne].
    + rewrite lookup_delete_row in L'. discriminate.
    + rewrite lookup_delete_row_other in L' by congruence.
      apply Hsame. exact L'.
Qed.

Lemma surviving_task_keeps_created_at_witness :
  Models.lookup 1
    (Service.db (Service.run [quiet 5 (Service.POST_tasks renaming)]
                             (Service.initial 0)))
  = Some {| Models.id := 1; Models.title := of_string "Renamed";
            Models.description := None; Models.priority := MEDIUM;
            Models.status := TODO; Models.created_at := 5;
            Models.updated_at := 5; Models.due_date := None |}
  /\ Models.created_at (Expected.completed 9
       {| Models.id := 1; Models.title := of_string "Renamed";
          Models.description := None; Models.priority := MEDIUM;
          Models.status := TODO; Models.created_at := 5;
          Models.updated_at := 5; Models.due_date := None |}) = 5.
Proof.
  split; [reflexivity|].
  apply (proj1 (proj2 (surviving_task_keeps_created_at
     [quiet 5 (Service.POST_tasks renaming)] 0
     (quiet 4 (Service.PATCH_complete 1)) 1
     {| Models.id := 1; Models.title := of_string "Renamed";
        Models.description := None; Models.priority := MEDIUM;
        Models.status := TODO; Models.created_at := 5;
        Models.updated_at := 5; Models.due_date := None |}
     (Expected.completed 9
        {| Models.id := 1; Models.title := of_string "Renamed";
           Models.description := None; Models.priority := MEDIUM;
           Models.status := TODO; Models.created_at := 5;
           Models.updated_at := 5; Models.due_date := None |})
     eq_refl eq_refl))).
Defined.

(** ** The routes and the application *)

(** X19.  The list route checks its bounds before anything else: a
    skip below 0 or a limit outside 1..100 is answered 422 without a
    query, whatever the store does.  When it answers with a body, the
    status is 200, the session is untouched, the page size is the
    limit, the tasks are at most [limit] and at most [total], and the
    page number is the one page whose range of [limit] offsets holds
    [skip]. *)
Theorem get_tasks_bounds :
  forall (env : Orm.Env) (s : Orm.Session) (skip limit : Z)
         (status_ : option StatusEnum) (priority_ : option PriorityEnum),
    (Routes.query_params_ok skip limit = true <->
     0 <= skip /\ 1 <= limit <= 100) /\
    (Routes.query_params_ok skip limit = false ->
     Routes.get_tasks skip limit status_ priority_ env s
     = (Orm.Ok (Routes.HTTPException 422), s)) /\
    (forall code body s',
        Routes.get_tasks skip limit status_ priority_ env s
        = (Orm.Ok (Routes.Response code body), s') ->
        code = 200 /\ s' = s /\
        Routes.page_size body = limit /\
        Z.of_nat (List.length (Routes.tasks body)) <= limit /\
        (List.length (Routes.tasks body) <= Routes.total body)%nat /\
        1 <= Routes.page body /\
        (Routes.page body - 1) * limit <= skip < Routes.page body * limit).
Proof.
  intros env s skip limit st pr.
  assert (Hok : Routes.query_params_ok skip limit = true <->
                0 <= skip /\ 1 <= limit <= 100).
  { unfold Routes.query_params_ok.
    rewrite !andb_true_iff, !Z.leb_le. tauto. }
  split; [exact Hok|]. split.
  - intros H. unfold Routes.get_tasks. rewrite H. reflexivity.
  - intros code body s' H. unfold Routes.get_tasks in H.
    destruct (Routes.query_params_ok skip limit) eqn:Q; [|discriminate].
    destruct (proj1 Hok eq_refl) as [Hs [Hl1 Hl2]].
    unfold Orm.bind in H.
    assert (Hans : Expected.answers env).
    { unfold Expected.answers. unfold Crud.get_all_tasks, Orm.execute in H.
      destruct (Orm.failure env); try exact I. discriminate. }
    rewrite get_all_tasks_run, get_tasks_count_run in H by exact Hans.
    unfold Routes.TaskList_init in H.
    destruct (Response.model_validate_all _) as [os|es] eqn:E;
      [|discriminate].
    apply model_validate_all_accepted, all_pass_length in E.
    cbn in H. injection H as <- <- <-.
    cbn [Routes.page_size Routes.tasks Routes.total Routes.page].
    split; [reflexivity|]. split; [reflexivity|]. split; [reflexivity|].
    rewrite E, offset_limit_length, order_by_length.
    split; [lia|]. split; [lia|].
    assert (Hd := Z.div_pos skip limit Hs ltac:(lia)).
    split; [lia|].
    assert (H1 := Z.mul_div_le skip limit ltac:(lia)).
    assert (H2 := Z.mul_succ_div_gt skip limit ltac:(lia)).
    split; nia.
Qed.

Lemma get_tasks_bounds_witness :
  Routes.query_params_ok 0 101 = false /\
  Routes.get_tasks 0 101 None None (commit_fails 10) (Orm.open board)
  = (Orm.Ok (Routes.HTTPException 422), Orm.open board).
Proof.
  split; [reflexivity|].
  apply (proj1 (proj2 (get_tasks_bounds (commit_fails 10) (Orm.open board)
                         0 101 None None))).
  reflexivity.
Defined.

(** X20.  The outcomes of the create route.  A payload that fails
    validation is answered 422 and nothing is stored.  For an accepted
    one: if the commit fails the answer is 500 and the table is
    unchanged; if the store fails after the commit the answer is 500
    and the task is stored all the same; otherwise the task is stored,
    and the answer is 201 with the task as the response schema shows
    it, or, when the schema refuses the stored task, the route raises
    with the task stored. *)
Theorem create_route_outcomes :
  forall (env : Orm.Env) (body : Schemas.Payload) (rows : list Models.Task),
    Routes.create_task body env (Orm.open rows)
    = match Schemas.validate_TaskCreate body with
      | Schemas.Rejected _ =>
          (Orm.Ok (Routes.HTTPException 422), Orm.open rows)
      | Schemas.Accepted task =>
          match Orm.failure env with
          | Orm.AtCommit _ =>
              (Orm.Ok (Routes.HTTPException 500), Orm.open rows)
          | Orm.AtRefresh _ =>
              (Orm.Ok (Routes.HTTPException 500),
               Orm.open
                 (rows ++ [Expected.inserted task (Orm.now env) rows]))
          | _ =>
              (match Response.model_validate
                       (Expected.inserted task (Orm.now env) rows) with
               | Schemas.Accepted r => Orm.Ok (Routes.Response 201 r)
               | Schemas.Rejected _ =>
                   Orm.Raise Orm.ResponseValidationError
               end,
               Orm.open
                 (rows ++ [Expected.inserted task (Orm.now env) rows]))
          end
      end.
Proof.
  intros env body rows. unfold Routes.create_task.
  destruct (Schemas.validate_TaskCreate body) as [task|errs];
    [|reflexivity].
  unfold Routes.response_model, Orm.try_except, Orm.bind.
  rewrite create_task_run. cbv zeta.
  destruct (Orm.failure env); try reflexivity;
    cbn [Orm.ret];
    destruct (Response.model_validate
                (Expected.inserted task (Orm.now env) rows)); reflexivity.
Qed.

(** X21.  Every request gets a status: 201, 422 or 500 for a create;
    200, 404, 422 or 500 for an update; 200, 404 or 500 for a delete or
    a completion.  A 404 or a 422 means the table is as it was, and a
    201 that exactly one row was added at its end. *)
Theorem app_status_codes :
  forall (env : Orm.Env) (r : Service.request) (rows : list Models.Task),
    snd (Main.app env r rows) = Service.serve env r rows /\
    match r with
    | Service.POST_tasks _ => In (fst (Main.app env r rows)) [201; 422; 500]
    | Service.PUT_task _ _ =>
        In (fst (Main.app env r rows)) [200; 404; 422; 500]
    | _ => In (fst (Main.app env r rows)) [200; 404; 500]
    end /\
    (fst (Main.app env r rows) = 404 \/ fst (Main.app env r rows) = 422 ->
     snd (Main.app env r rows) = rows) /\
    (fst (Main.app env r rows) = 201 ->
     exists t, snd (Main.app env r rows) = rows ++ [t]).
Proof.
  intros env r rows.
  assert (Hupd : forall k u,
    let res := Routes.response_model
                 (Orm.bind (Crud.update_task k u)
                    (fun db_task : option Models.Task =>
                       match db_task with
                       | Some t => Orm.ret (Routes.Response 200 t)
                       | None => Orm.ret (Routes.HTTPException 404)
                       end)) env (Orm.open rows) in
    In (Main.status_of (fst res)) [200; 404; 500] /\
    (Main.status_of (fst res) = 404 \/ Main.status_of (fst res) = 422 ->
     Orm.store (snd res) = rows) /\
    Main.status_of (fst res) <> 201).
  { intros k u. cbv zeta. unfold Routes.response_model, Orm.bind.
    rewrite update_task_run.
    destruct (Orm.failure env);
      repeat match goal with
        | |- context [match Models.lookup k rows with _ => _ end] =>
            destruct (Models.lookup k rows)
        | |- context [match Expected.patched ?a ?b ?c with _ => _ end] =>
            destruct (Expected.patched a b c)
        | |- context [match Response.model_validate ?t with _ => _ end] =>
            destruct (Response.model_validate t)
        | _ => progress cbn [Orm.ret fst snd]
        end;
      cbn; intuition (try discriminate; try lia). }
  destruct r as [body|k body|k|k]; unfold Main.app, Service.serve,
    Service.with_db.
  - unfold Routes.create_task.
    destruct (Schemas.validate_TaskCreate body) as [task|errs];
      [unfold Routes.response_model, Orm.try_except, Orm.bind;
       rewrite create_task_run; cbv zeta;
       destruct (Orm.failure env); cbn [Orm.ret];
       try destruct (Response.model_validate
                       (Expected.inserted task (Orm.now env) rows))|]; cbn;
      (split; [reflexivity|]); (split; [tauto|]);
      (split; [intuition (try discriminate; try lia)|]);
      intros H; try discriminate; eexists; reflexivity.
  - unfold Routes.update_task.
    destruct (Schemas.validate_TaskUpdate body) as [u|errs].
    + specialize (Hupd k u). cbv zeta in Hupd.
      destruct (Routes.response_model _ env (Orm.open rows))
        as [res s]. cbn [fst snd] in *.
      destruct Hupd as (H1 & H2 & H3).
      split; [reflexivity|]. split; [cbn in *; tauto|].
      split; [exact H2|]. intros H. contradiction.
    + cbn. split; [reflexivity|]. split; [tauto|].
      split; [reflexivity|]. discriminate.
  - unfold Routes.delete_task, Orm.bind. rewrite delete_task_run.
    destruct (Orm.failure env);
      try (cbn; intuition (try discriminate; try lia));
      (destruct (Models.lookup k rows);
       cbn; intuition (try discriminate; try lia)).
  - unfold Routes.mark_task_completed, Crud.mark_task_as_completed.
    specialize (Hupd k (Schemas.TaskUpdate_status_only COMPLETED)).
    cbv zeta in Hupd.
    destruct (Routes.response_model _ env (Orm.open rows))
      as [res s]. cbn [fst snd] in *.
    destruct Hupd as (H1 & H2 & H3).
    split; [reflexivity|]. split; [exact H1|].
    split; [exact H2|]. intros H. contradiction.
Qed.

Lemma app_status_codes_witness :
  fst (Main.app (calm 10) (Service.DELETE_task 7) board) = 404 /\
  snd (Main.app (calm 10) (Service.DELETE_task 7) board) = board.
Proof.
  split; [reflexivity|].
  apply (proj1 (proj2 (proj2 (app_status_codes
                                (calm 10) (Service.DELETE_task 7) board)))).
  left. reflexivity.
Defined.

(** X25.  The response schema accepts a stored task exactly when its
    title has 3 to 200 characters and is not all white space and its
    description, if any, has at most 1000 characters.  What it then
    shows is the task with title and description trimmed and every
    other field as stored. *)
Theorem TaskResponse_accepts_iff :
  forall t : Models.Task,
    ((exists r, Response.model_validate t = Schemas.Accepted r) <->
     3 <= len (Models.title t) <= 200 /\
     all_space (Models.title t) = false /\
     match Models.description t with
     | Some d => len d <= 1000
     | None => True
     end) /\
    (forall r,
        Response.model_validate t = Schemas.Accepted r ->
        Response.r_title r = strip (Models.title t) /\
        Response.r_description r
          = match Models.description t with
            | Some d => Some (strip d)
            | None => None
            end /\
        Response.r_id r = Models.id t /\
        Response.r_priority r = Models.priority t /\
        Response.r_status r = Models.status t /\
        Response.r_due_date r = Models.due_date t /\
        Response.r_created_at r = Models.created_at t /\
        Response.r_updated_at r = Models.updated_at t).
Proof.
  intros t.
  assert (Hshape : forall r,
    Response.model_validate t = Schemas.Accepted r ->
    (3 <= len (Models.title t) <= 200 /\
     all_space (Models.title t) = false /\
     match Models.description t with
     | Some d => len d <= 1000
     | None => True
     end) /\
    Response.r_title r = strip (Models.title t) /\
    Response.r_description r
      = match Models.description t with
        | Some d => Some (strip d)
        | None => None
        end).
  { intros r H. apply model_validate_iff in H.
    destruct H as (Ht & Hd & _).
    apply TaskBase_title_inr in Ht. apply TaskBase_description_inr in Hd.
    destruct Ht as [s [Hs [Hl [Hv Hr]]]]. injection Hs as <-.
    destruct (Models.description t) as [d|]; cbn [Response.attribute] in Hd;
      tauto. }
  split; [split|].
  - intros [r H]. apply (Hshape r H).
  - intros (Hl & Hv & Hd).
    exists {| Response.r_title := strip (Models.title t);
              Response.r_description :=
                match Models.description t with
                | Some d => Some (strip d)
                | None => None
                end;
              Response.r_priority := Models.priority t;
              Response.r_status := Models.status t;
              Response.r_due_date := Models.due_date t;
              Response.r_id := Models.id t;
              Response.r_created_at := Models.created_at t;
              Response.r_updated_at := Models.updated_at t |}.
    apply model_validate_iff.
    cbn [Response.r_title Response.r_description Response.r_priority
         Response.r_status Response.r_due_date Response.r_id
         Response.r_created_at Response.r_updated_at
         Models.title Models.description Models.priority Models.status
         Models.due_date Models.id Models.created_at Models.updated_at
         Expected.inserted].
    split; [apply TaskBase_title_inr; exists (Models.title t); tauto|].
    split; [|tauto]. apply TaskBase_description_inr.
    destruct (Models.description t) as [d|]; cbn [Response.attribute];
      tauto.
  - intros r H. destruct (Hshape r H) as (_ & H1 & H2).
    apply model_validate_iff in H. tauto.
Qed.

Lemma TaskResponse_accepts_iff_witness :
  Response.model_validate row2
  = Schemas.Accepted
      {| Response.r_title := of_string "def";
         Response.r_description := Some (of_string "notes");
         Response.r_priority := HIGH; Response.r_status := COMPLETED;
         Response.r_due_date := None; Response.r_id := 2;
         Response.r_created_at := 6; Response.r_updated_at := 7 |}
  /\ Response.r_id
       {| Response.r_title := of_string "def";
          Response.r_description := Some (of_string "notes");
          Response.r_priority := HIGH; Response.r_status := COMPLETED;
          Response.r_due_date := None; Response.r_id := 2;
          Response.r_created_at := 6; Response.r_updated_at := 7 |}
     = Models.id row2.
Proof.
  split; [reflexivity|].
  apply (proj2 (TaskResponse_accepts_iff row2) _ eq_refl).
Defined.

(** X26.  The task a create stores passes the response schema exactly
    when its title, as stored after trimming, still has at least 3
    characters; the response then shows the stored title and
    description unchanged.  A title such as two spaces, one letter, two
    spaces is accepted on input and stored as one letter, which the
    response schema refuses. *)
Theorem created_row_and_response_schema :
  forall (p : Schemas.Payload) (task : Schemas.TaskCreate) (clock : Z)
         (rows : list Models.Task),
    Schemas.validate_TaskCreate p = Schemas.Accepted task ->
    ((exists r,
         Response.model_validate (Expected.inserted task clock rows)
         = Schemas.Accepted r) <->
     3 <= len (Schemas.title task)) /\
    (forall r,
        Response.model_validate (Expected.inserted task clock rows)
        = Schemas.Accepted r ->
        Response.r_title r = Schemas.title task /\
        Response.r_description r = Schemas.description task).
Proof.
  intros p task clock rows V.
  apply validate_TaskCreate_iff in V. destruct V as (Ht & Hd & _).
  apply TaskBase_title_inr in Ht. apply TaskBase_description_inr in Hd.
  destruct Ht as [s [_ [Hl [Hv Hs]]]].
  assert (Hb : 1 <= len (Schemas.title task) <= 200)
    by (rewrite Hs; apply accepted_title_fits; assumption).
  assert (Hvis : all_space (Schemas.title task) = false).
  { rewrite Hs. destruct (all_space (strip s)) eqn:E; [|reflexivity].
    apply strip_blank in E. apply strip_nil_iff in E. congruence. }
  assert (Hst : strip (Schemas.title task) = Schemas.title task)
    by (rewrite Hs; apply strip_idempotent).
  assert (Hdesc : match Schemas.description task with
                  | Some d => len d <= 1000 /\ strip d = d
                  | None => True
                  end).
  { destruct (Schemas.p_description p) as [| |d].
    - rewrite Hd. exact I.
    - rewrite Hd. exact I.
    - destruct Hd as [Hd ->]. split; [|apply strip_idempotent].
      assert (Hle := len_strip_le d). lia. }
  split; [split|].
  - intros [r H]. apply model_validate_iff in H. destruct H as (H & _).
    apply TaskBase_title_inr in H. destruct H as [s' [Hs' [Hl' _]]].
    injection Hs' as <-. cbn [Models.title Expected.inserted] in Hl'. lia.
  - intros H3.
    exists {| Response.r_title := Schemas.title task;
              Response.r_description := Schemas.description task;
              Response.r_priority := Schemas.priority task;
              Response.r_status := Schemas.status task;
              Response.r_due_date := Schemas.due_date task;
              Response.r_id := Models.next_id rows;
              Response.r_created_at := clock;
              Response.r_updated_at := clock |}.
    apply model_validate_iff.
    cbn [Response.r_title Response.r_description Response.r_priority
         Response.r_status Response.r_due_date Response.r_id
         Response.r_created_at Response.r_updated_at
         Models.title Models.description Models.priority Models.status
         Models.due_date Models.id Models.created_at Models.updated_at
         Expected.inserted].
    split; [apply TaskBase_title_inr; exists (Schemas.title task);
            repeat split; try lia; [exact Hvis|symmetry; exact Hst]|].
    split; [|tauto]. apply TaskBase_description_inr.
    destruct (Schemas.description task) as [d|]; cbn [Response.attribute];
      [|reflexivity].
    destruct Hdesc as [H1 H2]. split; [exact H1|congruence].
  - intros r H. apply model_validate_iff in H. destruct H as (H1 & H2 & _).
    apply TaskBase_title_inr in H1. apply TaskBase_description_inr in H2.
    destruct H1 as [s' [Hs' [_ [_ Hr]]]]. injection Hs' as <-.
    cbn [Models.title Models.description Expected.inserted] in *.
    split; [congruence|].
    destruct (Schemas.description task) as [d|]; cbn [Response.attribute] in H2.
    + destruct H2 as [_ ->]. destruct Hdesc as [_ ->]. reflexivity.
    + exact H2.
Qed.

Lemma created_row_and_response_schema_witness :
  Schemas.validate_TaskCreate
    (only_title (Schemas.Value (of_string "  a  ")))
  = Schemas.Accepted
      {| Schemas.title := of_string "a"; Schemas.description := None;
         Schemas.priority := MEDIUM; Schemas.status := TODO;
         Schemas.due_date := None |}
  /\ ~ exists r,
         Response.model_validate
           (Expected.inserted
              {| Schemas.title := of_string "a"; Schemas.description := None;
                 Schemas.priority := MEDIUM; Schemas.status := TODO;
                 Schemas.due_date := None |} 10 board)
         = Schemas.Accepted r.
Proof.
  split; [reflexivity|].
  intros H.
  apply (proj1 (proj1 (created_row_and_response_schema
                         (only_title (Schemas.Value (of_string "  a  ")))
                         _ 10 board eq_refl))) in H.
  vm_compute in H. apply H. reflexivity.
Defined.
